(** * spotify-clean: playlist scans, duplicate grouping and chunked removal

    A shallow embedding of [spotify-clean.py].  The remote client [sp], the
    terminal and the clock are the program's only effects; they are made
    explicit here:

    - a playlist read is the sequence of pages the client hands out
      ([sp.playlist_items] gives the first, [sp.next] each following one,
      and the [next] cursor is null on the last);
    - the answers of the two removal endpoints are a script, one scripted
      answer per call, consumed in call order;
    - the lines typed by the user are a list of strings;
    - everything the program does to the outside (prints, prompts, sleeps,
      removal calls) is appended to a trace.

    Python [str] values are modelled as byte strings and the text
    primitives ([lower], [strip], [int], [isdigit]) are given for ASCII
    text; bytes above 127 are left alone by them. *)

From Stdlib Require Import List String Ascii ZArith Arith Bool Lia.
Import ListNotations.
Local Open Scope string_scope.
Local Open Scope list_scope.
Local Open Scope nat_scope.

(* ================================================================= *)
(** ** Python text primitives *)

Module Py.

Definition code (c : ascii) : nat := nat_of_ascii c.

(** [str.lower] on one character. *)
Definition lower_char (c : ascii) : ascii :=
  if (65 <=? code c) && (code c <=? 90) then ascii_of_nat (code c + 32) else c.

(** [str.lower]. *)
Fixpoint lower (s : string) : string :=
  match s with
  | EmptyString => EmptyString
  | String c r => String (lower_char c) (lower r)
  end.

(** Characters removed by [str.strip()]: tab, LF, VT, FF, CR,
    the separators 0x1c-0x1f and the blank. *)
Definition is_space (c : ascii) : bool :=
  ((9 <=? code c) && (code c <=? 13))
  || ((28 <=? code c) && (code c <=? 31))
  || (code c =? 32).

(** Characters skipped by [int(str)] around the literal: tab, LF, VT, FF,
    CR and the blank. *)
Definition is_int_space (c : ascii) : bool :=
  ((9 <=? code c) && (code c <=? 13)) || (code c =? 32).

Fixpoint lstrip_by (sp : ascii -> bool) (s : string) : string :=
  match s with
  | EmptyString => EmptyString
  | String c r => if sp c then lstrip_by sp r else s
  end.

(** Drops the blanks at the end: a character stays when it is not a
    blank or when something stays after it. *)
Fixpoint rstrip_by (sp : ascii -> bool) (s : string) : string :=
  match s with
  | EmptyString => EmptyString
  | String c r =>
      match rstrip_by sp r with
      | EmptyString => if sp c then EmptyString else String c EmptyString
      | r' => String c r'
      end
  end.

(** [str.strip()]. *)
Definition strip (s : string) : string := rstrip_by is_space (lstrip_by is_space s).

(** [sep.join(parts)]. *)
Definition join (sep : string) (parts : list string) : string :=
  String.concat sep parts.

(** [s[:n]]. *)
Definition prefix (n : nat) (s : string) : string := substring 0 n s.

Definition is_digit (c : ascii) : bool := (48 <=? code c) && (code c <=? 57).

Definition digit_value (c : ascii) : Z := Z.of_nat (code c - 48).

(** [str.isdigit()]: not empty and digits only. *)
Fixpoint all_digits (s : string) : bool :=
  match s with
  | EmptyString => true
  | String c r => is_digit c && all_digits r
  end.

Definition isdigit (s : string) : bool :=
  match s with
  | EmptyString => false
  | _ => all_digits s
  end.

(** The digits of a decimal literal after its first digit: single
    underscores are allowed between digits, never at the end. *)
Fixpoint int_digits (acc : Z) (after_underscore : bool) (s : string) : option Z :=
  match s with
  | EmptyString => if after_underscore then None else Some acc
  | String c r =>
      if is_digit c then int_digits (acc * 10 + digit_value c) false r
      else if (code c =? 95) && negb after_underscore then int_digits acc true r
      else None
  end.

Definition int_unsigned (s : string) : option Z :=
  match s with
  | EmptyString => None
  | String c r => if is_digit c then int_digits (digit_value c) false r else None
  end.

(** [int(s)] for a string: blanks around, an optional sign, then the
    decimal literal.  [None] stands for the [ValueError]. *)
Definition int (s : string) : option Z :=
  match rstrip_by is_int_space (lstrip_by is_int_space s) with
  | String "+" r => int_unsigned r
  | String "-" r => option_map Z.opp (int_unsigned r)
  | body => int_unsigned body
  end.

End Py.

(* ================================================================= *)
(** ** What the remote client returns *)

(** A track object as the field projections of the scans deliver it:
    [artists] holds the artists' names ([track.get('artists', [])]),
    [release_date] is [track.get('album', {}).get('release_date')]. *)
Record track := mkTrack {
  track_name : string;
  track_artists : list string;
  track_uri : string;
  release_date : option string
}.

(** A playlist slot; [item_track] is null for a slot whose track is gone
    or unavailable. *)
Record item := mkItem {
  item_added_at : option string;
  item_track : option track
}.

(** The pages of one playlist read, in the order the client returns them. *)
Definition page := list item.
Definition source := list page.

(** Exceptions the program meets.  [SpotifyException] carries the
    [http_status] and the [headers] of the response (possibly [None]). *)
Inductive exn :=
| SpotifyException (http_status : Z) (headers : option (list (string * string)))
| OtherException (what : string)
| ValueError
| EOFError.

(** The scripted answer to one removal call. *)
Inductive api_result :=
| ROk
| RRaise (e : exn).

(* ================================================================= *)
(** ** What the program does to the outside *)

(** One element of the payload of
    [sp.playlist_remove_specific_occurrences_of_items]:
    [{'uri': ..., 'positions': [...]}]. *)
Record occurrence := mkOccurrence {
  occ_uri : string;
  occ_positions : list nat
}.

(** The lines the program prints, one constructor per [print] statement,
    with the values interpolated into the line. *)
Inductive message :=
| MsgArtistRemoved (n : nat) (artist : string)
| MsgRemoveError (e : exn)
| MsgArtistNotFound (artist : string)
| MsgNameRemoved (n : nat) (name : string)
| MsgNameNotFound (name : string)
| MsgDupScanning
| MsgDupNone
| MsgDupFound (groups : nat)
| MsgDupGroup (idx : nat) (name : string) (size : nat)
| MsgDupOccurrence (i : nat) (position : nat) (added_at : option string) (artists : string)
| MsgInvalidEntry
| MsgSkipping
| MsgSelected (position : nat)
| MsgOutOfRange
| MsgNoSelection
| MsgRateLimit (retry_after : Z)
| MsgBatchError (e : exn)
| MsgBatchUnexpected (e : exn)
| MsgOccurrenceFailed (positions : list nat) (uri : string) (e : exn)
| MsgUriFailed (uri : string) (e : exn)
| MsgDupRemoved (n : nat)
| MsgYearSearching (cutoff : Z)
| MsgYearNone (cutoff : Z)
| MsgYearHeader
| MsgYearTrack (idx : nat) (name artists date : string)
| MsgCancelled
| MsgNothingToRemove
| MsgYearRemoved (n : nat).

(** The prompts of [input]. *)
Inductive prompt :=
| AskOccurrence (name : string) (size : nat)
| AskConfirm.

Inductive event :=
| Print (m : message)
| Input (p : prompt)
| Sleep (seconds : Z)
| RemoveAll (uris : list string)
| RemoveSpecific (occs : list occurrence).

Definition trace := list event.

(** How a piece of the program ends: normally with a value, the answers
    and the typed lines not yet consumed; by an exception that nothing
    catches; or, in the model only, at a call or a prompt for which the
    script holds nothing. *)
Inductive outcome (A : Type) :=
| Done (a : A) (answers : list api_result) (typed : list string) (tr : trace)
| Raised (e : exn) (tr : trace)
| Starved (tr : trace).
Arguments Done {A} a answers typed tr.
Arguments Raised {A} e tr.
Arguments Starved {A} tr.

Definition trace_of {A} (o : outcome A) : trace :=
  match o with
  | Done _ _ _ tr => tr
  | Raised _ tr => tr
  | Starved tr => tr
  end.

(** The removal calls of a trace, bulk and single alike. *)
Definition is_removal_call (ev : event) : bool :=
  match ev with
  | RemoveAll _ | RemoveSpecific _ => true
  | _ => false
  end.

(** The number of candidates a removal call carries. *)
Definition payload_size (ev : event) : nat :=
  match ev with
  | RemoveAll uris => List.length uris
  | RemoveSpecific occs => List.length occs
  | _ => 0
  end.

(* ================================================================= *)
(** ** Python containers used by the program *)

(** A [dict] with string keys, in insertion order. *)
Definition dict (V : Type) := list (string * V).

Definition dict_mem {V} (k : string) (d : dict V) : bool :=
  existsb (fun kv => String.eqb k (fst kv)) d.

Fixpoint dict_get {V} (k : string) (d : dict V) : option V :=
  match d with
  | [] => None
  | (k', v) :: r => if String.eqb k k' then Some v else dict_get k r
  end.

(** [d.setdefault(k, v)], for its effect on [d]. *)
Definition setdefault {V} (k : string) (v : V) (d : dict V) : dict V :=
  if dict_mem k d then d else d ++ [(k, v)].

(** [d.setdefault(k, []).append(x)]. *)
Fixpoint setdefault_append {V} (k : string) (x : V) (d : dict (list V)) : dict (list V) :=
  match d with
  | [] => [(k, [x])]
  | (k', xs) :: r =>
      if String.eqb k k' then (k', xs ++ [x]) :: r
      else (k', xs) :: setdefault_append k x r
  end.

Definition keys {V} (d : dict V) : list string := map fst d.

(** [dict.fromkeys(l)]. *)
Definition fromkeys (l : list string) : dict unit :=
  fold_left (fun d k => setdefault k tt d) l [].

(** [range(0, stop, step)] for a positive [step], by the iteration it
    stands for; [stop] rounds are enough to reach [stop]. *)
Fixpoint range_from (fuel i stop step : nat) : list nat :=
  match fuel with
  | 0 => []
  | S fuel' => if i <? stop then i :: range_from fuel' (i + step) stop step else []
  end.

Definition range (stop step : nat) : list nat := range_from stop 0 stop step.

(** [lst[i:j]] for [0 <= i <= j]. *)
Definition slice {A} (lst : list A) (i j : nat) : list A := firstn (j - i) (skipn i lst).

(** [_chunked_list(lst, n)], for the positive [n] the program calls it
    with; the chunks in the order they are yielded. *)
Definition _chunked_list {A} (lst : list A) (n : nat) : list (list A) :=
  map (fun i => slice lst i (i + n)) (range (List.length lst) n).

(* ================================================================= *)
(** ** Scanning a playlist *)

(** The loop shared by every scan: [while results:] over the pages,
    [for item in results['items']:] inside, following [next]. *)
Definition scan {St} (body : St -> item -> St) (pages : source) (init : St) : St :=
  fold_left (fun st pg => fold_left body pg st) pages init.

(** *** Removal by artist *)

Definition artist_matches (artist_name : string) (t : track) : bool :=
  existsb (fun a => String.eqb (Py.lower a) (Py.lower artist_name)) (track_artists t).

Definition scan_artist_item (artist_name : string) (tracks_to_remove : list string)
    (it : item) : list string :=
  match item_track it with
  | Some t =>
      if artist_matches artist_name t then tracks_to_remove ++ [track_uri t]
      else tracks_to_remove
  | None => tracks_to_remove
  end.

Definition remove_artist_from_playlist (pages : source) (artist_name : string)
    (answers : list api_result) (typed : list string) : outcome unit :=
  let tracks_to_remove := scan (scan_artist_item artist_name) pages [] in
  match tracks_to_remove with
  | [] => Done tt answers typed [Print (MsgArtistNotFound artist_name)]
  | _ =>
      match answers with
      | [] => Starved [RemoveAll tracks_to_remove]
      | ROk :: rest =>
          Done tt rest typed
            [RemoveAll tracks_to_remove;
             Print (MsgArtistRemoved (List.length tracks_to_remove) artist_name)]
      | RRaise e :: rest =>
          Done tt rest typed [RemoveAll tracks_to_remove; Print (MsgRemoveError e)]
      end
  end.

(** *** Removal by track name *)

Definition name_matches (track_name' : string) (t : track) : bool :=
  String.eqb (Py.lower (track_name t)) (Py.lower track_name').

Definition scan_name_item (track_name' : string) (tracks_to_remove : list string)
    (it : item) : list string :=
  match item_track it with
  | Some t =>
      if name_matches track_name' t then tracks_to_remove ++ [track_uri t]
      else tracks_to_remove
  | None => tracks_to_remove
  end.

Definition remove_music_from_playlist (pages : source) (track_name' : string)
    (answers : list api_result) (typed : list string) : outcome unit :=
  let tracks_to_remove := scan (scan_name_item track_name') pages [] in
  match tracks_to_remove with
  | [] => Done tt answers typed [Print (MsgNameNotFound track_name')]
  | _ =>
      let submitted := keys (fromkeys tracks_to_remove) in
      match answers with
      | [] => Starved [RemoveAll submitted]
      | ROk :: rest =>
          Done tt rest typed
            [RemoveAll submitted;
             Print (MsgNameRemoved (List.length tracks_to_remove) track_name')]
      | RRaise e :: rest =>
          Done tt rest typed [RemoveAll submitted; Print (MsgRemoveError e)]
      end
  end.

(* ================================================================= *)
(** ** Chunked removal with back-off and item-by-item fallback *)

(** [headers.get('Retry-After', '5')] on
    [getattr(e, 'headers', {}) or {}]; the headers are a dictionary keyed
    by the header names as the program spells them. *)
Definition retry_after_text (headers : option (list (string * string))) : string :=
  let headers := match headers with Some h => h | None => [] end in
  match dict_get "Retry-After" headers with
  | Some v => v
  | None => "5"
  end.

(** [time.sleep] refuses a negative duration with a [ValueError]; the
    upper limit of the platform's clock is not modelled. *)
Definition time_sleep (seconds : Z) : option exn :=
  if (seconds <? 0)%Z then Some ValueError else None.

Section BatchRemover.

(** The two removal loops differ in the payload, the endpoint and the
    wording of their messages only. *)
Context {T : Type}.
Variable api_call : list T -> event.
Variable msg_batch_error : exn -> message.
Variable msg_batch_unexpected : exn -> message.
Variable msg_item_failed : T -> exn -> message.

(** [for item in chunk: try: remove([item]); count += 1
     except Exception as e2: print(...)]. *)
Fixpoint fallback (chunk : list T) (answers : list api_result) (typed : list string)
    (removed_count : nat) (tr : trace) : outcome nat :=
  match chunk with
  | [] => Done removed_count answers typed tr
  | item :: rest =>
      let tr := tr ++ [api_call [item]] in
      match answers with
      | [] => Starved tr
      | ROk :: answers' => fallback rest answers' typed (removed_count + 1) tr
      | RRaise e2 :: answers' =>
          fallback rest answers' typed removed_count (tr ++ [Print (msg_item_failed item e2)])
      end
  end.

(** The [while True:] around one chunk.  Each round consumes one scripted
    answer, so the loop is a recursion on the script. *)
Fixpoint try_chunk (chunk : list T) (answers : list api_result) (typed : list string)
    (removed_count : nat) (tr : trace) : outcome nat :=
  let tr := tr ++ [api_call chunk] in
  match answers with
  | [] => Starved tr
  | ROk :: answers' => Done (removed_count + List.length chunk) answers' typed tr
  | RRaise (SpotifyException http_status headers as e) :: answers' =>
      if (http_status =? 429)%Z then
        match Py.int (retry_after_text headers) with
        | None => Raised ValueError tr
        | Some retry_after =>
            let tr := tr ++ [Print (MsgRateLimit retry_after)] in
            match time_sleep retry_after with
            | Some err => Raised err tr
            | None => try_chunk chunk answers' typed removed_count (tr ++ [Sleep retry_after])
            end
        end
      else
        fallback chunk answers' typed removed_count (tr ++ [Print (msg_batch_error e)])
  | RRaise e :: answers' =>
      fallback chunk answers' typed removed_count (tr ++ [Print (msg_batch_unexpected e)])
  end.

(** [for chunk in _chunked_list(candidates, BATCH_SIZE):]. *)
Fixpoint remove_chunks (chunks : list (list T)) (answers : list api_result)
    (typed : list string) (removed_count : nat) (tr : trace) : outcome nat :=
  match chunks with
  | [] => Done removed_count answers typed tr
  | chunk :: rest =>
      match try_chunk chunk answers typed removed_count tr with
      | Done removed_count' answers' typed' tr' =>
          remove_chunks rest answers' typed' removed_count' tr'
      | stopped => stopped
      end
  end.

End BatchRemover.

(** The loop of the duplicate flow: by position, 50 per call. *)
Definition remove_occurrences_in_chunks (to_remove_items : list occurrence) :=
  remove_chunks RemoveSpecific MsgBatchError MsgBatchUnexpected
    (fun it e2 => MsgOccurrenceFailed (occ_positions it) (occ_uri it) e2)
    (_chunked_list to_remove_items 50).

(** The loop of the year flow: by identity, 100 per call. *)
Definition remove_uris_in_chunks (uris_to_remove : list string) :=
  remove_chunks RemoveAll MsgBatchError MsgBatchUnexpected MsgUriFailed
    (_chunked_list uris_to_remove 100).

(* ================================================================= *)
(** ** Removal of duplicates *)

(** An element of [items]: one scanned slot. *)
Record scanned := mkScanned {
  position : nat;
  added_at : option string;
  name : string;
  artists : string;
  artist_key : string;
  uri : string
}.

Definition scan_entry (position : nat) (it : item) (t : track) : scanned :=
  let artist_list := map Py.strip (track_artists t) in
  {| position := position;
     added_at := item_added_at it;
     name := track_name t;
     artists := Py.join ", " artist_list;
     artist_key := Py.lower (Py.join "," artist_list);
     uri := track_uri t |}.

(** The body of the scan; the state is [(items, position)]. *)
Definition scan_duplicates_item (st : list scanned * nat) (it : item) : list scanned * nat :=
  match item_track it with
  | Some t => (fst st ++ [scan_entry (snd st) it t], snd st + 1)
  | None => st
  end.

Definition scan_duplicates (pages : source) : list scanned :=
  fst (scan scan_duplicates_item pages ([], 0)).

(** [f"{it['name'].strip().lower()}||{it['artist_key']}"]. *)
Definition group_key (it : scanned) : string :=
  Py.lower (Py.strip (name it)) ++ "||" ++ artist_key it.

Definition group_items (items : list scanned) : dict (list scanned) :=
  fold_left (fun groups it => setdefault_append (group_key it) it groups) items [].

(** [{k: v for k, v in groups.items() if len(v) > 1}]. *)
Definition duplicates_of (groups : dict (list scanned)) : dict (list scanned) :=
  filter (fun kv => 1 <? List.length (snd kv)) groups.

(** [occurrences[0]['name']]; a reported group is never empty. *)
Definition first_name (occurrences : list scanned) : string :=
  match occurrences with
  | o :: _ => name o
  | [] => ""
  end.

(** The lines that list the occurrences of one group, numbered from [i]. *)
Fixpoint show_occurrences (i : nat) (occurrences : list scanned) : trace :=
  match occurrences with
  | [] => []
  | occ :: rest =>
      Print (MsgDupOccurrence i (position occ) (added_at occ) (artists occ))
      :: show_occurrences (S i) rest
  end.

(** The [while True:] that asks which occurrence of a group goes; one
    typed line per round.  The end of the input raises [EOFError]. *)
Fixpoint ask_occurrence (occurrences : list scanned) (answers : list api_result)
    (typed : list string) (tr : trace) : outcome (option occurrence) :=
  let tr := tr ++ [Input (AskOccurrence (first_name occurrences) (List.length occurrences))] in
  match typed with
  | [] => Raised EOFError tr
  | line :: typed' =>
      let escolha := Py.strip line in
      if negb (Py.isdigit escolha) then
        ask_occurrence occurrences answers typed' (tr ++ [Print MsgInvalidEntry])
      else
        match Py.int escolha with
        | None => Raised ValueError tr
        | Some escolha_int =>
            if (escolha_int =? 0)%Z then
              Done None answers typed' (tr ++ [Print MsgSkipping])
            else if ((1 <=? escolha_int) && (escolha_int <=? Z.of_nat (List.length occurrences)))%Z
            then
              match nth_error occurrences (Z.to_nat (escolha_int - 1)) with
              | Some selected =>
                  Done (Some {| occ_uri := uri selected; occ_positions := [position selected] |})
                    answers typed' (tr ++ [Print (MsgSelected (position selected))])
              | None => Raised (OtherException "IndexError") tr
              end
            else
              ask_occurrence occurrences answers typed' (tr ++ [Print MsgOutOfRange])
        end
  end.

(** [for idx, (group_key, occurrences) in enumerate(duplicates.items(), start=1):]. *)
Fixpoint select_occurrences (idx : nat) (duplicates : dict (list scanned))
    (to_remove_items : list occurrence) (answers : list api_result)
    (typed : list string) (tr : trace) : outcome (list occurrence) :=
  match duplicates with
  | [] => Done to_remove_items answers typed tr
  | (_, occurrences) :: rest =>
      let tr :=
        tr ++ [Print (MsgDupGroup idx (first_name occurrences) (List.length occurrences))]
           ++ show_occurrences 1 occurrences in
      match ask_occurrence occurrences answers typed tr with
      | Done choice answers' typed' tr' =>
          let to_remove_items :=
            match choice with
            | Some occ => to_remove_items ++ [occ]
            | None => to_remove_items
            end in
          select_occurrences (S idx) rest to_remove_items answers' typed' tr'
      | Raised e tr' => Raised e tr'
      | Starved tr' => Starved tr'
      end
  end.

Definition remove_duplicates_from_playlist (pages : source)
    (answers : list api_result) (typed : list string) : outcome unit :=
  let tr := [Print MsgDupScanning] in
  let items := scan_duplicates pages in
  let groups := group_items items in
  let duplicates := duplicates_of groups in
  match duplicates with
  | [] => Done tt answers typed (tr ++ [Print MsgDupNone])
  | _ =>
      let tr := tr ++ [Print (MsgDupFound (List.length duplicates))] in
      match select_occurrences 1 duplicates [] answers typed tr with
      | Done [] answers' typed' tr' => Done tt answers' typed' (tr' ++ [Print MsgNoSelection])
      | Done to_remove_items answers' typed' tr' =>
          match remove_occurrences_in_chunks to_remove_items answers' typed' 0 tr' with
          | Done removed_count answers'' typed'' tr'' =>
              Done tt answers'' typed'' (tr'' ++ [Print (MsgDupRemoved removed_count)])
          | Raised e tr'' => Raised e tr''
          | Starved tr'' => Starved tr''
          end
      | Raised e tr' => Raised e tr'
      | Starved tr' => Starved tr'
      end
  end.

(* ================================================================= *)
(** ** Removal of tracks released before a year *)

(** An element of [matches]. *)
Record year_match := mkYearMatch {
  ym_uri : string;
  ym_name : string;
  ym_artists : string;
  ym_release_date : string
}.

(** The value kept per URI in [unique_by_uri]. *)
Record year_info := mkYearInfo {
  yi_name : string;
  yi_artists : string;
  yi_release_date : string
}.

(** The body of the scan: a slot is collected when its track is there,
    its release date is there and not empty, the first four characters
    convert with [int], and the year is below the cutoff. *)
Definition scan_year_item (year_cutoff : Z) (matches : list year_match) (it : item)
    : list year_match :=
  match item_track it with
  | None => matches
  | Some t =>
      match release_date t with
      | None => matches
      | Some EmptyString => matches
      | Some date =>
          match Py.int (Py.prefix 4 date) with
          | None => matches
          | Some release_year =>
              if (release_year <? year_cutoff)%Z then
                matches ++ [ {| ym_uri := track_uri t;
                                ym_name := track_name t;
                                ym_artists := Py.join ", " (track_artists t);
                                ym_release_date := date |} ]
              else matches
          end
      end
  end.

Definition unique_by_uri_of (matches : list year_match) : dict year_info :=
  fold_left
    (fun d m => setdefault (ym_uri m)
                  {| yi_name := ym_name m; yi_artists := ym_artists m;
                     yi_release_date := ym_release_date m |} d)
    matches [].

Fixpoint show_year_tracks (idx : nat) (d : dict year_info) : trace :=
  match d with
  | [] => []
  | (_, info) :: rest =>
      Print (MsgYearTrack idx (yi_name info) (yi_artists info) (yi_release_date info))
      :: show_year_tracks (S idx) rest
  end.

Definition remove_tracks_before_year_from_playlist (pages : source) (year_cutoff : Z)
    (answers : list api_result) (typed : list string) : outcome unit :=
  let tr := [Print (MsgYearSearching year_cutoff)] in
  let matches := scan (scan_year_item year_cutoff) pages [] in
  match matches with
  | [] => Done tt answers typed (tr ++ [Print (MsgYearNone year_cutoff)])
  | _ =>
      let unique_by_uri := unique_by_uri_of matches in
      let tr := tr ++ [Print MsgYearHeader] ++ show_year_tracks 1 unique_by_uri
                   ++ [Input AskConfirm] in
      match typed with
      | [] => Raised EOFError tr
      | line :: typed' =>
          let confirm := Py.lower (Py.strip line) in
          if negb (String.eqb confirm "s") then
            Done tt answers typed' (tr ++ [Print MsgCancelled])
          else
            let uris_to_remove := keys unique_by_uri in
            match uris_to_remove with
            | [] => Done tt answers typed' (tr ++ [Print MsgNothingToRemove])
            | _ =>
                match remove_uris_in_chunks uris_to_remove answers typed' 0 tr with
                | Done removed_total answers' typed'' tr' =>
                    Done tt answers' typed'' (tr' ++ [Print (MsgYearRemoved removed_total)])
                | Raised e tr' => Raised e tr'
                | Starved tr' => Starved tr'
                end
            end
      end
  end.

(* ================================================================= *)
(** ** Start-up, playlists and the menu *)

(** A playlist object as [sp.user_playlists] delivers it:
    [p['id']], [p['name']] and [p['owner']['id']]. *)
Record playlist := mkPlaylist {
  pl_id : string;
  pl_name : string;
  pl_owner : string
}.

(** The lines printed outside the four flows, one constructor per [print]
    statement. *)
Inductive menu_message :=
| MsgConfigMissing
| MsgConfigHint
| MsgConfigExample
| MsgConfigClientId
| MsgConfigClientSecret
| MsgConfigRedirectUri
| MsgPlaylistsHeader
| MsgPlaylistLine (number : nat) (name : string)
| MsgTracksHeader
| MsgTrackLine (number : nat) (name artist_names : string)
| MsgNoPlaylists
| MsgBanner
| MsgRule
| MsgMenu
| MsgInvalidOption
| MsgInvalidNumber
| MsgNotANumber
| MsgRemovingArtist (artist_name playlist_name : string)
| MsgAskList
| MsgListRule
| MsgRemovingTrack (track_name' playlist_name : string)
| MsgInvalidYear.

(** The prompts of [input] outside the four flows; [AskNothing] is the
    bare [input()]. *)
Inductive menu_prompt :=
| AskOption
| AskPlaylist
| AskArtist
| AskNothing
| AskTrack
| AskYear.

(** What a session does: its own lines and prompts, the reads of a
    playlist's items, and the events of the flows it runs. *)
Inductive session_event :=
| Say (m : menu_message)
| Ask (p : menu_prompt)
| ReadPlaylist (playlist_id : string)
| InFlow (ev : event).

Definition session_trace := list session_event.

(** How a session ends: by [exit] with a status, by an exception that
    nothing catches, at a read or a call for which the scripts hold
    nothing, or, in the model only, with the rounds allotted used up. *)
Inductive session_end :=
| Exit (status : nat) (tr : session_trace)
| Crash (e : exn) (tr : session_trace)
| Stalled (tr : session_trace)
| Unfinished (tr : session_trace).

Definition session_trace_of (s : session_end) : session_trace :=
  match s with
  | Exit _ tr => tr
  | Crash _ tr => tr
  | Stalled tr => tr
  | Unfinished tr => tr
  end.

(** [not value] for a setting read with [os.getenv]: unset or empty. *)
Definition unset (value : option string) : bool :=
  match value with
  | None => true
  | Some EmptyString => true
  | Some _ => false
  end.

(** The lines printed before [exit(1)] when a setting is missing. *)
Definition config_remediation : session_trace :=
  [Say MsgConfigMissing; Say MsgConfigHint; Say MsgConfigExample;
   Say MsgConfigClientId; Say MsgConfigClientSecret; Say MsgConfigRedirectUri].

(** [show_playlists]: the lines after the header, numbered from [idx + 1]. *)
Fixpoint playlist_lines (idx : nat) (playlists : list playlist) : session_trace :=
  match playlists with
  | [] => []
  | p :: rest => Say (MsgPlaylistLine (idx + 1) (pl_name p)) :: playlist_lines (S idx) rest
  end.

Definition show_playlists (playlists : list playlist) : session_trace :=
  Say MsgPlaylistsHeader :: playlist_lines 0 playlists.

(** The lines of one page of [listar_musicas_playlist]:
    [for idx, item in enumerate(results['items'])], a line for each slot
    whose track is there. *)
Fixpoint track_lines (idx : nat) (items : list item) : session_trace :=
  match items with
  | [] => []
  | it :: rest =>
      match item_track it with
      | Some t =>
          Say (MsgTrackLine (idx + 1) (track_name t) (Py.join ", " (track_artists t)))
          :: track_lines (S idx) rest
      | None => track_lines (S idx) rest
      end
  end.

(** [listar_musicas_playlist]: the header, the read, the lines of every
    page; the read consumes the next scripted playlist, [None] when there
    is none. *)
Definition listar_musicas_playlist (playlist_id : string) (reads : list source)
    : option (list source) * session_trace :=
  let tr := [Say MsgTracksHeader; ReadPlaylist playlist_id] in
  match reads with
  | [] => (None, tr)
  | pages :: reads' => (Some reads', tr ++ flat_map (track_lines 0) pages)
  end.

(** [get_user_playlists_only], on the pages of [sp.user_playlists]. *)
Definition get_user_playlists_only (user_id : string) (pages : list (list playlist))
    : list playlist :=
  fold_left
    (fun playlists pg => playlists ++ filter (fun p => String.eqb (pl_owner p) user_id) pg)
    pages [].

(** What one round of the menu leaves behind: the playlist bound to
    [playlist_escolhida] if any, the scripts not yet consumed, the trace;
    or the end of the session. *)
Inductive round_result :=
| Continue (playlist_escolhida : option playlist) (reads : list source)
    (answers : list api_result) (typed : list string) (tr : session_trace)
| End (s : session_end).

(** [1 <= escolha <= len(playlists)] and [playlists[escolha - 1]]. *)
Definition pick_playlist (playlists : list playlist) (escolha : Z) : option playlist :=
  if ((1 <=? escolha) && (escolha <=? Z.of_nat (List.length playlists)))%Z
  then nth_error playlists (Z.to_nat (escolha - 1))
  else None.

(** The end of a round that runs a flow on the items of [p].  [prologue]
    holds what the flow prints before it reads the playlist (nothing for
    the artist and track-name flows, one line for the other two); the read
    comes next, then the rest of the flow on the pages read. *)
Definition run_flow (p : playlist) (reads : list source) (prologue : trace)
    (flow : source -> outcome unit) (tr : session_trace) : round_result :=
  let tr := tr ++ map InFlow prologue ++ [ReadPlaylist (pl_id p)] in
  match reads with
  | [] => End (Stalled tr)
  | pages :: reads' =>
      let rest := skipn (List.length prologue) in
      match flow pages with
      | Done _ answers' typed' ftr =>
          Continue (Some p) reads' answers' typed' (tr ++ map InFlow (rest ftr))
      | Raised e ftr => End (Crash e (tr ++ map InFlow (rest ftr)))
      | Starved ftr => End (Stalled (tr ++ map InFlow (rest ftr)))
      end
  end.

(** The [while True:] of option 1: the playlist is asked for and, once one
    is picked, the artist is asked for and the flow runs inside the same
    round.  The artist flow raises nothing, so the [except ValueError] of
    this loop only ever answers a line that is no number. *)
Fixpoint artist_rounds (playlists : list playlist) (playlist_escolhida : option playlist)
    (reads : list source) (answers : list api_result) (typed : list string)
    (tr : session_trace) : round_result :=
  let tr := tr ++ [Ask AskPlaylist] in
  match typed with
  | [] => End (Crash EOFError tr)
  | line :: typed' =>
      match Py.int line with
      | None =>
          artist_rounds playlists playlist_escolhida reads answers typed'
            (tr ++ [Say MsgNotANumber])
      | Some escolha =>
          if (escolha =? 0)%Z then Continue playlist_escolhida reads answers typed' tr
          else
            match pick_playlist playlists escolha with
            | Some p =>
                let tr := tr ++ [Ask AskArtist] in
                match typed' with
                | [] => End (Crash EOFError tr)
                | artist_name :: typed'' =>
                    run_flow p reads []
                      (fun pages => remove_artist_from_playlist pages artist_name answers typed'')
                      (tr ++ [Say (MsgRemovingArtist artist_name (pl_name p))])
                end
            | None =>
                artist_rounds playlists playlist_escolhida reads answers typed'
                  (tr ++ [Say MsgInvalidNumber])
            end
      end
  end.

(** How the question for a playlist of options 2, 3 and 4 ends. *)
Inductive choice :=
| Chosen (playlist_escolhida : option playlist) (typed : list string) (tr : session_trace)
| ChoiceRaised (e : exn) (tr : session_trace).

(** The [while True:] of options 2, 3 and 4: 0 leaves the loop without
    binding [playlist_escolhida], a number in range binds it. *)
Fixpoint choose_playlist (playlists : list playlist) (playlist_escolhida : option playlist)
    (typed : list string) (tr : session_trace) : choice :=
  let tr := tr ++ [Ask AskPlaylist] in
  match typed with
  | [] => ChoiceRaised EOFError tr
  | line :: typed' =>
      match Py.int line with
      | None => choose_playlist playlists playlist_escolhida typed' (tr ++ [Say MsgNotANumber])
      | Some escolha =>
          if (escolha =? 0)%Z then Chosen playlist_escolhida typed' tr
          else
            match pick_playlist playlists escolha with
            | Some p => Chosen (Some p) typed' tr
            | None =>
                choose_playlist playlists playlist_escolhida typed' (tr ++ [Say MsgInvalidNumber])
            end
      end
  end.

(** How the question for the year ends. *)
Inductive year_answer :=
| YearGiven (ano : Z) (typed : list string) (tr : session_trace)
| YearRaised (e : exn) (tr : session_trace).

(** The [while True:] that asks for the year of option 4. *)
Fixpoint ask_year (typed : list string) (tr : session_trace) : year_answer :=
  let tr := tr ++ [Ask AskYear] in
  match typed with
  | [] => YearRaised EOFError tr
  | line :: typed' =>
      match Py.int (Py.strip line) with
      | Some ano => YearGiven ano typed' tr
      | None => ask_year typed' (tr ++ [Say MsgInvalidYear])
      end
  end.

(** Option 2 once a playlist is bound: the offer to list the tracks, the
    track name, the flow. *)
Definition track_round (p : playlist) (reads : list source) (answers : list api_result)
    (typed : list string) (tr : session_trace) : round_result :=
  let tr := tr ++ [Say MsgAskList; Ask AskNothing] in
  match typed with
  | [] => End (Crash EOFError tr)
  | line :: typed' =>
      let listed :=
        if String.eqb (Py.lower (Py.strip line)) "s" then
          match listar_musicas_playlist (pl_id p) reads with
          | (Some reads', ltr) => inl (reads', tr ++ ltr ++ [Say MsgListRule])
          | (None, ltr) => inr (tr ++ ltr)
          end
        else inl (reads, tr) in
      match listed with
      | inr tr => End (Stalled tr)
      | inl (reads, tr) =>
          let tr := tr ++ [Ask AskTrack] in
          match typed' with
          | [] => End (Crash EOFError tr)
          | track_name' :: typed'' =>
              run_flow p reads []
                (fun pages => remove_music_from_playlist pages track_name' answers typed'')
                (tr ++ [Say (MsgRemovingTrack track_name' (pl_name p))])
          end
      end
  end.

(** One round of the menu: the banner, the option, the branch taken. *)
Definition menu_round (playlists : list playlist) (playlist_escolhida : option playlist)
    (reads : list source) (answers : list api_result) (typed : list string)
    (tr : session_trace) : round_result :=
  let tr := tr ++ [Say MsgBanner; Say MsgRule; Say MsgMenu; Ask AskOption] in
  match typed with
  | [] => End (Crash EOFError tr)
  | line :: typed =>
      match Py.int line with
      | None => End (Exit 0 (tr ++ [Say MsgInvalidOption]))
      | Some opcao =>
          if (opcao =? 1)%Z then
            artist_rounds playlists playlist_escolhida reads answers typed
              (tr ++ show_playlists playlists)
          else if ((opcao =? 2) || (opcao =? 3) || (opcao =? 4))%Z then
            match choose_playlist playlists playlist_escolhida typed
                    (tr ++ show_playlists playlists) with
            | ChoiceRaised e tr => End (Crash e tr)
            | Chosen None typed tr => Continue None reads answers typed tr
            | Chosen (Some p) typed tr =>
                if (opcao =? 2)%Z then track_round p reads answers typed tr
                else if (opcao =? 3)%Z then
                  run_flow p reads [Print MsgDupScanning]
                    (fun pages => remove_duplicates_from_playlist pages answers typed) tr
                else
                  match ask_year typed tr with
                  | YearRaised e tr => End (Crash e tr)
                  | YearGiven ano typed tr =>
                      run_flow p reads [Print (MsgYearSearching ano)]
                        (fun pages =>
                           remove_tracks_before_year_from_playlist pages ano answers typed)
                        tr
                  end
            end
          else if (opcao =? 5)%Z then End (Exit 0 tr)
          else Continue playlist_escolhida reads answers typed (tr ++ [Say MsgInvalidOption])
      end
  end.

(** The [while True:] of the menu, for at most [rounds] rounds. *)
Fixpoint menu_loop (rounds : nat) (playlists : list playlist)
    (playlist_escolhida : option playlist) (reads : list source)
    (answers : list api_result) (typed : list string) (tr : session_trace) : session_end :=
  match rounds with
  | 0 => Unfinished tr
  | S rounds' =>
      match menu_round playlists playlist_escolhida reads answers typed tr with
      | Continue playlist_escolhida' reads' answers' typed' tr' =>
          menu_loop rounds' playlists playlist_escolhida' reads' answers' typed' tr'
      | End s => s
      end
  end.

(** The program: the check of the three settings, the playlists of the
    user, the menu.  Every round of the menu reads a line, so one round
    more than there are lines is enough. *)
Definition program (client_id client_secret redirect_uri : option string)
    (user_id : string) (playlist_pages : list (list playlist)) (reads : list source)
    (answers : list api_result) (typed : list string) : session_end :=
  if unset client_id || unset client_secret || unset redirect_uri then
    Exit 1 config_remediation
  else
    let playlists := get_user_playlists_only user_id playlist_pages in
    match playlists with
    | [] => Exit 0 [Say MsgNoPlaylists]
    | _ => menu_loop (S (List.length typed)) playlists None reads answers typed []
    end.

(* ================================================================= *)
(** ** Vocabulary of the statements *)

(** *** Slots and tracks *)

(** The slots of a page sequence whose track is there, with their tracks,
    in source order. *)
Definition present_tracks (items : list item) : list (item * track) :=
  flat_map (fun it => match item_track it with
                      | Some t => [(it, t)]
                      | None => []
                      end) items.

(** The entries for a run of slots, numbered upwards from [p]. *)
Fixpoint number_from (p : nat) (slots : list (item * track)) : list scanned :=
  match slots with
  | [] => []
  | (it, t) :: rest => scan_entry p it t :: number_from (S p) rest
  end.

(** The tracks of the slots whose track is there, in source order. *)
Definition tracks_of (items : list item) : list track := map snd (present_tracks items).

(** *** Groups and keys *)

Section GroupingVocabulary.

Context {V : Type}.
Variable key_of : V -> string.

(** The groups built from [items] on top of [groups], by [setdefault]
    and [append]. *)
Definition group_by (items : list V) (groups : dict (list V)) : dict (list V) :=
  fold_left (fun groups it => setdefault_append (key_of it) it groups) items groups.

(** The items whose key is [k], in their order. *)
Definition sharing (k : string) (items : list V) : list V :=
  filter (fun it => String.eqb (key_of it) k) items.

End GroupingVocabulary.





(** The playlist of the specification's grouping example. *)
Definition grouping_example : source :=
  [[mkItem None (Some (mkTrack "Song" ["A"] "u0" None));
    mkItem None (Some (mkTrack "song" ["a"] "u1" None))];
   [mkItem None (Some (mkTrack "Song" ["B"] "u2" None))]].

(** The keys a dictionary ends with when keys are added one by one with
    [setdefault], starting from the keys [seen]. *)
Definition first_seen (l : list string) (seen : list string) : list string :=
  fold_left (fun seen k => if existsb (String.eqb k) seen then seen else seen ++ [k]) l seen.

(** *** The removal loop *)

(** A rate-limit signal: a [SpotifyException] whose status is 429. *)
Definition is_rate_limit (e : exn) : bool :=
  match e with
  | SpotifyException http_status _ => (http_status =? 429)%Z
  | _ => false
  end.

Definition rate_limited (headers : option (list (string * string))) : api_result :=
  RRaise (SpotifyException 429 headers).

Definition is_ok (a : api_result) : bool :=
  match a with
  | ROk => true
  | RRaise _ => false
  end.

Definition count_ok (answers : list api_result) : nat :=
  List.length (filter is_ok answers).

Section BatchVocabulary.

Context {T : Type}.
Variable api_call : list T -> event.
Variable msg_batch_error : exn -> message.
Variable msg_batch_unexpected : exn -> message.
Variable msg_item_failed : T -> exn -> message.

(** The line printed when the bulk call of a chunk fails otherwise than by
    rate limiting: one wording per [except] clause. *)
Definition batch_message (e : exn) : message :=
  match e with
  | SpotifyException _ _ => msg_batch_error e
  | _ => msg_batch_unexpected e
  end.

(** What a fallback over [chunk] does when the items are answered by
    [item_answers], one answer per item. *)
Fixpoint fallback_events (chunk : list T) (item_answers : list api_result) : trace :=
  match chunk, item_answers with
  | item :: rest, ROk :: answers => api_call [item] :: fallback_events rest answers
  | item :: rest, RRaise e2 :: answers =>
      api_call [item] :: Print (msg_item_failed item e2) :: fallback_events rest answers
  | _, _ => []
  end.

(** What the rounds of back-off on [chunk] do, one round per wait. *)
Definition backoff_events (chunk : list T) (waits : list Z) : trace :=
  flat_map (fun d => [api_call chunk; Print (MsgRateLimit d); Sleep d]) waits.

(** [allowed] singles out the payloads the loop may submit. *)
Variable allowed : list T -> Prop.

(** The events a removal loop may add to the trace. *)
Inductive batch_event : event -> Prop :=
| BatchCall payload : allowed payload -> batch_event (api_call payload)
| BatchRateLimit d : batch_event (Print (MsgRateLimit d))
| BatchSleep d : batch_event (Sleep d)
| BatchError e : batch_event (Print (msg_batch_error e))
| BatchUnexpected e : batch_event (Print (msg_batch_unexpected e))
| BatchItemFailed x e : batch_event (Print (msg_item_failed x e)).

(** [o] carries on from [tr] with events of the loop only. *)
Definition grows (tr : trace) (o : outcome nat) : Prop :=
  exists added, trace_of o = tr ++ added /\ Forall batch_event added.

End BatchVocabulary.

(** *** Traces *)

(** The final report of a chunked flow. *)
Definition is_report (ev : event) : bool :=
  match ev with
  | Print (MsgDupRemoved _) | Print (MsgYearRemoved _) => true
  | _ => false
  end.

Definition is_input (ev : event) : bool :=
  match ev with
  | Input _ => true
  | _ => false
  end.

(** Events that neither touch the playlist nor report a count. *)
Definition quiet (ev : event) : Prop :=
  is_removal_call ev = false /\ is_report ev = false.

Definition extends {A} (P : event -> Prop) (tr : trace) (o : outcome A) : Prop :=
  exists added, trace_of o = tr ++ added /\ Forall P added.

(** [o] carries on from the trace [tr]. *)
Definition follows {A} (tr : trace) (o : outcome A) : Prop :=
  exists added, trace_of o = tr ++ added.

Definition no_removal_call (tr : trace) : Prop :=
  Forall (fun ev => is_removal_call ev = false) tr.

Definition no_input (tr : trace) : Prop :=
  Forall (fun ev => is_input ev = false) tr.

(** *** The year flow *)

(** The criterion on a slot: the track is there, it has a release date,
    the first four characters of the date convert with [int], and the year
    is below the cutoff. *)
Definition meets_year_cutoff (year_cutoff : Z) (it : item) : Prop :=
  exists t date release_year,
    item_track it = Some t
    /\ release_date t = Some date
    /\ Py.int (Py.prefix 4 date) = Some release_year
    /\ (release_year < year_cutoff)%Z.

Definition year_match_of (t : track) (date : string) : year_match :=
  {| ym_uri := track_uri t;
     ym_name := track_name t;
     ym_artists := Py.join ", " (track_artists t);
     ym_release_date := date |}.

(** [uris_to_remove]: the candidates the year flow hands to its loop. *)
Definition year_candidates (pages : source) (year_cutoff : Z) : list string :=
  keys (unique_by_uri_of (scan (scan_year_item year_cutoff) pages [])).

(** What an event of the year flow may be, given its candidates: a call
    carries at most 100 of them, a report counts at most all of them. *)
Definition year_event_ok (uris : list string) (ev : event) : Prop :=
  match ev with
  | RemoveAll payload => List.length payload <= 100 /\ incl payload uris
  | RemoveSpecific _ => False
  | Print (MsgYearRemoved n) => n <= List.length uris
  | Print (MsgDupRemoved _) => False
  | _ => True
  end.

(** The trace of the year flow up to and including its question. *)
Definition year_prompt (pages : source) (year_cutoff : Z) : trace :=
  [Print (MsgYearSearching year_cutoff); Print MsgYearHeader]
  ++ show_year_tracks 1 (unique_by_uri_of (scan (scan_year_item year_cutoff) pages []))
  ++ [Input AskConfirm].

(** [confirm == 's'] for the typed line. *)
Definition year_confirmed (line : string) : bool :=
  String.eqb (Py.lower (Py.strip line)) "s".

(** *** The duplicate flow *)

(** The trace of the duplicate flow before its first question. *)
Definition dup_found (pages : source) : trace :=
  [Print MsgDupScanning;
   Print (MsgDupFound (List.length (duplicates_of (group_items (scan_duplicates pages)))))].

(** The questions of the duplicate flow, group after group. *)
Definition selection (pages : source) answers typed : outcome (list occurrence) :=
  select_occurrences 1 (duplicates_of (group_items (scan_duplicates pages))) []
    answers typed (dup_found pages).

(** [to_remove_items]: the candidates the duplicate flow hands to its loop
    (none when the questions do not come to an end). *)
Definition selected_occurrences (pages : source) answers typed : list occurrence :=
  match selection pages answers typed with
  | Done to_remove_items _ _ _ => to_remove_items
  | _ => []
  end.

(** What an event of the duplicate flow may be, given its candidates: a
    call carries at most 50 of them, a report counts at most all of them. *)
Definition dup_event_ok (to_remove_items : list occurrence) (ev : event) : Prop :=
  match ev with
  | RemoveSpecific payload => List.length payload <= 50 /\ incl payload to_remove_items
  | RemoveAll _ => False
  | Print (MsgDupRemoved n) => n <= List.length to_remove_items
  | Print (MsgYearRemoved _) => False
  | _ => True
  end.

(** *** A long playlist *)

(** A playlist of [n] slots holding [n] different tracks, all of one name. *)
Definition numbered_uri (k : nat) : string :=
  "spotify:track:" ++ String.concat "" (repeat "x" k).

Definition long_playlist (n : nat) : source :=
  [map (fun k => mkItem None (Some (mkTrack "Intro" ["Various"] (numbered_uri k) None)))
       (seq 0 n)].

(** *** Sessions *)

(** The trace a round leaves, however it ends. *)
Definition round_trace (r : round_result) : session_trace :=
  match r with
  | Continue _ _ _ _ tr => tr
  | End s => session_trace_of s
  end.

(** A playlist read is a read of one of [playlists]. *)
Definition reads_listed (playlists : list playlist) (ev : session_event) : Prop :=
  match ev with
  | ReadPlaylist playlist_id => exists p, In p playlists /\ pl_id p = playlist_id
  | _ => True
  end.

(** The binding of [playlist_escolhida], if any, is one of [playlists]. *)
Definition bound_listed (playlists : list playlist) (bound : option playlist) : Prop :=
  match bound with
  | Some p => In p playlists
  | None => True
  end.

(** A line the question for a playlist does not accept: no number, or a
    number that is neither 0 nor in range. *)
Definition playlist_line_rejected (playlists : list playlist) (line : string) : Prop :=
  match Py.int line with
  | None => True
  | Some escolha => escolha <> 0%Z /\ pick_playlist playlists escolha = None
  end.

(** A line the question for an occurrence does not accept: no digit
    string, or a number that is neither 0 nor in range. *)
Definition occurrence_line_rejected (occurrences : list scanned) (line : string) : Prop :=
  Py.isdigit (Py.strip line) = false
  \/ exists k, Py.int (Py.strip line) = Some k
               /\ k <> 0%Z
               /\ ~ (1 <= k <= Z.of_nat (List.length occurrences))%Z.

(** The candidate built from a scanned entry. *)
Definition occurrence_of (selected : scanned) : occurrence :=
  {| occ_uri := uri selected; occ_positions := [position selected] |}.

(** The value of a string of decimal digits read after [acc]. *)
Fixpoint decimal_value (acc : Z) (s : string) : Z :=
  match s with
  | EmptyString => acc
  | String c r => decimal_value (acc * 10 + Py.digit_value c) r
  end.

(** At most [n] typed lines are left when [o] ends normally. *)
Definition leaves_at_most {A} (n : nat) (o : outcome A) : Prop :=
  match o with
  | Done _ _ typed' _ => List.length typed' <= n
  | _ => True
  end.

(** A round that goes on leaves fewer than [n] typed lines. *)
Definition consumes_a_line (n : nat) (r : round_result) : Prop :=
  match r with
  | Continue _ _ _ typed' _ => List.length typed' < n
  | End _ => True
  end.

(** A round that goes on keeps the binding among [playlists], and it has
    read playlists of [playlists] only. *)
Definition round_listed (playlists : list playlist) (r : round_result) : Prop :=
  Forall (reads_listed playlists) (round_trace r)
  /\ match r with
     | Continue bound _ _ _ _ => bound_listed playlists bound
     | End _ => True
     end.

(** A round never ends the session with a status other than 0, and it
    does not run out of rounds. *)
Definition round_exits_clean (r : round_result) : Prop :=
  match r with
  | End (Exit status _) => status = 0
  | End (Unfinished _) => False
  | _ => True
  end.

(** *** More on the flows *)

Definition is_sleep (ev : event) : bool :=
  match ev with
  | Sleep _ => true
  | _ => false
  end.

(** The value [unique_by_uri] keeps for a match. *)
Definition year_info_of (m : year_match) : year_info :=
  {| yi_name := ym_name m; yi_artists := ym_artists m;
     yi_release_date := ym_release_date m |}.

(** The groups are keyed by the key of their members. *)
Definition well_keyed (duplicates : dict (list scanned)) : Prop :=
  NoDup (keys duplicates)
  /\ Forall (fun kv => Forall (fun it => group_key it = fst kv) (snd kv)) duplicates.

(** [chosen] holds, group by group, the entry picked in the group or
    nothing. *)
Definition picks_from (duplicates : dict (list scanned)) (chosen : list (option scanned))
    : Prop :=
  Forall2 (fun kv pick => match pick with
                          | Some selected => In selected (snd kv)
                          | None => True
                          end) duplicates chosen.

(** The entries picked, in the order of the groups. *)
Definition picked (chosen : list (option scanned)) : list scanned :=
  flat_map (fun pick => match pick with Some selected => [selected] | None => [] end) chosen.

(** A slot whose track is gone. *)
Definition track_missing (it : item) : bool :=
  match item_track it with
  | None => true
  | Some _ => false
  end.

(** The sizes of the groups, added up. *)
Definition grouped_entries {V} (groups : dict (list V)) : nat :=
  list_sum (map (fun kv => List.length (snd kv)) groups).

(* ================================================================= *)
(** ** Properties of the scans *)

Lemma scan_concat {St} (body : St -> item -> St) (pages : source) (init : St) :
  scan body pages init = fold_left body (List.concat pages) init.
Proof.
  unfold scan. revert init.
  induction pages as [|pg pages IH]; intros init; simpl.
  - reflexivity.
  - rewrite fold_left_app. apply IH.
Qed.

Lemma number_from_app p xs ys :
  number_from p (xs ++ ys) = number_from p xs ++ number_from (p + List.length xs) ys.
Proof.
  revert p. induction xs as [|[it t] xs IH]; intros p; simpl.
  - now rewrite Nat.add_0_r.
  - rewrite IH. do 3 f_equal. lia.
Qed.

Lemma number_from_length p xs : List.length (number_from p xs) = List.length xs.
Proof.
  revert p. induction xs as [|[it t] xs IH]; intros p; simpl; [reflexivity|].
  now rewrite IH.
Qed.

Lemma number_from_positions p xs :
  map position (number_from p xs) = seq p (List.length xs).
Proof.
  revert p. induction xs as [|[it t] xs IH]; intros p; simpl; [reflexivity|].
  now rewrite IH.
Qed.

Lemma scan_duplicates_fold (items : list item) (acc : list scanned) (p : nat) :
  fold_left scan_duplicates_item items (acc, p)
  = (acc ++ number_from p (present_tracks items),
     p + List.length (present_tracks items)).
Proof.
  revert acc p. induction items as [|it items IH]; intros acc p; simpl.
  - rewrite app_nil_r. f_equal. lia.
  - unfold scan_duplicates_item at 2. destruct (item_track it) as [t|]; simpl.
    + rewrite IH. rewrite <- app_assoc. simpl. f_equal; [|lia].
      do 3 f_equal. lia.
    + apply IH.
Qed.

Lemma seq_nth_error_value (n i v : nat) : nth_error (seq 0 n) i = Some v -> v = i.
Proof.
  intros H.
  assert (L : i < n).
  { rewrite <- (length_seq n 0). apply nth_error_Some. congruence. }
  rewrite (nth_error_nth' _ 0) in H by (rewrite length_seq; exact L).
  rewrite seq_nth in H by exact L. simpl in H. congruence.
Qed.

(** C5. Whatever the paging, the scan of the duplicate flow yields exactly
    the slots whose track is not null, in source order; the i-th entry
    yielded has position i, so positions start at 0 and grow by one per
    entry, and a null slot neither yields an entry nor uses a position. *)
Theorem scan_duplicates_yields_present_tracks (pages : source) :
  scan_duplicates pages = number_from 0 (present_tracks (List.concat pages))
  /\ map position (scan_duplicates pages)
     = seq 0 (List.length (present_tracks (List.concat pages)))
  /\ (forall i a, nth_error (scan_duplicates pages) i = Some a -> position a = i)
  /\ (forall i j a b,
        nth_error (scan_duplicates pages) i = Some a ->
        nth_error (scan_duplicates pages) j = Some b ->
        i < j -> position a < position b).
Proof.
  assert (E : scan_duplicates pages = number_from 0 (present_tracks (List.concat pages))).
  { unfold scan_duplicates. rewrite scan_concat, scan_duplicates_fold. reflexivity. }
  assert (P : map position (scan_duplicates pages)
              = seq 0 (List.length (present_tracks (List.concat pages)))).
  { rewrite E. apply number_from_positions. }
  assert (N : forall i a, nth_error (scan_duplicates pages) i = Some a -> position a = i).
  { intros i a H. apply (map_nth_error position) in H. rewrite P in H.
    now apply seq_nth_error_value in H. }
  repeat split; try assumption.
  intros i j a b Ha Hb Hij. apply N in Ha, Hb. lia.
Qed.

(** A playlist read in three pages, with slots whose track is gone. *)
Lemma scan_duplicates_yields_present_tracks_witness :
  position
    (scan_entry 1 (mkItem (Some "2024-05-01") (Some (mkTrack "Two" ["B"] "u2" None)))
       (mkTrack "Two" ["B"] "u2" None))
  = 1.
Proof.
  apply (proj1 (proj2 (proj2
           (scan_duplicates_yields_present_tracks
              [[mkItem None (Some (mkTrack "One" ["A"] "u1" None)); mkItem None None];
               [];
               [mkItem None None;
                mkItem (Some "2024-05-01") (Some (mkTrack "Two" ["B"] "u2" None))]])))
           1).
  reflexivity.
Defined.

(* ================================================================= *)
(** ** Properties of the ordered dictionaries *)

Lemma dict_mem_In {V} (k : string) (d : dict V) : dict_mem k d = true <-> In k (keys d).
Proof.
  unfold dict_mem, keys. rewrite existsb_exists, in_map_iff. split.
  - intros [kv [Hin Heq]]. apply String.eqb_eq in Heq. exists kv. now split.
  - intros [kv [Heq Hin]]. exists kv. split; [assumption|]. now apply String.eqb_eq.
Qed.

Lemma dict_get_None {V} (k : string) (d : dict V) : dict_get k d = None <-> ~ In k (keys d).
Proof.
  induction d as [|[k' v] d IH]; simpl.
  - tauto.
  - destruct (String.eqb_spec k k') as [->|N].
    + split; [discriminate|]. intros H. exfalso. apply H. now left.
    + rewrite IH. split; intros H; [intros [E|I]; [congruence|tauto] | tauto].
Qed.

Lemma dict_get_In {V} (k : string) (v : V) (d : dict V) :
  NoDup (keys d) -> (In (k, v) d <-> dict_get k d = Some v).
Proof.
  induction d as [|[k' v'] d IH]; simpl; intros ND.
  - split; [tauto | discriminate].
  - inversion ND as [|? ? Hnotin ND']; subst.
    destruct (String.eqb_spec k k') as [->|N].
    + split.
      * intros [E|I]; [congruence|]. exfalso. apply Hnotin.
        unfold keys. apply in_map_iff. now exists (k', v).
      * intros E. left. congruence.
    + rewrite <- (IH ND'). split; [intros [E|I]; [congruence|assumption] | tauto].
Qed.

Lemma keys_setdefault_append {V} (k : string) (x : V) (d : dict (list V)) :
  keys (setdefault_append k x d) = if dict_mem k d then keys d else keys d ++ [k].
Proof.
  induction d as [|[k' xs] d IH]; simpl.
  - reflexivity.
  - unfold dict_mem in *. simpl. destruct (String.eqb_spec k k') as [->|N]; simpl.
    + reflexivity.
    + rewrite IH. now destruct (existsb _ d).
Qed.

Lemma NoDup_snoc {A} (l : list A) (x : A) : NoDup l -> ~ In x l -> NoDup (l ++ [x]).
Proof.
  intros ND NI. apply NoDup_app; [assumption | repeat constructor; intros [] | ].
  intros a Ha [<-|[]]. contradiction.
Qed.

Lemma setdefault_append_NoDup {V} (k : string) (x : V) (d : dict (list V)) :
  NoDup (keys d) -> NoDup (keys (setdefault_append k x d)).
Proof.
  intros ND. rewrite keys_setdefault_append.
  destruct (dict_mem k d) eqn:M; [assumption|].
  apply NoDup_snoc; [assumption|]. rewrite <- dict_mem_In. congruence.
Qed.

Lemma dict_get_setdefault_append {V} (k k' : string) (x : V) (d : dict (list V)) :
  dict_get k (setdefault_append k' x d)
  = if String.eqb k k'
    then Some (match dict_get k d with Some xs => xs ++ [x] | None => [x] end)
    else dict_get k d.
Proof.
  induction d as [|[k0 xs] d IH]; simpl.
  - now destruct (String.eqb k k').
  - destruct (String.eqb_spec k' k0) as [->|N]; simpl.
    + destruct (String.eqb_spec k k0) as [->|N']; reflexivity.
    + destruct (String.eqb_spec k k0) as [->|N'].
      * destruct (String.eqb_spec k0 k') as [E|_]; [congruence|reflexivity].
      * apply IH.
Qed.

Section Grouping.

Context {V : Type}.
Variable key_of : V -> string.

Lemma group_by_NoDup (items : list V) (groups : dict (list V)) :
  NoDup (keys groups) -> NoDup (keys (group_by key_of items groups)).
Proof.
  unfold group_by. revert groups.
  induction items as [|it items IH]; intros groups ND; simpl; [assumption|].
  apply IH. now apply setdefault_append_NoDup.
Qed.

Lemma group_by_get (items : list V) (groups : dict (list V)) (k : string) :
  dict_get k (group_by key_of items groups)
  = match dict_get k groups, sharing key_of k items with
    | None, [] => None
    | None, l => Some l
    | Some xs, l => Some (xs ++ l)
    end.
Proof.
  unfold group_by. revert groups.
  induction items as [|it items IH]; intros groups; simpl.
  - destruct (dict_get k groups); [now rewrite app_nil_r | reflexivity].
  - rewrite IH, dict_get_setdefault_append.
    rewrite (String.eqb_sym (key_of it) k).
    destruct (String.eqb k (key_of it)).
    + destruct (dict_get k groups) as [xs|]; simpl; [now rewrite <- app_assoc | reflexivity].
    + reflexivity.
Qed.

End Grouping.

Lemma group_items_is_group_by (items : list scanned) :
  group_items items = group_by group_key items [].
Proof. reflexivity. Qed.

(* ================================================================= *)
(** ** Properties of the grouping key *)










Lemma group_items_In (items : list scanned) (k : string) (v : list scanned) :
  In (k, v) (group_items items) <-> v <> [] /\ v = sharing group_key k items.
Proof.
  rewrite group_items_is_group_by.
  rewrite dict_get_In by (apply group_by_NoDup; constructor).
  rewrite group_by_get. simpl.
  destruct (sharing group_key k items) as [|x l]; split.
  - discriminate.
  - intros [N E]. congruence.
  - intros E. injection E as <-. split; [discriminate | reflexivity].
  - intros [_ ->]. reflexivity.
Qed.






(* ================================================================= *)
(** ** Properties of the chunking *)

Lemma range_from_chunks {A} (lst : list A) (n fuel i : nat) :
  0 < n -> List.length lst <= i + fuel ->
  List.concat (map (fun i => slice lst i (i + n)) (range_from fuel i (List.length lst) n))
  = skipn i lst.
Proof.
  intros Hn. revert i. induction fuel as [|fuel IH]; intros i Hf; simpl.
  - symmetry. apply skipn_all2. lia.
  - destruct (Nat.ltb_spec i (List.length lst)) as [Hi|Hi]; simpl.
    + rewrite IH by lia. unfold slice.
      replace (i + n - i) with n by lia.
      rewrite <- (firstn_skipn n (skipn i lst)) at 2.
      f_equal. rewrite skipn_skipn. f_equal. lia.
    + symmetry. apply skipn_all2. lia.
Qed.

Lemma range_from_bounds (fuel i stop n k : nat) :
  In k (range_from fuel i stop n) -> k < stop.
Proof.
  revert i. induction fuel as [|fuel IH]; intros i; simpl; [tauto|].
  destruct (Nat.ltb_spec i stop) as [Hi|Hi]; simpl; [|tauto].
  intros [<-|H]; [assumption | eauto].
Qed.

Lemma chunked_list_concat {A} (lst : list A) (n : nat) :
  0 < n -> List.concat (_chunked_list lst n) = lst.
Proof.
  intros Hn. unfold _chunked_list, range.
  rewrite range_from_chunks by lia. reflexivity.
Qed.

Lemma slice_incl {A} (lst : list A) (i j : nat) : incl (slice lst i j) lst.
Proof.
  intros x Hx. unfold slice in Hx.
  rewrite <- (firstn_skipn i lst). apply in_or_app. right.
  rewrite <- (firstn_skipn (j - i) (skipn i lst)). apply in_or_app. now left.
Qed.

Lemma chunked_list_sizes {A} (lst : list A) (n : nat) :
  0 < n ->
  Forall (fun chunk => 0 < List.length chunk <= n /\ incl chunk lst) (_chunked_list lst n).
Proof.
  intros Hn. apply Forall_forall. intros chunk Hc.
  unfold _chunked_list, range in Hc. apply in_map_iff in Hc as [i [<- Hi]].
  apply range_from_bounds in Hi. split.
  - unfold slice. replace (i + n - i) with n by lia.
    rewrite length_firstn, length_skipn. lia.
  - apply slice_incl.
Qed.

(* ================================================================= *)
(** ** Properties of the removal loop *)

Section BatchFacts.

Context {T : Type}.
Variable api_call : list T -> event.
Variable msg_batch_error : exn -> message.
Variable msg_batch_unexpected : exn -> message.
Variable msg_item_failed : T -> exn -> message.

Local Abbreviation fallback' := (fallback api_call msg_item_failed).
Local Abbreviation try_chunk' :=
  (try_chunk api_call msg_batch_error msg_batch_unexpected msg_item_failed).
Local Abbreviation remove_chunks' :=
  (remove_chunks api_call msg_batch_error msg_batch_unexpected msg_item_failed).
Local Abbreviation batch_message' := (batch_message msg_batch_error msg_batch_unexpected).
Local Abbreviation fallback_events' := (fallback_events api_call msg_item_failed).
Local Abbreviation backoff_events' := (backoff_events api_call).

Lemma fallback_run (chunk : list T) (item_answers rest : list api_result)
    (typed : list string) (n : nat) (tr : trace) :
  List.length item_answers = List.length chunk ->
  fallback' chunk (item_answers ++ rest) typed n tr
  = Done (n + count_ok item_answers) rest typed (tr ++ fallback_events' chunk item_answers).
Proof.
  revert item_answers n tr.
  induction chunk as [|item chunk IH]; intros [|a item_answers] n tr L;
    try discriminate L; simpl.
  - unfold count_ok; simpl. now rewrite Nat.add_0_r, app_nil_r.
  - injection L as L. destruct a as [|e2].
    + rewrite IH by assumption. unfold count_ok; simpl.
      rewrite <- app_assoc. simpl. f_equal. lia.
    + rewrite IH by assumption. unfold count_ok; simpl.
      rewrite <- !app_assoc. reflexivity.
Qed.

Lemma try_chunk_fallback (chunk : list T) (e : exn) (answers : list api_result)
    (typed : list string) (n : nat) (tr : trace) :
  is_rate_limit e = false ->
  try_chunk' chunk (RRaise e :: answers) typed n tr
  = fallback' chunk answers typed n (tr ++ [api_call chunk; Print (batch_message' e)]).
Proof.
  intros NR. simpl.
  destruct e as [http_status headers| | |]; simpl in *;
    try (rewrite <- app_assoc; reflexivity).
  rewrite NR. rewrite <- app_assoc. reflexivity.
Qed.

Lemma try_chunk_ok (chunk : list T) (answers : list api_result)
    (typed : list string) (n : nat) (tr : trace) :
  try_chunk' chunk (ROk :: answers) typed n tr
  = Done (n + List.length chunk) answers typed (tr ++ [api_call chunk]).
Proof. reflexivity. Qed.

Lemma try_chunk_rate_limited (chunk : list T)
    (hs : list (option (list (string * string)))) (waits : list Z) :
  Forall2 (fun h d => Py.int (retry_after_text h) = Some d /\ time_sleep d = None) hs waits ->
  forall answers typed n tr,
    try_chunk' chunk (map rate_limited hs ++ answers) typed n tr
    = try_chunk' chunk answers typed n (tr ++ backoff_events' chunk waits).
Proof.
  induction 1 as [|h d hs waits [Hint Hpos] _ IH]; intros answers typed n tr.
  - simpl. now rewrite app_nil_r.
  - cbn [map app]. cbn [try_chunk]. unfold rate_limited at 1.
    change (429 =? 429)%Z with true. cbv iota.
    rewrite Hint, Hpos.
    rewrite IH. f_equal. unfold backoff_events. simpl.
    rewrite <- !app_assoc. reflexivity.
Qed.

Lemma remove_chunks_all_ok (chunks : list (list T)) (rest : list api_result)
    (typed : list string) (n : nat) (tr : trace) :
  remove_chunks' chunks (repeat ROk (List.length chunks) ++ rest) typed n tr
  = Done (n + List.length (List.concat chunks)) rest typed (tr ++ map api_call chunks).
Proof.
  revert n tr. induction chunks as [|chunk chunks IH]; intros n tr.
  - simpl. now rewrite Nat.add_0_r, app_nil_r.
  - cbn [List.length repeat app remove_chunks]. rewrite try_chunk_ok, IH.
    simpl. rewrite length_app, <- app_assoc. simpl. f_equal. lia.
Qed.

(** *** The count never overtakes the candidates *)

Lemma fallback_count (chunk : list T) answers typed n tr n' answers' typed' tr' :
  fallback' chunk answers typed n tr = Done n' answers' typed' tr' ->
  n <= n' <= n + List.length chunk.
Proof.
  revert answers n tr.
  induction chunk as [|item chunk IH]; intros answers n tr H; simpl in H.
  - injection H as <- _ _ _. simpl. lia.
  - destruct answers as [|[|e2] answers]; [discriminate| |];
      apply IH in H; simpl; lia.
Qed.

Lemma try_chunk_count (chunk : list T) answers typed n tr n' answers' typed' tr' :
  try_chunk' chunk answers typed n tr = Done n' answers' typed' tr' ->
  n <= n' <= n + List.length chunk.
Proof.
  revert tr.
  induction answers as [|a answers IH]; intros tr H; simpl in H; [discriminate|].
  destruct a as [|[http_status headers| | |]].
  - injection H as <- _ _ _. lia.
  - destruct (http_status =? 429)%Z.
    + destruct (Py.int (retry_after_text headers)) as [d|]; [|discriminate].
      destruct (time_sleep d); [discriminate|]. now apply IH in H.
    + now apply fallback_count in H.
  - now apply fallback_count in H.
  - now apply fallback_count in H.
  - now apply fallback_count in H.
Qed.

Lemma remove_chunks_count (chunks : list (list T)) answers typed n tr n' answers' typed' tr' :
  remove_chunks' chunks answers typed n tr = Done n' answers' typed' tr' ->
  n <= n' <= n + List.length (List.concat chunks).
Proof.
  revert answers typed n tr.
  induction chunks as [|chunk chunks IH]; intros answers typed n tr H; simpl in H.
  - injection H as <- _ _ _. simpl. lia.
  - destruct (try_chunk' chunk answers typed n tr) as [n1 a1 t1 tr1| |] eqn:E;
      try discriminate.
    apply try_chunk_count in E. apply IH in H. simpl. rewrite length_app. lia.
Qed.

(** *** The events a removal loop adds to the trace *)

Variable allowed : list T -> Prop.

Local Abbreviation batch_event' :=
  (batch_event api_call msg_batch_error msg_batch_unexpected msg_item_failed allowed).
Local Abbreviation grows' :=
  (grows api_call msg_batch_error msg_batch_unexpected msg_item_failed allowed).

Lemma grows_after (tr evs : trace) (o : outcome nat) :
  Forall batch_event' evs -> grows' (tr ++ evs) o -> grows' tr o.
Proof.
  intros F [added [E Fa]]. exists (evs ++ added). split.
  - now rewrite E, app_assoc.
  - now apply Forall_app.
Qed.

Lemma grows_here (tr evs : trace) (o : outcome nat) :
  trace_of o = tr ++ evs -> Forall batch_event' evs -> grows' tr o.
Proof. intros E F. now exists evs. Qed.

Lemma fallback_grows (chunk : list T) answers typed n tr :
  (forall x, In x chunk -> allowed [x]) ->
  grows' tr (fallback' chunk answers typed n tr).
Proof.
  revert answers n tr.
  induction chunk as [|item chunk IH]; intros answers n tr A; simpl.
  - apply (grows_here tr []); [simpl; now rewrite app_nil_r | constructor].
  - assert (C : batch_event' (api_call [item])) by (constructor; apply A; now left).
    assert (A' : forall x, In x chunk -> allowed [x]) by (intros x Hx; apply A; now right).
    destruct answers as [|[|e2] answers].
    + apply (grows_here tr [api_call [item]]); [reflexivity | now constructor].
    + apply (grows_after tr [api_call [item]]); [now constructor | now apply IH].
    + apply (grows_after tr [api_call [item]]); [now constructor|].
      apply (grows_after _ [Print (msg_item_failed item e2)]);
        [repeat constructor | now apply IH].
Qed.

Lemma try_chunk_grows (chunk : list T) answers typed n tr :
  allowed chunk -> (forall x, In x chunk -> allowed [x]) ->
  grows' tr (try_chunk' chunk answers typed n tr).
Proof.
  intros A A1. revert tr.
  assert (C : batch_event' (api_call chunk)) by now constructor.
  induction answers as [|a answers IH]; intros tr; simpl.
  - apply (grows_here tr [api_call chunk]); [reflexivity | now constructor].
  - destruct a as [|[http_status headers| | |]].
    + apply (grows_here tr [api_call chunk]); [reflexivity | now constructor].
    + apply (grows_after tr [api_call chunk]); [now constructor|].
      destruct (http_status =? 429)%Z.
      * destruct (Py.int (retry_after_text headers)) as [d|].
        -- destruct (time_sleep d).
           ++ apply (grows_here _ [Print (MsgRateLimit d)]); [reflexivity | repeat constructor].
           ++ apply (grows_after _ [Print (MsgRateLimit d)]); [repeat constructor|].
              apply (grows_after _ [Sleep d]); [repeat constructor | apply IH].
        -- apply (grows_here _ []); [simpl; now rewrite app_nil_r | constructor].
      * apply (grows_after _ [Print (msg_batch_error (SpotifyException http_status headers))]);
          [repeat constructor | now apply fallback_grows].
    + apply (grows_after tr [api_call chunk]); [now constructor|].
      apply (grows_after _ [Print (msg_batch_unexpected (OtherException what))]);
        [repeat constructor | now apply fallback_grows].
    + apply (grows_after tr [api_call chunk]); [now constructor|].
      apply (grows_after _ [Print (msg_batch_unexpected ValueError)]);
        [repeat constructor | now apply fallback_grows].
    + apply (grows_after tr [api_call chunk]); [now constructor|].
      apply (grows_after _ [Print (msg_batch_unexpected EOFError)]);
        [repeat constructor | now apply fallback_grows].
Qed.

Lemma remove_chunks_grows (chunks : list (list T)) answers typed n tr :
  (forall chunk, In chunk chunks -> allowed chunk /\ forall x, In x chunk -> allowed [x]) ->
  grows' tr (remove_chunks' chunks answers typed n tr).
Proof.
  revert answers typed n tr.
  induction chunks as [|chunk chunks IH]; intros answers typed n tr A; simpl.
  - apply (grows_here tr []); [simpl; now rewrite app_nil_r | constructor].
  - destruct (A chunk (or_introl eq_refl)) as [Ac A1].
    pose proof (try_chunk_grows chunk answers typed n tr Ac A1) as G.
    destruct (try_chunk' chunk answers typed n tr) as [n1 a1 t1 tr1| |]; try exact G.
    destruct G as [added [E F]]. simpl in E. subst tr1.
    apply (grows_after tr added); [assumption|].
    apply IH. intros c Hc. apply A. now right.
Qed.

End BatchFacts.

(* ================================================================= *)
(** ** The traces of the flows *)

Lemma extends_here {A} (P : event -> Prop) (tr evs : trace) (o : outcome A) :
  trace_of o = tr ++ evs -> Forall P evs -> extends P tr o.
Proof. intros E F. now exists evs. Qed.

Lemma extends_after {A} (P : event -> Prop) (tr evs : trace) (o : outcome A) :
  Forall P evs -> extends P (tr ++ evs) o -> extends P tr o.
Proof.
  intros F [added [E Fa]]. exists (evs ++ added). split.
  - now rewrite E, app_assoc.
  - now apply Forall_app.
Qed.

Lemma show_occurrences_quiet (i : nat) (occurrences : list scanned) :
  Forall quiet (show_occurrences i occurrences).
Proof.
  revert i. induction occurrences as [|occ rest IH]; intros i; simpl; constructor.
  - now split.
  - apply IH.
Qed.

Lemma show_year_tracks_quiet (idx : nat) (d : dict year_info) :
  Forall quiet (show_year_tracks idx d).
Proof.
  revert idx. induction d as [|[k info] rest IH]; intros idx; simpl; constructor.
  - now split.
  - apply IH.
Qed.

Ltac quiet_events := repeat constructor.

Lemma ask_occurrence_quiet (occurrences : list scanned) answers typed tr :
  extends quiet tr (ask_occurrence occurrences answers typed tr).
Proof.
  revert tr. induction typed as [|line typed IH]; intros tr; simpl.
  - eapply extends_here; [reflexivity | quiet_events].
  - apply (extends_after quiet tr
             [Input (AskOccurrence (first_name occurrences) (List.length occurrences))]);
      [quiet_events|].
    destruct (Py.isdigit (Py.strip line)); simpl.
    + destruct (Py.int (Py.strip line)) as [escolha_int|].
      * destruct (escolha_int =? 0)%Z.
        -- eapply extends_here; [reflexivity | quiet_events].
        -- destruct ((1 <=? escolha_int) && (escolha_int <=? Z.of_nat (List.length occurrences)))%Z.
           ++ destruct (nth_error occurrences (Z.to_nat (escolha_int - 1))) as [selected|].
              ** eapply extends_here; [reflexivity | quiet_events].
              ** eapply (extends_here _ _ []); [simpl; now rewrite app_nil_r | constructor].
           ++ eapply extends_after; [|apply IH]. quiet_events.
      * eapply (extends_here _ _ []); [simpl; now rewrite app_nil_r | constructor].
    + eapply extends_after; [|apply IH]. quiet_events.
Qed.

Lemma select_occurrences_quiet (idx : nat) (duplicates : dict (list scanned))
    to_remove_items answers typed tr :
  extends quiet tr (select_occurrences idx duplicates to_remove_items answers typed tr).
Proof.
  revert idx to_remove_items answers typed tr.
  induction duplicates as [|[k occurrences] rest IH];
    intros idx to_remove_items answers typed tr; simpl.
  - eapply (extends_here _ _ []); [simpl; now rewrite app_nil_r | constructor].
  - apply (extends_after quiet tr
             (Print (MsgDupGroup idx (first_name occurrences) (List.length occurrences))
              :: show_occurrences 1 occurrences)).
    2:{ pose proof (ask_occurrence_quiet occurrences answers typed
          (tr ++ Print (MsgDupGroup idx (first_name occurrences) (List.length occurrences))
                 :: show_occurrences 1 occurrences)) as G.
        destruct (ask_occurrence occurrences answers typed _) as [choice a1 t1 tr1| |];
          try exact G.
        destruct G as [added [E F]]. simpl in E. subst tr1.
        eapply extends_after; [exact F | apply IH]. }
    constructor; [now split | apply show_occurrences_quiet].
Qed.

(** *** The year flow *)

Lemma quiet_year_event_ok (uris : list string) (ev : event) :
  quiet ev -> year_event_ok uris ev.
Proof.
  intros [R P]. destruct ev as [m| | | |]; try discriminate R; try exact I.
  destruct m; try discriminate P; exact I.
Qed.

Lemma batch_year_event_ok (uris : list string) (ev : event) :
  batch_event RemoveAll MsgBatchError MsgBatchUnexpected MsgUriFailed
    (fun payload => List.length payload <= 100 /\ incl payload uris) ev ->
  year_event_ok uris ev.
Proof. intros B. destruct B; simpl; auto. Qed.

Lemma chunks_allowed {A} (lst : list A) (n : nat) :
  0 < n ->
  forall chunk, In chunk (_chunked_list lst n) ->
    (List.length chunk <= n /\ incl chunk lst)
    /\ forall x, In x chunk -> List.length [x] <= n /\ incl [x] lst.
Proof.
  intros Hn chunk Hc.
  pose proof (chunked_list_sizes lst n Hn) as F. rewrite Forall_forall in F.
  destruct (F chunk Hc) as [[_ L] I]. split; [now split|].
  intros x Hx. split; [simpl; lia|]. intros y [<-|[]]. now apply I.
Qed.

Lemma year_flow_cases (pages : source) (year_cutoff : Z) answers typed :
  remove_tracks_before_year_from_playlist pages year_cutoff answers typed
  = match scan (scan_year_item year_cutoff) pages [] with
    | [] => Done tt answers typed
              [Print (MsgYearSearching year_cutoff); Print (MsgYearNone year_cutoff)]
    | _ =>
        match typed with
        | [] => Raised EOFError (year_prompt pages year_cutoff)
        | line :: typed' =>
            if year_confirmed line then
              match year_candidates pages year_cutoff with
              | [] => Done tt answers typed'
                        (year_prompt pages year_cutoff ++ [Print MsgNothingToRemove])
              | _ =>
                  match remove_uris_in_chunks (year_candidates pages year_cutoff)
                          answers typed' 0 (year_prompt pages year_cutoff) with
                  | Done removed_total answers' typed'' tr' =>
                      Done tt answers' typed'' (tr' ++ [Print (MsgYearRemoved removed_total)])
                  | Raised e tr' => Raised e tr'
                  | Starved tr' => Starved tr'
                  end
              end
            else Done tt answers typed' (year_prompt pages year_cutoff ++ [Print MsgCancelled])
        end
    end.
Proof.
  unfold remove_tracks_before_year_from_playlist, year_candidates, year_prompt,
    year_confirmed.
  destruct (scan (scan_year_item year_cutoff) pages []) as [|m0 ms]; [reflexivity|].
  destruct typed as [|line typed]; [reflexivity|].
  destruct (String.eqb (Py.lower (Py.strip line)) "s"); reflexivity.
Qed.

Lemma year_prompt_quiet (pages : source) (year_cutoff : Z) :
  Forall quiet (year_prompt pages year_cutoff).
Proof.
  unfold year_prompt. apply Forall_app; split; [repeat constructor|].
  apply Forall_app; split; [apply show_year_tracks_quiet | repeat constructor].
Qed.

Lemma year_loop_events (uris : list string) answers typed (pre : trace) :
  Forall (year_event_ok uris) pre ->
  Forall (year_event_ok uris)
    (trace_of
       match remove_uris_in_chunks uris answers typed 0 pre with
       | Done removed_total answers' typed' tr' =>
           Done tt answers' typed' (tr' ++ [Print (MsgYearRemoved removed_total)])
       | Raised e tr' => Raised e tr'
       | Starved tr' => Starved tr'
       end).
Proof.
  intros Q. unfold remove_uris_in_chunks.
  pose proof (remove_chunks_grows RemoveAll MsgBatchError MsgBatchUnexpected MsgUriFailed
                (fun payload => List.length payload <= 100 /\ incl payload uris)
                (_chunked_list uris 100) answers typed 0 pre
                (chunks_allowed uris 100 ltac:(lia))) as [added [E F]].
  assert (Fa : Forall (year_event_ok uris) added).
  { eapply Forall_impl; [apply batch_year_event_ok | exact F]. }
  destruct (remove_chunks RemoveAll MsgBatchError MsgBatchUnexpected MsgUriFailed
              (_chunked_list uris 100) answers typed 0 pre)
    as [n1 a1 t1 tr1| e tr1 | tr1] eqn:ER; cbn [trace_of] in E |- *; subst tr1.
  - apply remove_chunks_count in ER. rewrite chunked_list_concat in ER by lia.
    apply Forall_app; split; [apply Forall_app; now split|].
    repeat constructor. simpl. lia.
  - apply Forall_app; now split.
  - apply Forall_app; now split.
Qed.

Lemma year_flow_events (pages : source) (year_cutoff : Z) answers typed :
  Forall (year_event_ok (year_candidates pages year_cutoff))
    (trace_of (remove_tracks_before_year_from_playlist pages year_cutoff answers typed)).
Proof.
  rewrite year_flow_cases.
  assert (Q : Forall (year_event_ok (year_candidates pages year_cutoff))
                (year_prompt pages year_cutoff)).
  { eapply Forall_impl; [apply quiet_year_event_ok | apply year_prompt_quiet]. }
  destruct (scan (scan_year_item year_cutoff) pages []) as [|m0 ms].
  { cbn [trace_of]. repeat constructor. }
  destruct typed as [|line typed]; [exact Q|].
  destruct (year_confirmed line).
  2:{ cbn [trace_of]. apply Forall_app; split; [exact Q | repeat constructor]. }
  pose proof (year_loop_events (year_candidates pages year_cutoff) answers typed
                (year_prompt pages year_cutoff) Q) as HB.
  destruct (year_candidates pages year_cutoff) as [|u0 us].
  - cbn [trace_of]. apply Forall_app; split; [exact Q | repeat constructor].
  - exact HB.
Qed.

(** *** The duplicate flow *)

Lemma dup_flow_cases (pages : source) answers typed :
  remove_duplicates_from_playlist pages answers typed
  = match duplicates_of (group_items (scan_duplicates pages)) with
    | [] => Done tt answers typed [Print MsgDupScanning; Print MsgDupNone]
    | _ =>
        match selection pages answers typed with
        | Done [] answers' typed' tr' =>
            Done tt answers' typed' (tr' ++ [Print MsgNoSelection])
        | Done to_remove_items answers' typed' tr' =>
            match remove_occurrences_in_chunks to_remove_items answers' typed' 0 tr' with
            | Done removed_count answers'' typed'' tr'' =>
                Done tt answers'' typed'' (tr'' ++ [Print (MsgDupRemoved removed_count)])
            | Raised e tr'' => Raised e tr''
            | Starved tr'' => Starved tr''
            end
        | Raised e tr' => Raised e tr'
        | Starved tr' => Starved tr'
        end
    end.
Proof.
  unfold remove_duplicates_from_playlist, selection, dup_found.
  destruct (duplicates_of (group_items (scan_duplicates pages))); reflexivity.
Qed.

Lemma quiet_dup_event_ok (to_remove_items : list occurrence) (ev : event) :
  quiet ev -> dup_event_ok to_remove_items ev.
Proof.
  intros [R P]. destruct ev as [m| | | |]; try discriminate R; try exact I.
  destruct m; try discriminate P; exact I.
Qed.

Lemma batch_dup_event_ok (to_remove_items : list occurrence) (ev : event) :
  batch_event RemoveSpecific MsgBatchError MsgBatchUnexpected
    (fun it e2 => MsgOccurrenceFailed (occ_positions it) (occ_uri it) e2)
    (fun payload => List.length payload <= 50 /\ incl payload to_remove_items) ev ->
  dup_event_ok to_remove_items ev.
Proof. intros B. destruct B; simpl; auto. Qed.

Lemma dup_loop_events (to_remove_items : list occurrence) answers typed (pre : trace) :
  Forall (dup_event_ok to_remove_items) pre ->
  Forall (dup_event_ok to_remove_items)
    (trace_of
       match remove_occurrences_in_chunks to_remove_items answers typed 0 pre with
       | Done removed_count answers' typed' tr' =>
           Done tt answers' typed' (tr' ++ [Print (MsgDupRemoved removed_count)])
       | Raised e tr' => Raised e tr'
       | Starved tr' => Starved tr'
       end).
Proof.
  intros Q. unfold remove_occurrences_in_chunks.
  pose proof (remove_chunks_grows RemoveSpecific MsgBatchError MsgBatchUnexpected
                (fun it e2 => MsgOccurrenceFailed (occ_positions it) (occ_uri it) e2)
                (fun payload => List.length payload <= 50 /\ incl payload to_remove_items)
                (_chunked_list to_remove_items 50) answers typed 0 pre
                (chunks_allowed to_remove_items 50 ltac:(lia))) as [added [E F]].
  assert (Fa : Forall (dup_event_ok to_remove_items) added).
  { eapply Forall_impl; [apply batch_dup_event_ok | exact F]. }
  destruct (remove_chunks RemoveSpecific MsgBatchError MsgBatchUnexpected _
              (_chunked_list to_remove_items 50) answers typed 0 pre)
    as [n1 a1 t1 tr1| e tr1 | tr1] eqn:ER; cbn [trace_of] in E |- *; subst tr1.
  - apply remove_chunks_count in ER. rewrite chunked_list_concat in ER by lia.
    apply Forall_app; split; [apply Forall_app; now split|].
    repeat constructor. simpl. lia.
  - apply Forall_app; now split.
  - apply Forall_app; now split.
Qed.

Lemma selection_quiet (pages : source) answers typed :
  Forall quiet (trace_of (selection pages answers typed)).
Proof.
  destruct (select_occurrences_quiet 1 (duplicates_of (group_items (scan_duplicates pages)))
              [] answers typed (dup_found pages)) as [added [E F]].
  unfold selection. rewrite E. apply Forall_app; split; [|exact F].
  unfold dup_found. repeat constructor.
Qed.

Lemma dup_flow_events (pages : source) answers typed :
  Forall (dup_event_ok (selected_occurrences pages answers typed))
    (trace_of (remove_duplicates_from_playlist pages answers typed)).
Proof.
  rewrite dup_flow_cases. unfold selected_occurrences.
  destruct (duplicates_of (group_items (scan_duplicates pages))) as [|g gs].
  { cbn [trace_of]. repeat constructor. }
  pose proof (selection_quiet pages answers typed) as Q.
  destruct (selection pages answers typed) as [cands a1 t1 tr1| e tr1 | tr1];
    cbn [trace_of] in Q.
  - assert (Q' : Forall (dup_event_ok cands) tr1).
    { eapply Forall_impl; [apply quiet_dup_event_ok | exact Q]. }
    pose proof (dup_loop_events cands a1 t1 tr1 Q') as HB.
    destruct cands as [|c cs].
    + cbn [trace_of]. apply Forall_app; split; [exact Q' | repeat constructor].
    + exact HB.
  - cbn [trace_of]. eapply Forall_impl; [apply quiet_dup_event_ok | exact Q].
  - cbn [trace_of]. eapply Forall_impl; [apply quiet_dup_event_ok | exact Q].
Qed.

(* ================================================================= *)
(** ** Rate limiting *)




(* ================================================================= *)
(** ** Fallback to single items *)

Lemma fallback_never_raises {T} (api_call : list T -> event) m3 chunk answers typed n tr e tr' :
  fallback api_call m3 chunk answers typed n tr <> Raised e tr'.
Proof.
  revert answers n tr. induction chunk as [|item chunk IH]; intros answers n tr; simpl.
  - discriminate.
  - destruct answers as [|[|e2] answers]; [discriminate | apply IH | apply IH].
Qed.

(** C2 (as amended). In both chunked loops, when the bulk call of a chunk
    fails otherwise than by rate limiting, the loop prints the error and
    submits the items of the chunk one by one: a successful item adds 1 to
    the count, a failing item is printed with its identity (its positions
    and URI in the positional loop) and skipped, the loop goes on with the
    next items and then with the next chunks, and no exception leaves the
    fallback.  The artist and track-name flows make one call and have no
    fallback: any failure of that call is printed and the flow ends
    normally, with nothing removed. *)
Theorem batch_error_falls_back :
  (forall T (api_call : list T -> event) m1 m2 m3 chunk chunks e item_answers rest typed n tr,
     is_rate_limit e = false ->
     List.length item_answers = List.length chunk ->
     remove_chunks api_call m1 m2 m3 (chunk :: chunks)
       (RRaise e :: item_answers ++ rest) typed n tr
     = remove_chunks api_call m1 m2 m3 chunks rest typed (n + count_ok item_answers)
         (tr ++ [api_call chunk; Print (batch_message m1 m2 e)]
             ++ fallback_events api_call m3 chunk item_answers))
  /\ (forall T (api_call : list T -> event) m3 chunk answers typed n tr e tr',
        fallback api_call m3 chunk answers typed n tr <> Raised e tr')
  /\ (forall pages artist_name e answers typed,
        scan (scan_artist_item artist_name) pages [] <> [] ->
        remove_artist_from_playlist pages artist_name (RRaise e :: answers) typed
        = Done tt answers typed
            [RemoveAll (scan (scan_artist_item artist_name) pages []);
             Print (MsgRemoveError e)])
  /\ (forall pages track_name' e answers typed,
        scan (scan_name_item track_name') pages [] <> [] ->
        remove_music_from_playlist pages track_name' (RRaise e :: answers) typed
        = Done tt answers typed
            [RemoveAll (keys (fromkeys (scan (scan_name_item track_name') pages [])));
             Print (MsgRemoveError e)]).
Proof.
  split; [|split; [|split]].
  - intros T api_call m1 m2 m3 chunk chunks e item_answers rest typed n tr NR L.
    cbn [remove_chunks]. rewrite try_chunk_fallback by assumption.
    rewrite fallback_run by assumption. rewrite <- app_assoc. reflexivity.
  - intros. apply fallback_never_raises.
  - intros pages artist_name e answers typed N. unfold remove_artist_from_playlist.
    destruct (scan (scan_artist_item artist_name) pages []); [congruence | reflexivity].
  - intros pages track_name' e answers typed N. unfold remove_music_from_playlist.
    destruct (scan (scan_name_item track_name') pages []); [congruence | reflexivity].
Qed.

(** The specification's fallback example: three items, the bulk call is
    rejected, the second item fails on its own. *)
Lemma batch_error_falls_back_witness :
  remove_chunks RemoveAll MsgBatchError MsgBatchUnexpected MsgUriFailed
    [["u1"; "u2"; "u3"]; ["u4"]]
    (RRaise (SpotifyException 400 None)
     :: [ROk; RRaise (OtherException "ConnectionError"); ROk] ++ [ROk]) [] 0 []
  = Done 3 [] []
      [RemoveAll ["u1"; "u2"; "u3"];
       Print (MsgBatchError (SpotifyException 400 None));
       RemoveAll ["u1"];
       RemoveAll ["u2"]; Print (MsgUriFailed "u2" (OtherException "ConnectionError"));
       RemoveAll ["u3"];
       RemoveAll ["u4"]].
Proof.
  refine (proj1 batch_error_falls_back string RemoveAll MsgBatchError MsgBatchUnexpected
            MsgUriFailed ["u1"; "u2"; "u3"] [["u4"]] (SpotifyException 400 None)
            [ROk; RRaise (OtherException "ConnectionError"); ROk] [ROk] [] 0 [] _ _);
    reflexivity.
Defined.

(** C2, as worded, fails: in the artist flow a rejected call is printed and
    nothing else happens; no item is submitted on its own, and the answers
    that single submissions would have received stay unused. *)
Lemma artist_flow_no_fallback_counterexample :
  remove_artist_from_playlist
    [[mkItem None (Some (mkTrack "One" ["A"] "u1" None));
      mkItem None (Some (mkTrack "Two" ["a"] "u2" None))]]
    "A" [RRaise (SpotifyException 400 None); ROk; ROk] []
  = Done tt [ROk; ROk] []
      [RemoveAll ["u1"; "u2"]; Print (MsgRemoveError (SpotifyException 400 None))].
Proof. reflexivity. Qed.

(* ================================================================= *)
(** ** Chunk sizes *)

Lemma dup_event_payload (to_remove_items : list occurrence) (ev : event) :
  dup_event_ok to_remove_items ev -> payload_size ev <= 50.
Proof. destruct ev; simpl; intros H; lia. Qed.

Lemma year_event_payload (uris : list string) (ev : event) :
  year_event_ok uris ev -> payload_size ev <= 100.
Proof. destruct ev; simpl; intros H; lia. Qed.

(** C4 (as amended). The duplicate flow and the year flow cut their
    candidate list into consecutive chunks, of at most 50 candidates for
    the removal by position and at most 100 for the removal by identity;
    the chunks put end to end are the candidate list, so each candidate
    is in exactly one chunk, and no chunk is empty.  Whatever the remote
    answers, no call of these flows carries more than 50, respectively 100,
    candidates, and when every bulk call succeeds the calls are the chunks,
    in order.  The artist and track-name flows do not cut: their single
    call carries the whole candidate list. *)
Theorem removal_calls_are_chunked :
  (forall A (lst : list A) n,
     0 < n ->
     List.concat (_chunked_list lst n) = lst
     /\ Forall (fun chunk => 0 < List.length chunk <= n) (_chunked_list lst n))
  /\ (forall pages answers typed,
        Forall (fun ev => payload_size ev <= 50)
          (trace_of (remove_duplicates_from_playlist pages answers typed)))
  /\ (forall pages year_cutoff answers typed,
        Forall (fun ev => payload_size ev <= 100)
          (trace_of (remove_tracks_before_year_from_playlist pages year_cutoff answers typed)))
  /\ (forall to_remove_items rest typed tr,
        remove_occurrences_in_chunks to_remove_items
          (repeat ROk (List.length (_chunked_list to_remove_items 50)) ++ rest) typed 0 tr
        = Done (List.length to_remove_items) rest typed
            (tr ++ map RemoveSpecific (_chunked_list to_remove_items 50)))
  /\ (forall uris_to_remove rest typed tr,
        remove_uris_in_chunks uris_to_remove
          (repeat ROk (List.length (_chunked_list uris_to_remove 100)) ++ rest) typed 0 tr
        = Done (List.length uris_to_remove) rest typed
            (tr ++ map RemoveAll (_chunked_list uris_to_remove 100)))
  /\ (forall pages artist_name answers typed,
        scan (scan_artist_item artist_name) pages [] <> [] ->
        exists rest,
          trace_of (remove_artist_from_playlist pages artist_name answers typed)
          = RemoveAll (scan (scan_artist_item artist_name) pages []) :: rest
          /\ Forall (fun ev => is_removal_call ev = false) rest)
  /\ (forall pages track_name' answers typed,
        scan (scan_name_item track_name') pages [] <> [] ->
        exists rest,
          trace_of (remove_music_from_playlist pages track_name' answers typed)
          = RemoveAll (keys (fromkeys (scan (scan_name_item track_name') pages []))) :: rest
          /\ Forall (fun ev => is_removal_call ev = false) rest).
Proof.
  repeat apply conj.
  - intros A lst n Hn. split; [now apply chunked_list_concat|].
    eapply Forall_impl; [|apply (chunked_list_sizes lst n Hn)]. intros chunk [H _]. exact H.
  - intros. eapply Forall_impl; [apply dup_event_payload | apply dup_flow_events].
  - intros. eapply Forall_impl; [apply year_event_payload | apply year_flow_events].
  - intros. unfold remove_occurrences_in_chunks. rewrite remove_chunks_all_ok.
    now rewrite chunked_list_concat by lia.
  - intros. unfold remove_uris_in_chunks. rewrite remove_chunks_all_ok.
    now rewrite chunked_list_concat by lia.
  - intros pages artist_name answers typed N. unfold remove_artist_from_playlist.
    destruct (scan (scan_artist_item artist_name) pages []) as [|u us]; [congruence|].
    destruct answers as [|[|e] answers]; eexists; (split; [reflexivity | repeat constructor]).
  - intros pages track_name' answers typed N. unfold remove_music_from_playlist.
    destruct (scan (scan_name_item track_name') pages []) as [|u us]; [congruence|].
    destruct answers as [|[|e] answers]; eexists; (split; [reflexivity | repeat constructor]).
Qed.

Lemma removal_calls_are_chunked_witness :
  List.concat (_chunked_list [1; 2; 3; 4; 5; 6; 7] 3) = [1; 2; 3; 4; 5; 6; 7]
  /\ Forall (fun chunk => 0 < List.length chunk <= 3) (_chunked_list [1; 2; 3; 4; 5; 6; 7] 3).
Proof.
  apply (proj1 removal_calls_are_chunked nat [1; 2; 3; 4; 5; 6; 7] 3). lia.
Defined.

(** C4, as worded, fails: the track-name flow submits 101 candidates in one
    call. *)
Lemma name_flow_unchunked_counterexample :
  map payload_size (trace_of (remove_music_from_playlist (long_playlist 101) "intro" [ROk] []))
  = [101; 0].
Proof. vm_compute. reflexivity. Qed.

(* ================================================================= *)
(** ** The reported count *)

(** C9. In the duplicate flow and in the year flow the count reported at
    the end is at most the number of candidates handed to the loop; each
    chunk adds at most its own size to the count, whether through its bulk
    call or through the single calls of its fallback. *)
Theorem reported_count_bounded :
  (forall pages answers typed n,
     In (Print (MsgDupRemoved n))
        (trace_of (remove_duplicates_from_playlist pages answers typed)) ->
     n <= List.length (selected_occurrences pages answers typed))
  /\ (forall pages year_cutoff answers typed n,
        In (Print (MsgYearRemoved n))
           (trace_of (remove_tracks_before_year_from_playlist pages year_cutoff answers typed)) ->
        n <= List.length (year_candidates pages year_cutoff))
  /\ (forall to_remove_items answers typed tr n answers' typed' tr',
        remove_occurrences_in_chunks to_remove_items answers typed 0 tr
        = Done n answers' typed' tr' ->
        n <= List.length to_remove_items)
  /\ (forall uris_to_remove answers typed tr n answers' typed' tr',
        remove_uris_in_chunks uris_to_remove answers typed 0 tr
        = Done n answers' typed' tr' ->
        n <= List.length uris_to_remove)
  /\ (forall T (api_call : list T -> event) m1 m2 m3 chunk answers typed n tr
             n' answers' typed' tr',
        try_chunk api_call m1 m2 m3 chunk answers typed n tr = Done n' answers' typed' tr' ->
        n <= n' <= n + List.length chunk).
Proof.
  repeat apply conj.
  - intros pages answers typed n H.
    pose proof (dup_flow_events pages answers typed) as F.
    rewrite Forall_forall in F. exact (F _ H).
  - intros pages year_cutoff answers typed n H.
    pose proof (year_flow_events pages year_cutoff answers typed) as F.
    rewrite Forall_forall in F. exact (F _ H).
  - intros cands answers typed tr n answers' typed' tr' H.
    apply remove_chunks_count in H. rewrite chunked_list_concat in H by lia. lia.
  - intros cands answers typed tr n answers' typed' tr' H.
    apply remove_chunks_count in H. rewrite chunked_list_concat in H by lia. lia.
  - intros. eapply try_chunk_count; eassumption.
Qed.

(** On the grouping example the user drops the second occurrence; the
    bulk call is rejected and the single call succeeds. *)
Lemma reported_count_bounded_witness :
  1 <= List.length
         (selected_occurrences grouping_example [RRaise (OtherException "Timeout"); ROk] ["2"]).
Proof.
  apply (proj1 reported_count_bounded grouping_example
           [RRaise (OtherException "Timeout"); ROk] ["2"] 1).
  vm_compute. auto 20.
Defined.

(* ================================================================= *)
(** ** Keys in order of first appearance *)

Lemma dict_mem_keys {V} (k : string) (d : dict V) :
  dict_mem k d = existsb (String.eqb k) (keys d).
Proof.
  unfold dict_mem, keys. induction d as [|[k' v] d IH]; simpl; [reflexivity|].
  now rewrite IH.
Qed.

Lemma keys_setdefault {V} (k : string) (v : V) (d : dict V) :
  keys (setdefault k v d)
  = if existsb (String.eqb k) (keys d) then keys d else keys d ++ [k].
Proof.
  unfold setdefault. rewrite dict_mem_keys.
  destruct (existsb (String.eqb k) (keys d)); [reflexivity|].
  unfold keys. now rewrite map_app.
Qed.

Lemma keys_fold_setdefault {M V} (f : M -> string) (g : M -> V) (ms : list M) (d : dict V) :
  keys (fold_left (fun d m => setdefault (f m) (g m) d) ms d)
  = first_seen (map f ms) (keys d).
Proof.
  unfold first_seen. revert d. induction ms as [|m ms IH]; intros d; simpl.
  - reflexivity.
  - rewrite IH, keys_setdefault. reflexivity.
Qed.

Lemma keys_fromkeys (l : list string) : keys (fromkeys l) = first_seen l [].
Proof.
  unfold fromkeys.
  rewrite (keys_fold_setdefault (fun k => k) (fun _ => tt) l []). now rewrite map_id.
Qed.

Lemma keys_unique_by_uri (matches : list year_match) :
  keys (unique_by_uri_of matches) = first_seen (map ym_uri matches) [].
Proof. unfold unique_by_uri_of. now rewrite keys_fold_setdefault. Qed.

Lemma existsb_eqb_In (k : string) (l : list string) :
  existsb (String.eqb k) l = true <-> In k l.
Proof.
  rewrite existsb_exists. split.
  - intros [x [I E]]. apply String.eqb_eq in E. now subst.
  - intros I. exists k. split; [assumption | apply String.eqb_refl].
Qed.

Lemma first_seen_In (l seen : list string) (x : string) :
  In x (first_seen l seen) <-> In x seen \/ In x l.
Proof.
  unfold first_seen. revert seen. induction l as [|k l IH]; intros seen; simpl.
  - tauto.
  - rewrite IH. destruct (existsb (String.eqb k) seen) eqn:E.
    + apply existsb_eqb_In in E. split; [tauto|]. intros [H|[<-|H]]; tauto.
    + rewrite in_app_iff. simpl. tauto.
Qed.

Lemma first_seen_NoDup (l seen : list string) :
  NoDup seen -> NoDup (first_seen l seen).
Proof.
  unfold first_seen. revert seen. induction l as [|k l IH]; intros seen ND; simpl.
  - assumption.
  - apply IH. destruct (existsb (String.eqb k) seen) eqn:E; [assumption|].
    apply NoDup_snoc; [assumption|]. rewrite <- existsb_eqb_In. congruence.
Qed.

Lemma first_seen_length (l seen : list string) :
  List.length (first_seen l seen) <= List.length seen + List.length l
  /\ ((exists x, In x l /\ In x seen) \/ ~ NoDup l ->
      List.length (first_seen l seen) < List.length seen + List.length l).
Proof.
  unfold first_seen. revert seen. induction l as [|k l IH]; intros seen; simpl.
  - split; [lia|]. intros [[x [[] _]]|N]; exfalso. apply N. constructor.
  - destruct (existsb (String.eqb k) seen) eqn:E.
    + destruct (IH seen) as [Le _]. split; lia.
    + destruct (IH (seen ++ [k])) as [Le Lt]. rewrite length_app in Le, Lt. simpl in Le, Lt.
      split; [lia|]. intros H.
      assert (NI : ~ In k seen) by (rewrite <- existsb_eqb_In; congruence).
      enough ((exists x, In x l /\ In x (seen ++ [k])) \/ ~ NoDup l) as H' by (apply Lt in H'; lia).
      destruct H as [[x [[<-|Hl] Hs]]|N].
      * contradiction.
      * left. exists x. split; [assumption|]. apply in_or_app. now left.
      * destruct (in_dec string_dec k l) as [I|NIl].
        -- left. exists k. split; [assumption|]. apply in_or_app. right. now left.
        -- right. intros ND. apply N. now constructor.
Qed.

(* ================================================================= *)
(** ** The year criterion *)

Lemma scan_year_item_app (year_cutoff : Z) (matches : list year_match) (it : item) :
  scan_year_item year_cutoff matches it = matches ++ scan_year_item year_cutoff [] it.
Proof.
  unfold scan_year_item.
  destruct (item_track it) as [t|]; [|now rewrite app_nil_r].
  destruct (release_date t) as [[|c date]|]; try now rewrite app_nil_r.
  destruct (Py.int (Py.prefix 4 (String c date))) as [y|]; [|now rewrite app_nil_r].
  destruct (y <? year_cutoff)%Z; [reflexivity | now rewrite app_nil_r].
Qed.

Lemma int_of_empty_prefix : Py.int (Py.prefix 4 "") = None.
Proof. reflexivity. Qed.

Lemma scan_year_item_cases (year_cutoff : Z) (it : item) :
  (meets_year_cutoff year_cutoff it
   /\ exists t date,
        item_track it = Some t /\ release_date t = Some date
        /\ scan_year_item year_cutoff [] it = [year_match_of t date])
  \/ (~ meets_year_cutoff year_cutoff it /\ scan_year_item year_cutoff [] it = []).
Proof.
  unfold scan_year_item, meets_year_cutoff.
  destruct (item_track it) as [t|] eqn:Et.
  2:{ right. split; [|reflexivity]. intros [t [d [y [H _]]]]. discriminate. }
  destruct (release_date t) as [date|] eqn:Ed.
  2:{ right. split; [|reflexivity]. intros [t' [d [y [H [H' _]]]]]. congruence. }
  destruct date as [|c date].
  { right. split; [|reflexivity]. intros [t' [d [y [H [H' [H'' _]]]]]].
    assert (t' = t) by congruence. subst t'.
    assert (d = "") by congruence. subst d. discriminate. }
  destruct (Py.int (Py.prefix 4 (String c date))) as [y|] eqn:Ey.
  2:{ right. split; [|reflexivity]. intros [t' [d [y [H [H' [H'' _]]]]]].
      assert (t' = t) by congruence. subst t'.
      assert (d = String c date) by congruence. subst d. congruence. }
  destruct (Z.ltb_spec y year_cutoff) as [Lt|Ge].
  - left. split.
    + exists t, (String c date), y. repeat split; assumption.
    + exists t, (String c date). repeat split. exact Ed.
  - right. split; [|reflexivity]. intros [t' [d [y' [H [H' [H'' Hlt]]]]]].
    assert (t' = t) by congruence. subst t'.
    assert (d = String c date) by congruence. subst d.
    assert (y' = y) by congruence. subst y'. lia.
Qed.

Lemma scan_year_flat (year_cutoff : Z) (pages : source) :
  scan (scan_year_item year_cutoff) pages []
  = flat_map (scan_year_item year_cutoff []) (List.concat pages).
Proof.
  rewrite scan_concat.
  enough (G : forall items acc,
             fold_left (scan_year_item year_cutoff) items acc
             = acc ++ flat_map (scan_year_item year_cutoff []) items) by apply (G _ []).
  induction items as [|it items IH]; intros acc; simpl.
  - now rewrite app_nil_r.
  - rewrite IH, scan_year_item_app, <- app_assoc. reflexivity.
Qed.

Lemma year_candidates_In (pages : source) (year_cutoff : Z) (u : string) :
  In u (year_candidates pages year_cutoff)
  <-> exists it t,
        In it (List.concat pages) /\ meets_year_cutoff year_cutoff it
        /\ item_track it = Some t /\ track_uri t = u.
Proof.
  unfold year_candidates. rewrite keys_unique_by_uri, first_seen_In, scan_year_flat.
  rewrite in_map_iff. split.
  - intros [[]|[m [<- Hm]]]. apply in_flat_map in Hm as [it [Hit Hm]].
    destruct (scan_year_item_cases year_cutoff it) as [[M [t [d [Et [Ed E]]]]]|[_ E]];
      rewrite E in Hm; [|contradiction].
    destruct Hm as [<-|[]]. now exists it, t.
  - intros [it [t [Hit [M [Et <-]]]]]. right.
    destruct (scan_year_item_cases year_cutoff it) as [[_ [t' [d [Et' [Ed E]]]]]|[N _]];
      [|contradiction].
    assert (t' = t) by congruence. subst t'.
    exists (year_match_of t d). split; [reflexivity|].
    apply in_flat_map. exists it. split; [assumption|]. rewrite E. now left.
Qed.

(** C7. A slot is collected by the year scan exactly when its track is
    there, its release date is there, the first four characters of the date
    convert to an integer and that year is below the cutoff.  A slot with
    no date, an empty date or a date that does not convert is never
    collected, and every URI the year flow submits for removal, in a bulk
    call or alone, belongs to a slot that meets the criterion. *)
Theorem year_cutoff_criterion (year_cutoff : Z) :
  (forall matches it,
     (meets_year_cutoff year_cutoff it ->
      exists t date,
        item_track it = Some t /\ release_date t = Some date
        /\ scan_year_item year_cutoff matches it = matches ++ [year_match_of t date])
     /\ (~ meets_year_cutoff year_cutoff it ->
         scan_year_item year_cutoff matches it = matches))
  /\ (forall it t,
        item_track it = Some t ->
        release_date t = None
        \/ (exists date, release_date t = Some date /\ Py.int (Py.prefix 4 date) = None) ->
        ~ meets_year_cutoff year_cutoff it)
  /\ (forall pages u,
        In u (year_candidates pages year_cutoff)
        <-> exists it t,
              In it (List.concat pages) /\ meets_year_cutoff year_cutoff it
              /\ item_track it = Some t /\ track_uri t = u)
  /\ (forall pages answers typed uris u,
        In (RemoveAll uris)
           (trace_of (remove_tracks_before_year_from_playlist pages year_cutoff answers typed)) ->
        In u uris ->
        exists it t,
          In it (List.concat pages) /\ meets_year_cutoff year_cutoff it
          /\ item_track it = Some t /\ track_uri t = u).
Proof.
  split; [|split; [|split]].
  - intros matches it. split.
    + intros M. rewrite scan_year_item_app.
      destruct (scan_year_item_cases year_cutoff it) as [[_ [t [d [Et [Ed E]]]]]|[N _]];
        [|contradiction].
      exists t, d. rewrite E. now repeat split.
    + intros N. rewrite scan_year_item_app.
      destruct (scan_year_item_cases year_cutoff it) as [[M _]|[_ E]]; [contradiction|].
      rewrite E. apply app_nil_r.
  - intros it t Et H [t' [d [y [Et' [Ed [Ey _]]]]]].
    assert (t' = t) by congruence. subst t'.
    destruct H as [H|[d' [H Hy]]]; [congruence|].
    assert (d' = d) by congruence. subst d'. congruence.
  - intros pages u. apply year_candidates_In.
  - intros pages answers typed uris u Hev Hu.
    pose proof (year_flow_events pages year_cutoff answers typed) as F.
    rewrite Forall_forall in F. destruct (F _ Hev) as [_ I].
    apply year_candidates_In. now apply I.
Qed.

(** The specification's example: released "2008-03-01", cutoff 2010. *)
Lemma year_cutoff_criterion_witness :
  exists t date,
    item_track (mkItem None (Some (mkTrack "Old" ["A"] "u1" (Some "2008-03-01")))) = Some t
    /\ release_date t = Some date
    /\ scan_year_item 2010 [] (mkItem None (Some (mkTrack "Old" ["A"] "u1" (Some "2008-03-01"))))
       = [] ++ [year_match_of t date].
Proof.
  apply (proj1 (proj1 (year_cutoff_criterion 2010) []
           (mkItem None (Some (mkTrack "Old" ["A"] "u1" (Some "2008-03-01")))))).
  exists (mkTrack "Old" ["A"] "u1" (Some "2008-03-01")), "2008-03-01", 2008%Z.
  repeat split.
Defined.

(* ================================================================= *)
(** ** Confirmation before removal *)

Lemma follows_after {A} (tr evs : trace) (o : outcome A) :
  follows (tr ++ evs) o -> follows tr o.
Proof. intros [added E]. exists (evs ++ added). now rewrite E, app_assoc. Qed.

Lemma follows_here {A} (tr : trace) (o : outcome A) : trace_of o = tr -> follows tr o.
Proof. intros E. exists []. now rewrite app_nil_r. Qed.

Lemma fallback_follows {T} (api_call : list T -> event) m3 chunk answers typed n tr :
  follows tr (fallback api_call m3 chunk answers typed n tr).
Proof.
  destruct (fallback_grows api_call (fun _ => MsgDupNone) (fun _ => MsgDupNone) m3
              (fun _ => True) chunk answers typed n tr (fun _ _ => I)) as [added [E _]].
  now exists added.
Qed.

Lemma try_chunk_follows {T} (api_call : list T -> event) m1 m2 m3 chunk answers typed n tr :
  follows tr (try_chunk api_call m1 m2 m3 chunk answers typed n tr).
Proof.
  destruct (try_chunk_grows api_call m1 m2 m3 (fun _ => True) chunk answers typed n tr
              I (fun _ _ => I)) as [added [E _]].
  now exists added.
Qed.

Lemma remove_chunks_follows {T} (api_call : list T -> event) m1 m2 m3 chunks answers typed n tr :
  follows tr (remove_chunks api_call m1 m2 m3 chunks answers typed n tr).
Proof.
  destruct (remove_chunks_grows api_call m1 m2 m3 (fun _ => True) chunks answers typed n tr)
    as [added [E _]]; [intros; split; [exact I | intros; exact I]|].
  now exists added.
Qed.

Lemma try_chunk_after_call {T} (api_call : list T -> event) m1 m2 m3 chunk answers typed n tr :
  follows (tr ++ [api_call chunk]) (try_chunk api_call m1 m2 m3 chunk answers typed n tr).
Proof.
  destruct answers as [|a answers]; simpl.
  - now apply follows_here.
  - destruct a as [|[http_status headers| | |]].
    + now apply follows_here.
    + destruct (http_status =? 429)%Z.
      * destruct (Py.int (retry_after_text headers)) as [d|]; [|now apply follows_here].
        apply (follows_after _ [Print (MsgRateLimit d)]).
        destruct (time_sleep d); [now apply follows_here|].
        apply (follows_after _ [Sleep d]). apply try_chunk_follows.
      * eapply follows_after. apply fallback_follows.
    + eapply follows_after. apply fallback_follows.
    + eapply follows_after. apply fallback_follows.
    + eapply follows_after. apply fallback_follows.
Qed.

Lemma remove_chunks_starts {T} (api_call : list T -> event) m1 m2 m3 chunk chunks
    answers typed n tr :
  exists rest,
    trace_of (remove_chunks api_call m1 m2 m3 (chunk :: chunks) answers typed n tr)
    = tr ++ api_call chunk :: rest.
Proof.
  assert (G : follows (tr ++ [api_call chunk])
                (remove_chunks api_call m1 m2 m3 (chunk :: chunks) answers typed n tr)).
  { cbn [remove_chunks].
    pose proof (try_chunk_after_call api_call m1 m2 m3 chunk answers typed n tr) as F.
    destruct (try_chunk api_call m1 m2 m3 chunk answers typed n tr)
      as [n1 a1 t1 tr1| |]; try exact F.
    destruct F as [added E]. cbn [trace_of] in E. subst tr1.
    eapply follows_after. apply remove_chunks_follows. }
  destruct G as [rest E]. exists rest. rewrite E, <- app_assoc. reflexivity.
Qed.

Lemma chunked_list_head {A} (lst : list A) (n : nat) :
  lst <> [] -> exists rest, _chunked_list lst n = firstn n lst :: rest.
Proof.
  intros N. destruct lst as [|a lst]; [congruence|].
  unfold _chunked_list, range. cbn [List.length range_from].
  change (0 <? S (List.length lst)) with true. cbv iota. cbn [map].
  eexists. f_equal. unfold slice. cbn [skipn]. f_equal. lia.
Qed.

Lemma year_candidates_nonempty (pages : source) (year_cutoff : Z) :
  scan (scan_year_item year_cutoff) pages [] <> [] -> year_candidates pages year_cutoff <> [].
Proof.
  intros N E. unfold year_candidates in E. rewrite keys_unique_by_uri in E.
  destruct (scan (scan_year_item year_cutoff) pages []) as [|m ms]; [congruence|].
  assert (I : In (ym_uri m) (first_seen (map ym_uri (m :: ms)) [])).
  { apply first_seen_In. right. now left. }
  rewrite E in I. exact I.
Qed.

Lemma quiet_no_removal_call (tr : trace) : Forall quiet tr -> no_removal_call tr.
Proof. apply Forall_impl. now intros ev [R _]. Qed.

(** C8. Once the year flow has listed its matches it asks for
    confirmation.  When the typed line, stripped and lowercased, is not
    "s", or when no line comes, no removal call is ever made, and on such a
    line the flow prints the cancellation and ends; when the line is "s" the
    first chunk is submitted right after the question.  The artist flow and
    the track-name flow read nothing from the user: with a candidate at
    hand, their first and only action on the playlist is the removal call. *)
Theorem confirmation_gates_removal :
  (forall pages year_cutoff answers line typed,
     year_confirmed line = false ->
     no_removal_call
       (trace_of (remove_tracks_before_year_from_playlist pages year_cutoff answers
                    (line :: typed)))
     /\ (scan (scan_year_item year_cutoff) pages [] <> [] ->
         remove_tracks_before_year_from_playlist pages year_cutoff answers (line :: typed)
         = Done tt answers typed (year_prompt pages year_cutoff ++ [Print MsgCancelled])))
  /\ (forall pages year_cutoff answers,
        no_removal_call
          (trace_of (remove_tracks_before_year_from_playlist pages year_cutoff answers [])))
  /\ (forall pages year_cutoff answers line typed,
        year_confirmed line = true ->
        scan (scan_year_item year_cutoff) pages [] <> [] ->
        exists rest,
          trace_of (remove_tracks_before_year_from_playlist pages year_cutoff answers
                      (line :: typed))
          = year_prompt pages year_cutoff
            ++ RemoveAll (firstn 100 (year_candidates pages year_cutoff)) :: rest)
  /\ (forall line, year_confirmed line = true <-> Py.lower (Py.strip line) = "s")
  /\ (forall pages artist_name answers typed,
        no_input (trace_of (remove_artist_from_playlist pages artist_name answers typed))
        /\ (scan (scan_artist_item artist_name) pages [] <> [] ->
            exists rest,
              trace_of (remove_artist_from_playlist pages artist_name answers typed)
              = RemoveAll (scan (scan_artist_item artist_name) pages []) :: rest))
  /\ (forall pages track_name' answers typed,
        no_input (trace_of (remove_music_from_playlist pages track_name' answers typed))
        /\ (scan (scan_name_item track_name') pages [] <> [] ->
            exists rest,
              trace_of (remove_music_from_playlist pages track_name' answers typed)
              = RemoveAll (keys (fromkeys (scan (scan_name_item track_name') pages [])))
                :: rest)).
Proof.
  split; [|split; [|split; [|split; [|split]]]].
  - intros pages year_cutoff answers line typed NC. rewrite year_flow_cases, NC.
    pose proof (quiet_no_removal_call _ (year_prompt_quiet pages year_cutoff)) as Q.
    destruct (scan (scan_year_item year_cutoff) pages []) as [|m ms].
    + split; [repeat constructor | congruence].
    + split; [|reflexivity]. cbn [trace_of].
      apply Forall_app; split; [exact Q | repeat constructor].
  - intros pages year_cutoff answers. rewrite year_flow_cases.
    destruct (scan (scan_year_item year_cutoff) pages []) as [|m ms].
    + repeat constructor.
    + apply quiet_no_removal_call, year_prompt_quiet.
  - intros pages year_cutoff answers line typed C N.
    pose proof (year_candidates_nonempty pages year_cutoff N) as NU.
    rewrite year_flow_cases, C.
    destruct (scan (scan_year_item year_cutoff) pages []) as [|m ms]; [congruence|].
    destruct (chunked_list_head (year_candidates pages year_cutoff) 100 NU) as [chunks EC].
    destruct (remove_chunks_starts RemoveAll MsgBatchError MsgBatchUnexpected MsgUriFailed
                (firstn 100 (year_candidates pages year_cutoff)) chunks answers typed 0
                (year_prompt pages year_cutoff)) as [rest E].
    unfold remove_uris_in_chunks. rewrite EC.
    destruct (year_candidates pages year_cutoff) as [|u us]; [congruence|].
    destruct (remove_chunks RemoveAll MsgBatchError MsgBatchUnexpected MsgUriFailed
                (firstn 100 (u :: us) :: chunks) answers typed 0
                (year_prompt pages year_cutoff)) as [n1 a1 t1 tr1| e tr1 | tr1];
      cbn [trace_of] in E |- *; subst tr1.
    + exists (rest ++ [Print (MsgYearRemoved n1)]). now rewrite <- app_assoc.
    + now exists rest.
    + now exists rest.
  - intros line. unfold year_confirmed. apply String.eqb_eq.
  - intros pages artist_name answers typed. unfold remove_artist_from_playlist.
    destruct (scan (scan_artist_item artist_name) pages []) as [|u us].
    + split; [repeat constructor | congruence].
    + destruct answers as [|[|e] answers];
        (split; [repeat constructor | intros _; eexists; reflexivity]).
  - intros pages track_name' answers typed. unfold remove_music_from_playlist.
    destruct (scan (scan_name_item track_name') pages []) as [|u us].
    + split; [repeat constructor | congruence].
    + destruct answers as [|[|e] answers];
        (split; [repeat constructor | intros _; eexists; reflexivity]).
Qed.

(** An answer other than "s": nothing is removed. *)
Lemma confirmation_gates_removal_witness :
  no_removal_call
    (trace_of (remove_tracks_before_year_from_playlist
                 [[mkItem None (Some (mkTrack "Old" ["A"] "u1" (Some "2008-03-01")))]]
                 2010 [ROk] ["sim"]))
  /\ (scan (scan_year_item 2010)
        [[mkItem None (Some (mkTrack "Old" ["A"] "u1" (Some "2008-03-01")))]] [] <> [] ->
      remove_tracks_before_year_from_playlist
        [[mkItem None (Some (mkTrack "Old" ["A"] "u1" (Some "2008-03-01")))]]
        2010 [ROk] ["sim"]
      = Done tt [ROk] []
          (year_prompt [[mkItem None (Some (mkTrack "Old" ["A"] "u1" (Some "2008-03-01")))]]
             2010 ++ [Print MsgCancelled])).
Proof.
  apply (proj1 confirmation_gates_removal
           [[mkItem None (Some (mkTrack "Old" ["A"] "u1" (Some "2008-03-01")))]]
           2010%Z [ROk] "sim" []).
  reflexivity.
Defined.

(* ================================================================= *)
(** ** Candidates by identity *)

Lemma tracks_of_cons (it : item) (items : list item) :
  tracks_of (it :: items)
  = match item_track it with
    | Some t => t :: tracks_of items
    | None => tracks_of items
    end.
Proof.
  unfold tracks_of. simpl. rewrite map_app. now destruct (item_track it).
Qed.

Lemma scan_by_filter (matches : track -> bool) (body : list string -> item -> list string) :
  (forall acc it,
     body acc it = match item_track it with
                   | Some t => if matches t then acc ++ [track_uri t] else acc
                   | None => acc
                   end) ->
  forall pages,
    scan body pages [] = map track_uri (filter matches (tracks_of (List.concat pages))).
Proof.
  intros B pages. rewrite scan_concat.
  enough (G : forall items acc,
             fold_left body items acc
             = acc ++ map track_uri (filter matches (tracks_of items))) by apply (G _ []).
  induction items as [|it items IH]; intros acc; simpl.
  - now rewrite app_nil_r.
  - rewrite IH, B, tracks_of_cons. destruct (item_track it) as [t|]; [|reflexivity].
    simpl. destruct (matches t); [|reflexivity].
    simpl. now rewrite <- app_assoc.
Qed.

Lemma scan_name_filter (track_name' : string) (pages : source) :
  scan (scan_name_item track_name') pages []
  = map track_uri (filter (name_matches track_name') (tracks_of (List.concat pages))).
Proof. apply scan_by_filter. reflexivity. Qed.

Lemma scan_artist_filter (artist_name : string) (pages : source) :
  scan (scan_artist_item artist_name) pages []
  = map track_uri (filter (artist_matches artist_name) (tracks_of (List.concat pages))).
Proof. apply scan_by_filter. reflexivity. Qed.

(** The track-name flow and the year flow submit each identity once. *)
Lemma name_flow_submits_once (l : list string) :
  NoDup (keys (fromkeys l)) /\ forall u, In u (keys (fromkeys l)) <-> In u l.
Proof.
  rewrite keys_fromkeys. split.
  - apply first_seen_NoDup. constructor.
  - intros u. rewrite first_seen_In. simpl. tauto.
Qed.

Lemma year_candidates_NoDup (pages : source) (year_cutoff : Z) :
  NoDup (year_candidates pages year_cutoff).
Proof.
  unfold year_candidates. rewrite keys_unique_by_uri. apply first_seen_NoDup. constructor.
Qed.

(** C3. The artist flow hands its candidate list to the removal call as
    collected: a track of the artist that fills two slots is submitted
    twice in the one call. *)
Theorem artist_flow_submits_repeats :
  remove_artist_from_playlist
    [[mkItem None (Some (mkTrack "Song" ["A"] "spotify:track:1" None));
      mkItem None (Some (mkTrack "Song" ["A"] "spotify:track:1" None))]]
    "a" [ROk] []
  = Done tt [] []
      [RemoveAll ["spotify:track:1"; "spotify:track:1"]; Print (MsgArtistRemoved 2 "a")].
Proof. reflexivity. Qed.

(* ================================================================= *)
(** ** The count of the track-name flow *)

(** C10. In the track-name flow the candidates are the URIs of the slots
    whose name matches, one per slot, and the flow submits each distinct
    URI once.  When the call succeeds the count printed is the number of
    matching slots, not the number of URIs submitted; the two differ, the
    printed count being the larger, as soon as a matching track fills more
    than one slot. *)
Theorem name_flow_reports_occurrences (pages : source) (track_name' : string) :
  scan (scan_name_item track_name') pages []
  = map track_uri (filter (name_matches track_name') (tracks_of (List.concat pages)))
  /\ (forall answers typed,
        scan (scan_name_item track_name') pages [] <> [] ->
        remove_music_from_playlist pages track_name' (ROk :: answers) typed
        = Done tt answers typed
            [RemoveAll (keys (fromkeys (scan (scan_name_item track_name') pages [])));
             Print (MsgNameRemoved
                      (List.length (scan (scan_name_item track_name') pages []))
                      track_name')])
  /\ NoDup (keys (fromkeys (scan (scan_name_item track_name') pages [])))
  /\ (forall u,
        In u (keys (fromkeys (scan (scan_name_item track_name') pages [])))
        <-> In u (scan (scan_name_item track_name') pages []))
  /\ List.length (keys (fromkeys (scan (scan_name_item track_name') pages [])))
     <= List.length (scan (scan_name_item track_name') pages [])
  /\ (~ NoDup (scan (scan_name_item track_name') pages []) ->
      List.length (keys (fromkeys (scan (scan_name_item track_name') pages [])))
      < List.length (scan (scan_name_item track_name') pages [])).
Proof.
  split; [apply scan_name_filter|].
  split.
  { intros answers typed N. unfold remove_music_from_playlist.
    destruct (scan (scan_name_item track_name') pages []); [congruence | reflexivity]. }
  destruct (name_flow_submits_once (scan (scan_name_item track_name') pages [])) as [ND I].
  split; [exact ND|]. split; [exact I|].
  rewrite keys_fromkeys.
  destruct (first_seen_length (scan (scan_name_item track_name') pages []) []) as [Le Lt].
  split; [exact Le|]. intros N. apply Lt. now right.
Qed.

(** A track that fills two slots: one URI submitted, two removals
    reported. *)
Lemma name_flow_reports_occurrences_witness :
  List.length
    (keys (fromkeys
       (scan (scan_name_item "song")
          [[mkItem None (Some (mkTrack "Song" ["A"] "spotify:track:1" None))];
           [mkItem None (Some (mkTrack "SONG" ["A"] "spotify:track:1" None))]] [])))
  < List.length
      (scan (scan_name_item "song")
         [[mkItem None (Some (mkTrack "Song" ["A"] "spotify:track:1" None))];
          [mkItem None (Some (mkTrack "SONG" ["A"] "spotify:track:1" None))]] []).
Proof.
  apply (proj2 (proj2 (proj2 (proj2 (proj2
           (name_flow_reports_occurrences
              [[mkItem None (Some (mkTrack "Song" ["A"] "spotify:track:1" None))];
               [mkItem None (Some (mkTrack "SONG" ["A"] "spotify:track:1" None))]]
              "song")))))).
  vm_compute. intros ND. inversion ND as [|x l NI ND']. apply NI. now left.
Defined.

(* ================================================================= *)
(** ** The playlists of the user *)

Lemma get_user_playlists_fold (user_id : string) (pages : list (list playlist))
    (acc : list playlist) :
  fold_left
    (fun playlists pg => playlists ++ filter (fun p => String.eqb (pl_owner p) user_id) pg)
    pages acc
  = acc ++ filter (fun p => String.eqb (pl_owner p) user_id) (List.concat pages).
Proof.
  revert acc. induction pages as [|pg pages IH]; intros acc; simpl.
  - now rewrite app_nil_r.
  - rewrite IH, filter_app, app_assoc. reflexivity.
Qed.

(** X1. [get_user_playlists_only] returns, whatever the paging, the
    playlists whose owner is the user, in the order of the pages: nothing
    owned by someone else is kept and nothing owned by the user is lost. *)
Theorem get_user_playlists_only_owned (user_id : string) (pages : list (list playlist)) :
  get_user_playlists_only user_id pages
  = filter (fun p => String.eqb (pl_owner p) user_id) (List.concat pages)
  /\ (forall p,
        In p (get_user_playlists_only user_id pages)
        <-> In p (List.concat pages) /\ pl_owner p = user_id).
Proof.
  assert (E : get_user_playlists_only user_id pages
              = filter (fun p => String.eqb (pl_owner p) user_id) (List.concat pages)).
  { unfold get_user_playlists_only. now rewrite get_user_playlists_fold. }
  split; [exact E|].
  intros p. rewrite E, filter_In, String.eqb_eq. reflexivity.
Qed.

(* ================================================================= *)
(** ** Numbers shown and numbers typed *)

Lemma playlist_lines_nth (idx i : nat) (playlists : list playlist) (p : playlist) :
  nth_error playlists i = Some p ->
  nth_error (playlist_lines idx playlists) i
  = Some (Say (MsgPlaylistLine (idx + i + 1) (pl_name p))).
Proof.
  revert idx i. induction playlists as [|q playlists IH]; intros idx [|i] H;
    simpl in *; try discriminate.
  - injection H as ->. do 3 f_equal. lia.
  - rewrite (IH (S idx) i H). do 3 f_equal. lia.
Qed.

Lemma pick_playlist_Some (playlists : list playlist) (escolha : Z) (p : playlist) :
  pick_playlist playlists escolha = Some p ->
  (1 <= escolha <= Z.of_nat (List.length playlists))%Z
  /\ nth_error playlists (Z.to_nat (escolha - 1)) = Some p.
Proof.
  unfold pick_playlist.
  destruct (Z.leb_spec 1 escolha) as [L1|L1]; simpl; [|discriminate].
  destruct (Z.leb_spec escolha (Z.of_nat (List.length playlists))) as [L2|L2];
    [|discriminate].
  intros E. split; [lia | exact E].
Qed.

Lemma pick_playlist_In (playlists : list playlist) (escolha : Z) (p : playlist) :
  pick_playlist playlists escolha = Some p -> In p playlists.
Proof.
  intros H. apply pick_playlist_Some in H as [_ H]. eapply nth_error_In; eassumption.
Qed.

(** X2. The number [show_playlists] prints in front of a playlist is the
    number that picks it: the playlist at index i is shown on line i + 1
    after the header, and typing i + 1 binds that playlist; a number picks
    a playlist only when it lies between 1 and the number of playlists. *)
Theorem shown_number_picks_playlist (playlists : list playlist) :
  (forall i p,
     nth_error playlists i = Some p ->
     nth_error (show_playlists playlists) (S i)
     = Some (Say (MsgPlaylistLine (i + 1) (pl_name p)))
     /\ pick_playlist playlists (Z.of_nat (i + 1)) = Some p)
  /\ (forall escolha p,
        pick_playlist playlists escolha = Some p ->
        (1 <= escolha <= Z.of_nat (List.length playlists))%Z
        /\ nth_error playlists (Z.to_nat (escolha - 1)) = Some p).
Proof.
  split; [|apply pick_playlist_Some].
  intros i p H. split.
  - unfold show_playlists. simpl. now rewrite (playlist_lines_nth 0 i playlists p H).
  - assert (L : i < List.length playlists) by (apply nth_error_Some; congruence).
    unfold pick_playlist.
    destruct (Z.leb_spec 1 (Z.of_nat (i + 1))) as [L1|L1]; [|lia]. simpl.
    destruct (Z.leb_spec (Z.of_nat (i + 1)) (Z.of_nat (List.length playlists))) as [L2|L2];
      [|lia].
    replace (Z.to_nat (Z.of_nat (i + 1) - 1)) with i by lia. exact H.
Qed.

Lemma shown_number_picks_playlist_witness :
  nth_error (show_playlists [mkPlaylist "p1" "Rock" "me"; mkPlaylist "p3" "Jazz" "me"]) 2
  = Some (Say (MsgPlaylistLine (1 + 1) "Jazz"))
  /\ pick_playlist [mkPlaylist "p1" "Rock" "me"; mkPlaylist "p3" "Jazz" "me"]
       (Z.of_nat (1 + 1))
     = Some (mkPlaylist "p3" "Jazz" "me").
Proof.
  apply (proj1 (shown_number_picks_playlist
                  [mkPlaylist "p1" "Rock" "me"; mkPlaylist "p3" "Jazz" "me"])
           1 (mkPlaylist "p3" "Jazz" "me")).
  reflexivity.
Defined.

(* ================================================================= *)
(** ** The listing of a playlist *)

Lemma track_lines_In (idx : nat) (items : list item) (n : nat) (nm ar : string) :
  In (Say (MsgTrackLine n nm ar)) (track_lines idx items)
  <-> exists k it t,
        nth_error items k = Some it /\ item_track it = Some t
        /\ n = idx + k + 1 /\ nm = track_name t
        /\ ar = Py.join ", " (track_artists t).
Proof.
  revert idx. induction items as [|it items IH]; intros idx; simpl.
  - split; [tauto|]. intros [[|k] [it [t [H _]]]]; discriminate.
  - assert (Tail : In (Say (MsgTrackLine n nm ar)) (track_lines (S idx) items)
                   <-> exists k it' t,
                         nth_error items k = Some it' /\ item_track it' = Some t
                         /\ n = idx + S k + 1 /\ nm = track_name t
                         /\ ar = Py.join ", " (track_artists t)).
    { rewrite IH. split; intros [k [it' [t [H1 [H2 [H3 H4]]]]]];
        exists k, it', t; repeat split; try tauto; lia. }
    destruct (item_track it) as [t0|] eqn:Et.
    + simpl. rewrite Tail. split.
      * intros [E|[k [it' [t [H1 [H2 [H3 H4]]]]]]].
        -- injection E as <- <- <-. exists 0, it, t0. repeat split; try assumption. lia.
        -- exists (S k), it', t. repeat split; tauto.
      * intros [[|k] [it' [t [H1 [H2 [H3 [H4 H5]]]]]]]; simpl in H1.
        -- injection H1 as <-. assert (t = t0) by congruence. subst t.
           left. subst. do 3 f_equal. lia.
        -- right. exists k, it', t. repeat split; tauto.
    + rewrite Tail. split.
      * intros [k [it' [t [H1 [H2 [H3 H4]]]]]]. exists (S k), it', t. repeat split; tauto.
      * intros [[|k] [it' [t [H1 [H2 [H3 H4]]]]]]; simpl in H1.
        -- injection H1 as <-. congruence.
        -- exists k, it', t. repeat split; tauto.
Qed.

(** X3. [listar_musicas_playlist] numbers its lines page by page: the line
    of a track carries the index of its slot in its own page plus one, so
    the numbers start again at 1 on every page and a slot without track
    uses up a number.  Without a playlist to read, only the header is
    printed. *)
Theorem listing_numbers_restart_per_page (playlist_id : string) :
  (forall pages reads n nm ar,
     In (Say (MsgTrackLine n nm ar))
        (snd (listar_musicas_playlist playlist_id (pages :: reads)))
     <-> exists pg k it t,
           In pg pages /\ nth_error pg k = Some it /\ item_track it = Some t
           /\ n = k + 1 /\ nm = track_name t
           /\ ar = Py.join ", " (track_artists t))
  /\ (forall pages reads,
        fst (listar_musicas_playlist playlist_id (pages :: reads)) = Some reads)
  /\ listar_musicas_playlist playlist_id []
     = (None, [Say MsgTracksHeader; ReadPlaylist playlist_id]).
Proof.
  split; [|split; reflexivity].
  intros pages reads n nm ar. unfold listar_musicas_playlist. simpl. split.
  - intros [E|[E|H]]; try discriminate.
    apply in_flat_map in H as [pg [Hpg H]]. apply track_lines_In in H.
    destruct H as [k [it [t H]]]. exists pg, k, it, t. simpl in H. tauto.
  - intros [pg [k [it [t [Hpg H]]]]]. right. right.
    apply in_flat_map. exists pg. split; [assumption|].
    apply track_lines_In. exists k, it, t. simpl. tauto.
Qed.

(* ================================================================= *)
(** ** The question for a playlist *)

(** X4. The question for a playlist of options 2, 3 and 4 skips every line
    that is no number or a number out of range, and ends on the first line
    that is 0, leaving the binding of the playlist as it was, or a number
    in range, binding the playlist of that number; the only exception that
    leaves it is the end of the input. *)
Theorem playlist_question_outcome (playlists : list playlist) (bound : option playlist)
    (typed : list string) (tr : session_trace) :
  match choose_playlist playlists bound typed tr with
  | Chosen bound' typed' tr' =>
      exists skipped line,
        typed = skipped ++ line :: typed'
        /\ Forall (playlist_line_rejected playlists) skipped
        /\ ((Py.int line = Some 0%Z /\ bound' = bound)
            \/ exists escolha p,
                 Py.int line = Some escolha /\ escolha <> 0%Z
                 /\ pick_playlist playlists escolha = Some p /\ bound' = Some p)
  | ChoiceRaised e tr' =>
      e = EOFError /\ Forall (playlist_line_rejected playlists) typed
  end.
Proof.
  revert tr. induction typed as [|line typed IH]; intros tr; simpl.
  - split; [reflexivity | constructor].
  - destruct (Py.int line) as [escolha|] eqn:Ei.
    + destruct (Z.eqb_spec escolha 0) as [->|N].
      * exists [], line. repeat split; [constructor | now left].
      * destruct (pick_playlist playlists escolha) as [p|] eqn:Ep.
        -- exists [], line. repeat split; [constructor|]. right. now exists escolha, p.
        -- assert (R : playlist_line_rejected playlists line).
           { unfold playlist_line_rejected. rewrite Ei. now split. }
           specialize (IH ((tr ++ [Ask AskPlaylist]) ++ [Say MsgInvalidNumber])).
           destruct (choose_playlist playlists bound typed _) as [b' t' tr'|e tr'].
           ++ destruct IH as [skipped [l [E [F H]]]].
              exists (line :: skipped), l. repeat split; [now rewrite E | now constructor | exact H].
           ++ destruct IH as [E F]. split; [exact E | now constructor].
    + assert (R : playlist_line_rejected playlists line).
      { unfold playlist_line_rejected. now rewrite Ei. }
      specialize (IH ((tr ++ [Ask AskPlaylist]) ++ [Say MsgNotANumber])).
      destruct (choose_playlist playlists bound typed _) as [b' t' tr'|e tr'].
      * destruct IH as [skipped [l [E [F H]]]].
        exists (line :: skipped), l. repeat split; [now rewrite E | now constructor | exact H].
      * destruct IH as [E F]. split; [exact E | now constructor].
Qed.

(* ================================================================= *)
(** ** Lines consumed *)

Lemma fallback_lines {T} (api_call : list T -> event) m3 chunk answers typed n tr :
  leaves_at_most (List.length typed) (fallback api_call m3 chunk answers typed n tr).
Proof.
  revert answers n tr. induction chunk as [|item chunk IH]; intros answers n tr; simpl.
  - lia.
  - destruct answers as [|[|e2] answers]; [exact I | apply IH | apply IH].
Qed.

Lemma try_chunk_lines {T} (api_call : list T -> event) m1 m2 m3 chunk answers typed n tr :
  leaves_at_most (List.length typed) (try_chunk api_call m1 m2 m3 chunk answers typed n tr).
Proof.
  revert tr. induction answers as [|a answers IH]; intros tr; simpl; [exact I|].
  destruct a as [|[http_status headers| | |]]; try apply fallback_lines.
  - simpl. lia.
  - destruct (http_status =? 429)%Z; [|apply fallback_lines].
    destruct (Py.int (retry_after_text headers)) as [d|]; [|exact I].
    destruct (time_sleep d); [exact I | apply IH].
Qed.

Lemma remove_chunks_lines {T} (api_call : list T -> event) m1 m2 m3 chunks answers typed n tr :
  leaves_at_most (List.length typed)
    (remove_chunks api_call m1 m2 m3 chunks answers typed n tr).
Proof.
  revert answers typed n tr.
  induction chunks as [|chunk chunks IH]; intros answers typed n tr; simpl.
  - lia.
  - pose proof (try_chunk_lines api_call m1 m2 m3 chunk answers typed n tr) as L.
    destruct (try_chunk api_call m1 m2 m3 chunk answers typed n tr)
      as [n1 a1 t1 tr1| |]; try exact I.
    simpl in L. specialize (IH a1 t1 n1 tr1).
    destruct (remove_chunks api_call m1 m2 m3 chunks a1 t1 n1 tr1); simpl in *; try exact I.
    lia.
Qed.

Lemma ask_occurrence_lines (occurrences : list scanned) answers typed tr :
  leaves_at_most (List.length typed) (ask_occurrence occurrences answers typed tr).
Proof.
  revert tr. induction typed as [|line typed IH]; intros tr; simpl; [exact I|].
  assert (Step : forall tr', leaves_at_most (S (List.length typed))
                               (ask_occurrence occurrences answers typed tr')).
  { intros tr'. specialize (IH tr').
    destruct (ask_occurrence occurrences answers typed tr'); simpl in *; try exact I. lia. }
  destruct (Py.isdigit (Py.strip line)); simpl; [|apply Step].
  destruct (Py.int (Py.strip line)) as [k|]; [|exact I].
  destruct (k =? 0)%Z; [simpl; lia|].
  destruct ((1 <=? k) && (k <=? Z.of_nat (List.length occurrences)))%Z; [|apply Step].
  destruct (nth_error occurrences (Z.to_nat (k - 1))); [simpl; lia | exact I].
Qed.

Lemma select_occurrences_lines (idx : nat) (duplicates : dict (list scanned))
    to_remove_items answers typed tr :
  leaves_at_most (List.length typed)
    (select_occurrences idx duplicates to_remove_items answers typed tr).
Proof.
  revert idx to_remove_items answers typed tr.
  induction duplicates as [|[k occurrences] rest IH];
    intros idx to_remove_items answers typed tr; simpl.
  - lia.
  - match goal with
    | |- context [ask_occurrence occurrences answers typed ?t] =>
        pose proof (ask_occurrence_lines occurrences answers typed t) as L;
        destruct (ask_occurrence occurrences answers typed t) as [choice a1 t1 tr1| |]
    end; try exact I.
    simpl in L.
    match goal with
    | |- context [select_occurrences (S idx) rest ?c a1 t1 tr1] =>
        specialize (IH (S idx) c a1 t1 tr1);
        destruct (select_occurrences (S idx) rest c a1 t1 tr1)
    end; simpl in *; try exact I.
    lia.
Qed.

Lemma artist_flow_lines (pages : source) (artist_name : string) answers typed :
  leaves_at_most (List.length typed)
    (remove_artist_from_playlist pages artist_name answers typed).
Proof.
  unfold remove_artist_from_playlist.
  destruct (scan (scan_artist_item artist_name) pages []); [simpl; lia|].
  destruct answers as [|[|e] answers]; simpl; lia.
Qed.

Lemma name_flow_lines (pages : source) (track_name' : string) answers typed :
  leaves_at_most (List.length typed)
    (remove_music_from_playlist pages track_name' answers typed).
Proof.
  unfold remove_music_from_playlist.
  destruct (scan (scan_name_item track_name') pages []); [simpl; lia|].
  destruct answers as [|[|e] answers]; simpl; lia.
Qed.

Lemma dup_flow_lines (pages : source) answers typed :
  leaves_at_most (List.length typed) (remove_duplicates_from_playlist pages answers typed).
Proof.
  rewrite dup_flow_cases.
  destruct (duplicates_of (group_items (scan_duplicates pages))); [simpl; lia|].
  pose proof (select_occurrences_lines 1
                (duplicates_of (group_items (scan_duplicates pages))) [] answers typed
                (dup_found pages)) as L.
  unfold selection.
  destruct (select_occurrences 1 _ [] answers typed (dup_found pages))
    as [cands a1 t1 tr1| |]; try exact I.
  simpl in L. destruct cands as [|c cs]; [simpl; lia|].
  pose proof (remove_chunks_lines RemoveSpecific MsgBatchError MsgBatchUnexpected
                (fun it e2 => MsgOccurrenceFailed (occ_positions it) (occ_uri it) e2)
                (_chunked_list (c :: cs) 50) a1 t1 0 tr1) as L2.
  unfold remove_occurrences_in_chunks.
  destruct (remove_chunks RemoveSpecific MsgBatchError MsgBatchUnexpected _
              (_chunked_list (c :: cs) 50) a1 t1 0 tr1); simpl in *; try exact I.
  lia.
Qed.

Lemma year_flow_lines (pages : source) (year_cutoff : Z) answers typed :
  leaves_at_most (List.length typed)
    (remove_tracks_before_year_from_playlist pages year_cutoff answers typed).
Proof.
  rewrite year_flow_cases.
  destruct (scan (scan_year_item year_cutoff) pages []); [simpl; lia|].
  destruct typed as [|line typed]; [exact I|].
  destruct (year_confirmed line); [|simpl; lia].
  destruct (year_candidates pages year_cutoff) as [|u us] eqn:EU; [simpl; lia|].
  pose proof (remove_chunks_lines RemoveAll MsgBatchError MsgBatchUnexpected MsgUriFailed
                (_chunked_list (u :: us) 100) answers typed 0
                (year_prompt pages year_cutoff)) as L.
  unfold remove_uris_in_chunks.
  destruct (remove_chunks RemoveAll MsgBatchError MsgBatchUnexpected MsgUriFailed
              (_chunked_list (u :: us) 100) answers typed 0 (year_prompt pages year_cutoff));
    simpl in *; try exact I.
  lia.
Qed.

Lemma run_flow_lines (p : playlist) (reads : list source) (prologue : trace)
    (flow : source -> outcome unit) (tr : session_trace) (n : nat) :
  (forall pages, leaves_at_most n (flow pages)) ->
  consumes_a_line (S n) (run_flow p reads prologue flow tr).
Proof.
  intros L. unfold run_flow. destruct reads as [|pages reads]; [exact I|].
  specialize (L pages). destruct (flow pages); simpl in *; try exact I. lia.
Qed.

Lemma artist_rounds_lines (playlists : list playlist) bound reads answers typed tr :
  consumes_a_line (List.length typed) (artist_rounds playlists bound reads answers typed tr).
Proof.
  revert tr. induction typed as [|line typed IH]; intros tr; simpl; [exact I|].
  assert (Step : forall tr', consumes_a_line (S (List.length typed))
                               (artist_rounds playlists bound reads answers typed tr')).
  { intros tr'. specialize (IH tr').
    destruct (artist_rounds playlists bound reads answers typed tr'); simpl in *;
      [lia | exact I]. }
  destruct (Py.int line) as [escolha|]; [|apply Step].
  destruct (escolha =? 0)%Z; [simpl; lia|].
  destruct (pick_playlist playlists escolha) as [p|]; [|apply Step].
  destruct typed as [|artist_name typed]; [exact I|].
  pose proof (run_flow_lines p reads []
                (fun pages => remove_artist_from_playlist pages artist_name answers typed)
                ((((tr ++ [Ask AskPlaylist]) ++ [Ask AskArtist])
                    ++ [Say (MsgRemovingArtist artist_name (pl_name p))]))
                (List.length typed)
                (fun pages => artist_flow_lines pages artist_name answers typed)) as L.
  destruct (run_flow p reads [] _ _); simpl in *; [lia | exact I].
Qed.

Lemma choose_playlist_lines (playlists : list playlist) bound typed tr :
  match choose_playlist playlists bound typed tr with
  | Chosen _ typed' _ => List.length typed' < List.length typed
  | ChoiceRaised _ _ => True
  end.
Proof.
  revert tr. induction typed as [|line typed IH]; intros tr; simpl; [exact I|].
  assert (Step : forall tr', match choose_playlist playlists bound typed tr' with
                             | Chosen _ typed' _ => List.length typed' < S (List.length typed)
                             | ChoiceRaised _ _ => True
                             end).
  { intros tr'. specialize (IH tr').
    destruct (choose_playlist playlists bound typed tr'); [lia | exact I]. }
  destruct (Py.int line) as [escolha|]; [|apply Step].
  destruct (escolha =? 0)%Z; [lia|].
  destruct (pick_playlist playlists escolha); [lia | apply Step].
Qed.

Lemma ask_year_lines (typed : list string) (tr : session_trace) :
  match ask_year typed tr with
  | YearGiven _ typed' _ => List.length typed' < List.length typed
  | YearRaised _ _ => True
  end.
Proof.
  revert tr. induction typed as [|line typed IH]; intros tr; simpl; [exact I|].
  destruct (Py.int (Py.strip line)); [lia|].
  specialize (IH ((tr ++ [Ask AskYear]) ++ [Say MsgInvalidYear])).
  destruct (ask_year typed _); [lia | exact I].
Qed.

Lemma track_round_lines (p : playlist) reads answers typed tr :
  consumes_a_line (List.length typed) (track_round p reads answers typed tr).
Proof.
  unfold track_round. destruct typed as [|line typed]; [exact I|].
  destruct (String.eqb (Py.lower (Py.strip line)) "s").
  - destruct (listar_musicas_playlist (pl_id p) reads) as [[reads'|] ltr]; [|exact I].
    destruct typed as [|track_name' typed]; [exact I|].
    match goal with
    | |- consumes_a_line _ (run_flow p reads' [] ?f ?t) =>
        pose proof (run_flow_lines p reads' [] f t (List.length typed)
                      (fun pages => name_flow_lines pages track_name' answers typed)) as L;
        destruct (run_flow p reads' [] f t)
    end; simpl in *; [lia | exact I].
  - destruct typed as [|track_name' typed]; [exact I|].
    match goal with
    | |- consumes_a_line _ (run_flow p reads [] ?f ?t) =>
        pose proof (run_flow_lines p reads [] f t (List.length typed)
                      (fun pages => name_flow_lines pages track_name' answers typed)) as L;
        destruct (run_flow p reads [] f t)
    end; simpl in *; [lia | exact I].
Qed.

Lemma menu_round_lines (playlists : list playlist) bound reads answers typed tr :
  consumes_a_line (List.length typed) (menu_round playlists bound reads answers typed tr).
Proof.
  unfold menu_round. destruct typed as [|line typed]; [exact I|].
  destruct (Py.int line) as [opcao|]; [|exact I].
  destruct (opcao =? 1)%Z.
  { match goal with
    | |- consumes_a_line _ (artist_rounds playlists bound reads answers typed ?t) =>
        pose proof (artist_rounds_lines playlists bound reads answers typed t) as L;
        destruct (artist_rounds playlists bound reads answers typed t)
    end; simpl in *; [lia | exact I]. }
  destruct ((opcao =? 2) || (opcao =? 3) || (opcao =? 4))%Z.
  2:{ destruct (opcao =? 5)%Z; simpl; [exact I | lia]. }
  match goal with
  | |- context [choose_playlist playlists bound typed ?t] =>
      pose proof (choose_playlist_lines playlists bound typed t) as L;
      destruct (choose_playlist playlists bound typed t) as [[p|] typed1 tr1|e tr1]
  end; [| simpl; lia | exact I].
  destruct (opcao =? 2)%Z.
  { pose proof (track_round_lines p reads answers typed1 tr1) as L1.
    destruct (track_round p reads answers typed1 tr1); simpl in *; [lia | exact I]. }
  destruct (opcao =? 3)%Z.
  { match goal with
    | |- consumes_a_line _ (run_flow p reads ?pr ?f ?t) =>
        pose proof (run_flow_lines p reads pr f t (List.length typed1)
                      (fun pages => dup_flow_lines pages answers typed1)) as L1;
        destruct (run_flow p reads pr f t)
    end; simpl in *; [lia | exact I]. }
  pose proof (ask_year_lines typed1 tr1) as L1.
  destruct (ask_year typed1 tr1) as [ano typed2 tr2|e tr2]; [|exact I].
  match goal with
  | |- consumes_a_line _ (run_flow p reads ?pr ?f ?t) =>
      pose proof (run_flow_lines p reads pr f t (List.length typed2)
                    (fun pages => year_flow_lines pages ano answers typed2)) as L2;
      destruct (run_flow p reads pr f t)
  end; simpl in *; [lia | exact I].
Qed.

(* ================================================================= *)
(** ** How a session ends *)

Lemma run_flow_exits_clean (p : playlist) reads prologue flow tr :
  round_exits_clean (run_flow p reads prologue flow tr).
Proof.
  unfold run_flow. destruct reads as [|pages reads]; [exact I|].
  destruct (flow pages); exact I.
Qed.

Lemma artist_rounds_exits_clean (playlists : list playlist) bound reads answers typed tr :
  round_exits_clean (artist_rounds playlists bound reads answers typed tr).
Proof.
  revert tr. induction typed as [|line typed IH]; intros tr; simpl; [exact I|].
  destruct (Py.int line) as [escolha|]; [|apply IH].
  destruct (escolha =? 0)%Z; [exact I|].
  destruct (pick_playlist playlists escolha) as [p|]; [|apply IH].
  destruct typed as [|artist_name typed]; [exact I | apply run_flow_exits_clean].
Qed.

Lemma track_round_exits_clean (p : playlist) reads answers typed tr :
  round_exits_clean (track_round p reads answers typed tr).
Proof.
  unfold track_round. destruct typed as [|line typed]; [exact I|].
  destruct (String.eqb (Py.lower (Py.strip line)) "s").
  - destruct (listar_musicas_playlist (pl_id p) reads) as [[reads'|] ltr]; [|exact I].
    destruct typed as [|track_name' typed]; [exact I | apply run_flow_exits_clean].
  - destruct typed as [|track_name' typed]; [exact I | apply run_flow_exits_clean].
Qed.

Lemma menu_round_exits_clean (playlists : list playlist) bound reads answers typed tr :
  round_exits_clean (menu_round playlists bound reads answers typed tr).
Proof.
  unfold menu_round. destruct typed as [|line typed]; [exact I|].
  destruct (Py.int line) as [opcao|]; [|reflexivity].
  destruct (opcao =? 1)%Z; [apply artist_rounds_exits_clean|].
  destruct ((opcao =? 2) || (opcao =? 3) || (opcao =? 4))%Z.
  2:{ destruct (opcao =? 5)%Z; [reflexivity | exact I]. }
  destruct (choose_playlist playlists bound typed _) as [[p|] typed1 tr1|e tr1];
    [| exact I | exact I].
  destruct (opcao =? 2)%Z; [apply track_round_exits_clean|].
  destruct (opcao =? 3)%Z; [apply run_flow_exits_clean|].
  destruct (ask_year typed1 tr1) as [ano typed2 tr2|e tr2];
    [apply run_flow_exits_clean | exact I].
Qed.

Lemma menu_loop_finishes (rounds : nat) (playlists : list playlist) bound reads answers
    typed tr tr' :
  List.length typed < rounds ->
  menu_loop rounds playlists bound reads answers typed tr <> Unfinished tr'.
Proof.
  revert bound reads answers typed tr.
  induction rounds as [|rounds IH]; intros bound reads answers typed tr L; [lia|].
  simpl.
  pose proof (menu_round_lines playlists bound reads answers typed tr) as C.
  pose proof (menu_round_exits_clean playlists bound reads answers typed tr) as X.
  destruct (menu_round playlists bound reads answers typed tr) as [b r a t tr1|s].
  - simpl in C. apply IH. lia.
  - intros ->. exact X.
Qed.


(** X5. Every round of the menu that goes on has consumed at least one
    typed line, so a session cannot go round without reading: with the
    typed lines used up it ends, by [exit], by an exception or at a read or
    call the scripts do not answer, never by lack of rounds. *)
Theorem session_rounds_consume_input :
  (forall playlists bound reads answers typed tr,
     consumes_a_line (List.length typed)
       (menu_round playlists bound reads answers typed tr))
  /\ (forall client_id client_secret redirect_uri user_id playlist_pages reads answers
             typed tr,
        program client_id client_secret redirect_uri user_id playlist_pages reads answers
          typed
        <> Unfinished tr).
Proof.
  split; [apply menu_round_lines|].
  intros. unfold program.
  destruct (unset client_id || unset client_secret || unset redirect_uri); [discriminate|].
  destruct (get_user_playlists_only user_id playlist_pages); [discriminate|].
  apply menu_loop_finishes. lia.
Qed.



(* ================================================================= *)
(** ** The playlists a session reads *)

Lemma inflow_listed (playlists : list playlist) (evs : trace) :
  Forall (reads_listed playlists) (map InFlow evs).
Proof. induction evs; simpl; constructor; [exact I | assumption]. Qed.

Lemma playlist_lines_listed (playlists shown : list playlist) (idx : nat) :
  Forall (reads_listed playlists) (playlist_lines idx shown).
Proof.
  revert idx. induction shown as [|p shown IH]; intros idx; simpl; constructor;
    [exact I | apply IH].
Qed.

Lemma track_lines_listed (playlists : list playlist) (idx : nat) (items : list item) :
  Forall (reads_listed playlists) (track_lines idx items).
Proof.
  revert idx. induction items as [|it items IH]; intros idx; simpl; [constructor|].
  destruct (item_track it); [constructor; [exact I | apply IH] | apply IH].
Qed.

Lemma listed_snoc (playlists : list playlist) (tr evs : session_trace) :
  Forall (reads_listed playlists) tr -> Forall (reads_listed playlists) evs ->
  Forall (reads_listed playlists) (tr ++ evs).
Proof. intros. apply Forall_app. now split. Qed.

Lemma read_listed (playlists : list playlist) (p : playlist) :
  In p playlists -> reads_listed playlists (ReadPlaylist (pl_id p)).
Proof. intros H. now exists p. Qed.

Ltac listed_events :=
  repeat first
    [ assumption
    | apply listed_snoc
    | apply inflow_listed
    | apply playlist_lines_listed
    | apply Forall_nil
    | apply Forall_cons
    | exact I
    | apply read_listed; assumption ].

Lemma run_flow_listed (playlists : list playlist) (p : playlist) reads prologue flow tr :
  In p playlists -> Forall (reads_listed playlists) tr ->
  round_listed playlists (run_flow p reads prologue flow tr).
Proof.
  intros Hp F. unfold run_flow, round_listed.
  destruct reads as [|pages reads]; simpl.
  - split; [listed_events | exact I].
  - destruct (flow pages); simpl; (split; [listed_events | try exact Hp; exact I]).
Qed.

Lemma artist_rounds_listed (playlists : list playlist) bound reads answers typed tr :
  bound_listed playlists bound -> Forall (reads_listed playlists) tr ->
  round_listed playlists (artist_rounds playlists bound reads answers typed tr).
Proof.
  intros B. revert tr. induction typed as [|line typed IH]; intros tr F; simpl.
  - split; [simpl; listed_events | exact I].
  - destruct (Py.int line) as [escolha|]; [|apply IH; listed_events].
    destruct (escolha =? 0)%Z; [split; [simpl; listed_events | exact B]|].
    destruct (pick_playlist playlists escolha) as [p|] eqn:Ep; [|apply IH; listed_events].
    apply pick_playlist_In in Ep.
    destruct typed as [|artist_name typed].
    + split; [simpl; listed_events | exact I].
    + apply run_flow_listed; [exact Ep | listed_events].
Qed.

Lemma choose_playlist_listed (playlists : list playlist) bound typed tr :
  bound_listed playlists bound -> Forall (reads_listed playlists) tr ->
  match choose_playlist playlists bound typed tr with
  | Chosen bound' _ tr' =>
      bound_listed playlists bound' /\ Forall (reads_listed playlists) tr'
  | ChoiceRaised _ tr' => Forall (reads_listed playlists) tr'
  end.
Proof.
  intros B. revert tr. induction typed as [|line typed IH]; intros tr F; simpl.
  - listed_events.
  - destruct (Py.int line) as [escolha|]; [|apply IH; listed_events].
    destruct (escolha =? 0)%Z; [split; [exact B | listed_events]|].
    destruct (pick_playlist playlists escolha) as [p|] eqn:Ep; [|apply IH; listed_events].
    apply pick_playlist_In in Ep. split; [exact Ep | listed_events].
Qed.

Lemma ask_year_listed (playlists : list playlist) typed tr :
  Forall (reads_listed playlists) tr ->
  match ask_year typed tr with
  | YearGiven _ _ tr' => Forall (reads_listed playlists) tr'
  | YearRaised _ tr' => Forall (reads_listed playlists) tr'
  end.
Proof.
  revert tr. induction typed as [|line typed IH]; intros tr F; simpl.
  - listed_events.
  - destruct (Py.int (Py.strip line)); [listed_events | apply IH; listed_events].
Qed.

Lemma listing_listed (playlists : list playlist) (p : playlist) (reads : list source) :
  In p playlists ->
  Forall (reads_listed playlists) (snd (listar_musicas_playlist (pl_id p) reads)).
Proof.
  intros Hp. unfold listar_musicas_playlist.
  destruct reads as [|pages reads]; simpl.
  - listed_events.
  - constructor; [exact I|]. constructor; [now apply read_listed|].
    apply Forall_flat_map. apply Forall_forall. intros pg _. apply track_lines_listed.
Qed.

Lemma track_round_listed (playlists : list playlist) (p : playlist) reads answers typed tr :
  In p playlists -> Forall (reads_listed playlists) tr ->
  round_listed playlists (track_round p reads answers typed tr).
Proof.
  intros Hp F. unfold track_round. destruct typed as [|line typed].
  - split; [simpl; listed_events | exact I].
  - destruct (String.eqb (Py.lower (Py.strip line)) "s").
    + pose proof (listing_listed playlists p reads Hp) as L.
      destruct (listar_musicas_playlist (pl_id p) reads) as [[reads'|] ltr]; simpl in L.
      * destruct typed as [|track_name' typed].
        -- split; [simpl; listed_events | exact I].
        -- apply run_flow_listed; [exact Hp | listed_events].
      * split; [simpl; listed_events | exact I].
    + destruct typed as [|track_name' typed].
      * split; [simpl; listed_events | exact I].
      * apply run_flow_listed; [exact Hp | listed_events].
Qed.

Lemma menu_round_listed (playlists : list playlist) bound reads answers typed tr :
  bound_listed playlists bound -> Forall (reads_listed playlists) tr ->
  round_listed playlists (menu_round playlists bound reads answers typed tr).
Proof.
  intros B F. unfold menu_round. destruct typed as [|line typed].
  - split; [simpl; listed_events | exact I].
  - destruct (Py.int line) as [opcao|]; [|split; [simpl; listed_events | exact I]].
    destruct (opcao =? 1)%Z.
    { apply artist_rounds_listed; [exact B | unfold show_playlists; listed_events]. }
    destruct ((opcao =? 2) || (opcao =? 3) || (opcao =? 4))%Z.
    2:{ destruct (opcao =? 5)%Z; (split; [simpl; listed_events | try exact B; exact I]). }
    match goal with
    | |- context [choose_playlist playlists bound typed ?t] =>
        assert (Ft : Forall (reads_listed playlists) t)
          by (unfold show_playlists; listed_events);
        pose proof (choose_playlist_listed playlists bound typed t B Ft) as C;
        destruct (choose_playlist playlists bound typed t) as [[p|] typed1 tr1|e tr1]
    end.
    + destruct C as [Hp F1]. simpl in Hp.
      destruct (opcao =? 2)%Z; [now apply track_round_listed|].
      destruct (opcao =? 3)%Z; [now apply run_flow_listed|].
      pose proof (ask_year_listed playlists typed1 tr1 F1) as Y.
      destruct (ask_year typed1 tr1) as [ano typed2 tr2|e tr2].
      * now apply run_flow_listed.
      * split; [exact Y | exact I].
    + destruct C as [_ F1]. split; [exact F1 | exact I].
    + split; [exact C | exact I].
Qed.

Lemma menu_loop_listed (rounds : nat) (playlists : list playlist) bound reads answers
    typed tr :
  bound_listed playlists bound -> Forall (reads_listed playlists) tr ->
  Forall (reads_listed playlists)
    (session_trace_of (menu_loop rounds playlists bound reads answers typed tr)).
Proof.
  revert bound reads answers typed tr.
  induction rounds as [|rounds IH]; intros bound reads answers typed tr B F; simpl.
  - exact F.
  - destruct (menu_round_listed playlists bound reads answers typed tr B F) as [F1 B1].
    destruct (menu_round playlists bound reads answers typed tr) as [b r a t tr1|s].
    + now apply IH.
    + exact F1.
Qed.

(** X7. Whatever is typed, a session reads the items of playlists owned by
    the user only: the identifier of every playlist read is the identifier
    of a playlist that [sp.user_playlists] returned with the user as its
    owner. *)
Theorem session_reads_own_playlists
    (client_id client_secret redirect_uri : option string) (user_id : string)
    (playlist_pages : list (list playlist)) (reads : list source)
    (answers : list api_result) (typed : list string) (playlist_id : string) :
  In (ReadPlaylist playlist_id)
     (session_trace_of
        (program client_id client_secret redirect_uri user_id playlist_pages reads
           answers typed)) ->
  exists p,
    In p (List.concat playlist_pages) /\ pl_owner p = user_id /\ pl_id p = playlist_id.
Proof.
  intros H.
  assert (G : exists p, In p (get_user_playlists_only user_id playlist_pages)
                        /\ pl_id p = playlist_id).
  { revert H. unfold program.
    destruct (unset client_id || unset client_secret || unset redirect_uri).
    { simpl. intros H. repeat destruct H as [H|H]; try discriminate; contradiction. }
    destruct (get_user_playlists_only user_id playlist_pages) as [|q qs] eqn:E.
    { simpl. intros [H|[]]. discriminate. }
    intros H.
    pose proof (menu_loop_listed (S (List.length typed)) (q :: qs) None reads answers
                  typed [] I (Forall_nil _)) as F.
    rewrite Forall_forall in F. exact (F _ H). }
  destruct G as [p [Hp Hid]]. exists p.
  unfold get_user_playlists_only in Hp. rewrite get_user_playlists_fold in Hp.
  simpl in Hp. apply filter_In in Hp as [Hin Ho]. apply String.eqb_eq in Ho.
  now repeat split.
Qed.

Lemma session_reads_own_playlists_witness :
  exists p,
    In p (List.concat [[mkPlaylist "p1" "Rock" "me"; mkPlaylist "p2" "Mix" "you"]])
    /\ pl_owner p = "me" /\ pl_id p = "p1".
Proof.
  apply (session_reads_own_playlists (Some "id") (Some "secret") (Some "uri") "me"
           [[mkPlaylist "p1" "Rock" "me"; mkPlaylist "p2" "Mix" "you"]]
           [[]] [] ["3"; "1"; "5"] "p1").
  vm_compute. auto 20.
Defined.

(* ================================================================= *)
(** ** Going back from the question for a playlist *)

(** X8. In options 2, 3 and 4, answering 0 to the question for a playlist
    returns to the menu only while no playlist has been bound in the
    session.  Once a playlist is bound (every flow that runs leaves its
    playlist bound), the same answer does not go back: the option carries
    on with the playlist bound earlier.  Option 1 always goes back on 0. *)
Theorem back_carries_on_with_bound_playlist (playlists : list playlist)
    (reads : list source) (answers : list api_result) (opt zero : string)
    (typed : list string) (tr : session_trace) :
  Py.int zero = Some 0%Z ->
  (Py.int opt = Some 2%Z \/ Py.int opt = Some 3%Z \/ Py.int opt = Some 4%Z ->
   menu_round playlists None reads answers (opt :: zero :: typed) tr
   = Continue None reads answers typed
       (((tr ++ [Say MsgBanner; Say MsgRule; Say MsgMenu; Ask AskOption])
           ++ show_playlists playlists) ++ [Ask AskPlaylist]))
  /\ (forall p,
        Py.int opt = Some 2%Z ->
        menu_round playlists (Some p) reads answers (opt :: zero :: typed) tr
        = track_round p reads answers typed
            (((tr ++ [Say MsgBanner; Say MsgRule; Say MsgMenu; Ask AskOption])
                ++ show_playlists playlists) ++ [Ask AskPlaylist]))
  /\ (forall p,
        Py.int opt = Some 3%Z ->
        menu_round playlists (Some p) reads answers (opt :: zero :: typed) tr
        = run_flow p reads [Print MsgDupScanning]
            (fun pages => remove_duplicates_from_playlist pages answers typed)
            (((tr ++ [Say MsgBanner; Say MsgRule; Say MsgMenu; Ask AskOption])
                ++ show_playlists playlists) ++ [Ask AskPlaylist]))
  /\ (forall p,
        Py.int opt = Some 4%Z ->
        menu_round playlists (Some p) reads answers (opt :: zero :: typed) tr
        = match ask_year typed
                  (((tr ++ [Say MsgBanner; Say MsgRule; Say MsgMenu; Ask AskOption])
                      ++ show_playlists playlists) ++ [Ask AskPlaylist]) with
          | YearRaised e tr' => End (Crash e tr')
          | YearGiven ano typed' tr' =>
              run_flow p reads [Print (MsgYearSearching ano)]
                (fun pages =>
                   remove_tracks_before_year_from_playlist pages ano answers typed')
                tr'
          end)
  /\ (forall bound,
        Py.int opt = Some 1%Z ->
        menu_round playlists bound reads answers (opt :: zero :: typed) tr
        = Continue bound reads answers typed
            (((tr ++ [Say MsgBanner; Say MsgRule; Say MsgMenu; Ask AskOption])
                ++ show_playlists playlists) ++ [Ask AskPlaylist]))
  /\ (forall p reads0 prologue flow tr0 bound' reads' answers' typed' tr',
        run_flow p reads0 prologue flow tr0 = Continue bound' reads' answers' typed' tr' ->
        bound' = Some p).
Proof.
  intros Z0. repeat apply conj.
  - intros [E|[E|E]]; unfold menu_round; rewrite E; simpl; rewrite Z0; reflexivity.
  - intros p E. unfold menu_round. rewrite E. simpl. rewrite Z0. reflexivity.
  - intros p E. unfold menu_round. rewrite E. simpl. rewrite Z0. reflexivity.
  - intros p E. unfold menu_round. rewrite E. simpl. rewrite Z0. reflexivity.
  - intros bound E. unfold menu_round. rewrite E. simpl. rewrite Z0. reflexivity.
  - intros p reads0 prologue flow tr0 bound' reads' answers' typed' tr'.
    unfold run_flow. destruct reads0 as [|pages reads0]; [discriminate|].
    destruct (flow pages); try discriminate. intros E. now injection E as <- _ _ _ _.
Qed.

(** With "Rock" bound by an earlier round, option 3 answered by 0 scans
    "Rock" again. *)
Lemma back_carries_on_with_bound_playlist_witness :
  menu_round [mkPlaylist "p1" "Rock" "me"] (Some (mkPlaylist "p1" "Rock" "me"))
    [[]] [] ["3"; "0"; "5"] []
  = run_flow (mkPlaylist "p1" "Rock" "me") [[]] [Print MsgDupScanning]
      (fun pages => remove_duplicates_from_playlist pages [] ["5"])
      ((([] ++ [Say MsgBanner; Say MsgRule; Say MsgMenu; Ask AskOption])
          ++ show_playlists [mkPlaylist "p1" "Rock" "me"]) ++ [Ask AskPlaylist]).
Proof.
  apply (proj1 (proj2 (proj2
           (back_carries_on_with_bound_playlist [mkPlaylist "p1" "Rock" "me"] [[]] []
              "3" "0" ["5"] [] eq_refl)))
           (mkPlaylist "p1" "Rock" "me")).
  reflexivity.
Defined.

(* ================================================================= *)
(** ** Who is a candidate *)







Lemma filter_uris_nil (f : track -> bool) (l : list track) :
  map track_uri (filter f l) = [] <-> forall t, In t l -> f t = false.
Proof.
  induction l as [|t l IH]; simpl.
  - split; [intros _ t [] | reflexivity].
  - destruct (f t) eqn:Ef; simpl.
    + split; [discriminate|]. intros H. specialize (H t (or_introl eq_refl)). congruence.
    + rewrite IH. split.
      * intros H t' [<-|Ht']; [assumption | now apply H].
      * intros H t' Ht'. apply H. now right.
Qed.

Lemma artist_flow_calls_iff (pages : source) (artist_name : string) answers typed :
  no_removal_call (trace_of (remove_artist_from_playlist pages artist_name answers typed))
  <-> scan (scan_artist_item artist_name) pages [] = [].
Proof.
  unfold remove_artist_from_playlist, no_removal_call.
  destruct (scan (scan_artist_item artist_name) pages []) as [|u us].
  - split; [reflexivity | intros _; repeat constructor].
  - split; [|discriminate].
    intros F. destruct answers as [|[|e] answers]; simpl in F; inversion F; discriminate.
Qed.

Lemma name_flow_calls_iff (pages : source) (track_name' : string) answers typed :
  no_removal_call (trace_of (remove_music_from_playlist pages track_name' answers typed))
  <-> scan (scan_name_item track_name') pages [] = [].
Proof.
  unfold remove_music_from_playlist, no_removal_call.
  destruct (scan (scan_name_item track_name') pages []) as [|u us].
  - split; [reflexivity | intros _; repeat constructor].
  - split; [|discriminate].
    intros F. destruct answers as [|[|e] answers]; simpl in F; inversion F; discriminate.
Qed.

(** X11. The artist flow and the track-name flow make a removal call
    exactly when at least one slot matches; when none does they print that
    nothing was found, call nothing and leave the scripts untouched. *)
Theorem no_match_no_call (pages : source) (wanted : string)
    (answers : list api_result) (typed : list string) :
  (no_removal_call (trace_of (remove_artist_from_playlist pages wanted answers typed))
   <-> forall t, In t (tracks_of (List.concat pages)) -> artist_matches wanted t = false)
  /\ ((forall t, In t (tracks_of (List.concat pages)) -> artist_matches wanted t = false) ->
      remove_artist_from_playlist pages wanted answers typed
      = Done tt answers typed [Print (MsgArtistNotFound wanted)])
  /\ (no_removal_call (trace_of (remove_music_from_playlist pages wanted answers typed))
      <-> forall t, In t (tracks_of (List.concat pages)) -> name_matches wanted t = false)
  /\ ((forall t, In t (tracks_of (List.concat pages)) -> name_matches wanted t = false) ->
      remove_music_from_playlist pages wanted answers typed
      = Done tt answers typed [Print (MsgNameNotFound wanted)]).
Proof.
  split; [|split; [|split]].
  - rewrite artist_flow_calls_iff, scan_artist_filter. apply filter_uris_nil.
  - intros H. apply filter_uris_nil in H. rewrite <- scan_artist_filter in H.
    unfold remove_artist_from_playlist. now rewrite H.
  - rewrite name_flow_calls_iff, scan_name_filter. apply filter_uris_nil.
  - intros H. apply filter_uris_nil in H. rewrite <- scan_name_filter in H.
    unfold remove_music_from_playlist. now rewrite H.
Qed.

Lemma no_match_no_call_witness :
  remove_artist_from_playlist
    [[mkItem None (Some (mkTrack "One" ["A"] "u1" None)); mkItem None None]]
    "B" [ROk] ["kept"]
  = Done tt [ROk] ["kept"] [Print (MsgArtistNotFound "B")].
Proof.
  apply (proj1 (proj2 (no_match_no_call
                  [[mkItem None (Some (mkTrack "One" ["A"] "u1" None)); mkItem None None]]
                  "B" [ROk] ["kept"]))).
  intros t [<-|[]]. reflexivity.
Defined.

(* ================================================================= *)
(** ** The layout of the chunks *)

Lemma range_from_nth (fuel i stop n k v : nat) :
  nth_error (range_from fuel i stop n) k = Some v -> v = i + k * n /\ v < stop.
Proof.
  revert i k. induction fuel as [|fuel IH]; intros i k; simpl.
  - destruct k; discriminate.
  - destruct (Nat.ltb_spec i stop) as [Hi|Hi]; [|destruct k; discriminate].
    destruct k as [|k]; simpl.
    + intros E. injection E as <-. split; [lia | assumption].
    + intros E. apply IH in E as [-> L]. split; [lia | assumption].
Qed.

Lemma chunked_list_nth {A} (lst : list A) (n j : nat) (chunk : list A) :
  nth_error (_chunked_list lst n) j = Some chunk ->
  chunk = slice lst (j * n) (j * n + n) /\ j * n < List.length lst.
Proof.
  unfold _chunked_list, range. intros H.
  rewrite nth_error_map in H.
  destruct (nth_error (range_from (List.length lst) 0 (List.length lst) n) j) as [v|] eqn:E;
    [|discriminate].
  apply range_from_nth in E as [-> L]. simpl in H. injection H as <-.
  split; [reflexivity | exact L].
Qed.

Lemma slice_length {A} (lst : list A) (i n : nat) :
  List.length (slice lst i (i + n)) = Nat.min n (List.length lst - i).
Proof.
  unfold slice. replace (i + n - i) with n by lia.
  now rewrite length_firstn, length_skipn.
Qed.

Lemma list_sum_bound {A} (chunks : list (list A)) (n : nat) :
  Forall (fun chunk => List.length chunk <= n) chunks ->
  List.length (List.concat chunks) <= List.length chunks * n.
Proof.
  induction 1 as [|chunk chunks L _ IH]; simpl; [lia|].
  rewrite length_app. lia.
Qed.

(** X12. For a positive size n, the chunk number j of [_chunked_list] is
    the slice of the list from j * n to j * n + n; every chunk but the last
    holds exactly n elements, and the number of chunks is the length of the
    list divided by n, rounded up. *)
Theorem chunk_layout {A} (lst : list A) (n : nat) :
  0 < n ->
  (forall j chunk,
     nth_error (_chunked_list lst n) j = Some chunk ->
     chunk = slice lst (j * n) (j * n + n) /\ j * n < List.length lst)
  /\ (forall j chunk,
        nth_error (_chunked_list lst n) j = Some chunk ->
        S j < List.length (_chunked_list lst n) ->
        List.length chunk = n)
  /\ List.length lst <= List.length (_chunked_list lst n) * n
  /\ List.length (_chunked_list lst n) * n < List.length lst + n.
Proof.
  intros Hn. split; [|split; [|split]].
  - intros j chunk. apply chunked_list_nth.
  - intros j chunk H Hj.
    destruct (nth_error (_chunked_list lst n) (S j)) as [next|] eqn:E.
    2:{ apply nth_error_None in E. lia. }
    apply chunked_list_nth in E as [_ L]. apply chunked_list_nth in H as [-> _].
    rewrite slice_length. simpl in L. lia.
  - rewrite <- (chunked_list_concat lst n Hn) at 1.
    apply list_sum_bound.
    eapply Forall_impl; [|apply (chunked_list_sizes lst n Hn)]. intros c [[_ L] _]. exact L.
  - destruct (List.length (_chunked_list lst n)) as [|m] eqn:E; [lia|].
    destruct (nth_error (_chunked_list lst n) m) as [last|] eqn:El.
    2:{ apply nth_error_None in El. lia. }
    apply chunked_list_nth in El as [_ L]. simpl. lia.
Qed.

Lemma chunk_layout_witness :
  List.length [1; 2; 3; 4; 5; 6; 7] <= List.length (_chunked_list [1; 2; 3; 4; 5; 6; 7] 3) * 3
  /\ List.length (_chunked_list [1; 2; 3; 4; 5; 6; 7] 3) * 3
     < List.length [1; 2; 3; 4; 5; 6; 7] + 3.
Proof.
  apply (proj2 (proj2 (@chunk_layout nat [1; 2; 3; 4; 5; 6; 7] 3 ltac:(lia)))).
Defined.

(* ================================================================= *)
(** ** Rate limiting at its edges *)

Lemma try_chunk_bad_retry_after {T} (api_call : list T -> event) m1 m2 m3 chunk h
    answers typed n tr :
  Py.int (retry_after_text h) = None ->
  try_chunk api_call m1 m2 m3 chunk (rate_limited h :: answers) typed n tr
  = Raised ValueError (tr ++ [api_call chunk]).
Proof. intros E. simpl. now rewrite E. Qed.

Lemma try_chunk_negative_retry_after {T} (api_call : list T -> event) m1 m2 m3 chunk h d
    answers typed n tr :
  Py.int (retry_after_text h) = Some d -> (d < 0)%Z ->
  try_chunk api_call m1 m2 m3 chunk (rate_limited h :: answers) typed n tr
  = Raised ValueError (tr ++ [api_call chunk; Print (MsgRateLimit d)]).
Proof.
  intros E Neg. simpl. rewrite E. unfold time_sleep.
  destruct (Z.ltb_spec d 0) as [_|Pos]; [|lia]. now rewrite <- app_assoc.
Qed.

(** X13. A rate-limit answer whose [Retry-After] does not convert to an
    integer, or converts to a negative one, ends the whole removal loop
    with a [ValueError], also after rounds of back-off that went well: the
    chunk in hand is given up, the chunks after it are never submitted and
    the answers left are not used. *)
Theorem bad_retry_after_ends_loop {T} (api_call : list T -> event) m1 m2 m3
    (chunk : list T) (chunks : list (list T))
    (hs : list (option (list (string * string)))) (waits : list Z)
    (h : option (list (string * string))) answers typed n tr :
  Forall2 (fun h d => Py.int (retry_after_text h) = Some d /\ time_sleep d = None) hs waits ->
  (Py.int (retry_after_text h) = None ->
   remove_chunks api_call m1 m2 m3 (chunk :: chunks)
     (map rate_limited hs ++ rate_limited h :: answers) typed n tr
   = Raised ValueError (tr ++ backoff_events api_call chunk waits ++ [api_call chunk]))
  /\ (forall d,
        Py.int (retry_after_text h) = Some d -> (d < 0)%Z ->
        remove_chunks api_call m1 m2 m3 (chunk :: chunks)
          (map rate_limited hs ++ rate_limited h :: answers) typed n tr
        = Raised ValueError
            (tr ++ backoff_events api_call chunk waits
                ++ [api_call chunk; Print (MsgRateLimit d)])).
Proof.
  intros F. split.
  - intros E. cbn [remove_chunks].
    rewrite (try_chunk_rate_limited api_call m1 m2 m3 chunk hs waits F).
    rewrite try_chunk_bad_retry_after by assumption. now rewrite <- app_assoc.
  - intros d E Neg. cbn [remove_chunks].
    rewrite (try_chunk_rate_limited api_call m1 m2 m3 chunk hs waits F).
    rewrite (try_chunk_negative_retry_after api_call m1 m2 m3 chunk h d) by assumption.
    now rewrite <- app_assoc.
Qed.

Lemma bad_retry_after_ends_loop_witness :
  remove_chunks RemoveAll MsgBatchError MsgBatchUnexpected MsgUriFailed
    [["u1"]; ["u2"]]
    (map rate_limited [Some [("Retry-After", "2")]]
       ++ rate_limited (Some [("Retry-After", "-1")]) :: [ROk; ROk]) [] 0 []
  = Raised ValueError
      ([] ++ backoff_events RemoveAll ["u1"] [2%Z]
          ++ [RemoveAll ["u1"]; Print (MsgRateLimit (-1))]).
Proof.
  refine (proj2 (bad_retry_after_ends_loop RemoveAll MsgBatchError MsgBatchUnexpected
                   MsgUriFailed ["u1"] [["u2"]] [Some [("Retry-After", "2")]] [2%Z]
                   (Some [("Retry-After", "-1")]) [ROk; ROk] [] 0 [] _) (-1)%Z _ _).
  - repeat constructor.
  - reflexivity.
  - reflexivity.
Defined.

Lemma fallback_no_sleep {T} (api_call : list T -> event) m3 chunk answers typed n tr :
  (forall payload, is_sleep (api_call payload) = false) ->
  exists added,
    trace_of (fallback api_call m3 chunk answers typed n tr) = tr ++ added
    /\ Forall (fun ev => is_sleep ev = false) added.
Proof.
  intros NS. revert answers n tr.
  induction chunk as [|item chunk IH]; intros answers n tr; simpl.
  - exists []. split; [now rewrite app_nil_r | constructor].
  - destruct answers as [|[|e2] answers].
    + exists [api_call [item]]. split; [reflexivity | repeat constructor; apply NS].
    + destruct (IH answers (n + 1) (tr ++ [api_call [item]])) as [added [E F]].
      exists (api_call [item] :: added). split.
      * rewrite E, <- app_assoc. reflexivity.
      * constructor; [apply NS | exact F].
    + destruct (IH answers n ((tr ++ [api_call [item]]) ++ [Print (m3 item e2)]))
        as [added [E F]].
      exists (api_call [item] :: Print (m3 item e2) :: added). split.
      * rewrite E, <- !app_assoc. reflexivity.
      * constructor; [apply NS|]. constructor; [reflexivity | exact F].
Qed.

(** X14. The item-by-item fallback never waits: a rate-limit answer to a
    single item is printed as a failure like any other, the item is
    skipped without a second try and the count is left as it was. *)
Theorem fallback_does_not_back_off :
  (forall chunk answers typed n tr,
     exists added,
       trace_of (fallback RemoveAll MsgUriFailed chunk answers typed n tr) = tr ++ added
       /\ Forall (fun ev => is_sleep ev = false) added)
  /\ (forall chunk answers typed n tr,
        exists added,
          trace_of (fallback RemoveSpecific
                      (fun it e2 => MsgOccurrenceFailed (occ_positions it) (occ_uri it) e2)
                      chunk answers typed n tr) = tr ++ added
          /\ Forall (fun ev => is_sleep ev = false) added)
  /\ (forall T (api_call : list T -> event) m3 item chunk h answers typed n tr,
        fallback api_call m3 (item :: chunk) (rate_limited h :: answers) typed n tr
        = fallback api_call m3 chunk answers typed n
            (tr ++ [api_call [item]; Print (m3 item (SpotifyException 429 h))])).
Proof.
  split; [|split].
  - intros. now apply fallback_no_sleep.
  - intros. now apply fallback_no_sleep.
  - intros. simpl. now rewrite <- app_assoc.
Qed.

(* ================================================================= *)
(** ** Digits and numbers *)

Lemma digit_not_int_space (c : ascii) : Py.is_digit c = true -> Py.is_int_space c = false.
Proof.
  unfold Py.is_digit, Py.is_int_space. intros H. apply andb_prop in H as [L U].
  apply Nat.leb_le in L, U.
  destruct (Nat.leb_spec 9 (Py.code c)); destruct (Nat.leb_spec (Py.code c) 13);
    destruct (Nat.eqb_spec (Py.code c) 32); simpl; try reflexivity; lia.
Qed.

Lemma rstrip_digits (s : string) :
  Py.all_digits s = true -> Py.rstrip_by Py.is_int_space s = s.
Proof.
  induction s as [|c s IH]; simpl; [reflexivity|].
  intros H. apply andb_prop in H as [D A]. rewrite (IH A).
  destruct s; [now rewrite (digit_not_int_space c D) | reflexivity].
Qed.

Lemma int_digits_value (acc : Z) (s : string) :
  Py.all_digits s = true -> Py.int_digits acc false s = Some (decimal_value acc s).
Proof.
  revert acc. induction s as [|c s IH]; intros acc; simpl; [reflexivity|].
  intros H. apply andb_prop in H as [D A]. rewrite D. now apply IH.
Qed.

Lemma decimal_value_nonneg (acc : Z) (s : string) :
  (0 <= acc)%Z -> (0 <= decimal_value acc s)%Z.
Proof.
  revert acc. induction s as [|c s IH]; intros acc H; simpl; [assumption|].
  apply IH. unfold Py.digit_value. lia.
Qed.

Lemma digit_is_no_sign (c : ascii) (r : string) :
  Py.is_digit c = true ->
  match String c r with
  | String "+" r' => Py.int_unsigned r'
  | String "-" r' => option_map Z.opp (Py.int_unsigned r')
  | body => Py.int_unsigned body
  end = Py.int_unsigned (String c r).
Proof.
  destruct c as [[] [] [] [] [] [] [] []]; intros H; try discriminate H; reflexivity.
Qed.

Lemma int_of_digits (s : string) :
  Py.isdigit s = true ->
  Py.int s = Some (decimal_value 0 s) /\ (0 <= decimal_value 0 s)%Z.
Proof.
  destruct s as [|c s]; [discriminate|]. intros H. simpl in H.
  pose proof H as H'. apply andb_prop in H' as [D A].
  split; [|apply decimal_value_nonneg; lia].
  unfold Py.int. cbn [Py.lstrip_by]. rewrite (digit_not_int_space c D).
  rewrite (rstrip_digits (String c s) H).
  rewrite (digit_is_no_sign c s D). unfold Py.int_unsigned. rewrite D.
  rewrite (int_digits_value (Py.digit_value c) s A). reflexivity.
Qed.



(* ================================================================= *)
(** ** The question for an occurrence *)

Lemma ask_occurrence_cases (occurrences : list scanned) answers typed tr :
  match ask_occurrence occurrences answers typed tr with
  | Done choice answers' typed' tr' =>
      answers' = answers
      /\ exists skipped line,
           typed = skipped ++ line :: typed'
           /\ Forall (occurrence_line_rejected occurrences) skipped
           /\ Py.isdigit (Py.strip line) = true
           /\ ((Py.int (Py.strip line) = Some 0%Z /\ choice = None)
               \/ exists k selected,
                    Py.int (Py.strip line) = Some k
                    /\ nth_error occurrences (Z.to_nat (k - 1)) = Some selected
                    /\ (1 <= k <= Z.of_nat (List.length occurrences))%Z
                    /\ choice = Some (occurrence_of selected))
  | Raised e tr' => e = EOFError /\ Forall (occurrence_line_rejected occurrences) typed
  | Starved tr' => False
  end.
Proof.
  revert tr. induction typed as [|line typed IH]; intros tr; simpl.
  - split; [reflexivity | constructor].
  - assert (Skip : forall tr0,
              occurrence_line_rejected occurrences line ->
              match ask_occurrence occurrences answers typed tr0 with
              | Done choice answers' typed' tr' =>
                  answers' = answers
                  /\ exists skipped l,
                       line :: typed = skipped ++ l :: typed'
                       /\ Forall (occurrence_line_rejected occurrences) skipped
                       /\ Py.isdigit (Py.strip l) = true
                       /\ ((Py.int (Py.strip l) = Some 0%Z /\ choice = None)
                           \/ exists k selected,
                                Py.int (Py.strip l) = Some k
                                /\ nth_error occurrences (Z.to_nat (k - 1)) = Some selected
                                /\ (1 <= k <= Z.of_nat (List.length occurrences))%Z
                                /\ choice = Some (occurrence_of selected))
              | Raised e tr' =>
                  e = EOFError
                  /\ Forall (occurrence_line_rejected occurrences) (line :: typed)
              | Starved tr' => False
              end).
    { intros tr0 R. specialize (IH tr0).
      destruct (ask_occurrence occurrences answers typed tr0) as [c a t tr1|e tr1|tr1].
      - destruct IH as [Ea [skipped [l [E [F H]]]]]. split; [exact Ea|].
        exists (line :: skipped), l. split; [now rewrite E|]. split; [now constructor | exact H].
      - destruct IH as [E F]. split; [exact E | now constructor].
      - exact IH. }
    destruct (Py.isdigit (Py.strip line)) eqn:D; simpl.
    2:{ apply Skip. now left. }
    destruct (int_of_digits (Py.strip line) D) as [Ei Pos]. rewrite Ei.
    destruct (Z.eqb_spec (decimal_value 0 (Py.strip line)) 0) as [Z0|NZ].
    { split; [reflexivity|]. exists [], line. repeat split; [constructor | assumption |].
      left. split; [congruence | reflexivity]. }
    destruct (Z.leb_spec 1 (decimal_value 0 (Py.strip line))) as [L1|L1]; simpl.
    2:{ apply Skip. right. exists (decimal_value 0 (Py.strip line)).
        repeat split; [assumption | assumption | lia]. }
    destruct (Z.leb_spec (decimal_value 0 (Py.strip line))
                (Z.of_nat (List.length occurrences))) as [L2|L2].
    2:{ apply Skip. right. exists (decimal_value 0 (Py.strip line)).
        repeat split; [assumption | assumption | lia]. }
    destruct (nth_error occurrences (Z.to_nat (decimal_value 0 (Py.strip line) - 1)))
      as [selected|] eqn:En.
    + split; [reflexivity|]. exists [], line. repeat split; [constructor | assumption|].
      right. exists (decimal_value 0 (Py.strip line)), selected.
      repeat split; try assumption; lia.
    + apply nth_error_None in En. lia.
Qed.


(* ================================================================= *)
(** ** What the duplicate flow submits *)

Lemma select_occurrences_picks (idx : nat) (duplicates : dict (list scanned))
    to_remove_items answers typed tr :
  match select_occurrences idx duplicates to_remove_items answers typed tr with
  | Done cands answers' _ _ =>
      answers' = answers
      /\ exists chosen,
           picks_from duplicates chosen
           /\ cands = to_remove_items ++ map occurrence_of (picked chosen)
  | Raised e _ => e = EOFError
  | Starved _ => False
  end.
Proof.
  revert idx to_remove_items answers typed tr.
  induction duplicates as [|[k occurrences] rest IH];
    intros idx to_remove_items answers typed tr; simpl.
  - split; [reflexivity|]. exists []. split; [constructor | now rewrite app_nil_r].
  - match goal with
    | |- context [ask_occurrence occurrences answers typed ?t] =>
        pose proof (ask_occurrence_cases occurrences answers typed t) as Q;
        destruct (ask_occurrence occurrences answers typed t) as [choice a1 t1 tr1|e tr1|tr1]
    end; [| exact (proj1 Q) | exact Q].
    destruct Q as [-> [skipped [line [_ [_ [_ Q]]]]]].
    match goal with
    | |- context [select_occurrences (S idx) rest ?c answers t1 tr1] =>
        specialize (IH (S idx) c answers t1 tr1);
        destruct (select_occurrences (S idx) rest c answers t1 tr1)
          as [cands a2 t2 tr2|e tr2|tr2]
    end; [| exact IH | exact IH].
    destruct IH as [-> [chosen [P E]]]. split; [reflexivity|].
    destruct Q as [[_ ->]|[n [selected [_ [Hn [_ ->]]]]]].
    + exists (None :: chosen). split; [constructor; [exact I | exact P] | exact E].
    + exists (Some selected :: chosen). split.
      * constructor; [simpl; eapply nth_error_In; eassumption | exact P].
      * rewrite E, <- app_assoc. reflexivity.
Qed.

Lemma picked_length (duplicates : dict (list scanned)) (chosen : list (option scanned)) :
  picks_from duplicates chosen -> List.length (picked chosen) <= List.length duplicates.
Proof.
  induction 1 as [|kv pick duplicates chosen _ _ IH]; simpl; [lia|].
  destruct pick; simpl; lia.
Qed.

Lemma picked_keys (duplicates : dict (list scanned)) (chosen : list (option scanned)) :
  well_keyed duplicates -> picks_from duplicates chosen ->
  NoDup (map group_key (picked chosen))
  /\ incl (map group_key (picked chosen)) (keys duplicates)
  /\ (forall selected, In selected (picked chosen) ->
        exists kv, In kv duplicates /\ In selected (snd kv)).
Proof.
  intros [ND WK] P. induction P as [|kv pick duplicates chosen Hp _ IH]; simpl.
  - repeat split; [constructor | intros x [] | intros s []].
  - inversion ND as [|? ? Hk ND']; subst. inversion WK as [|? ? Hkv WK']; subst.
    destruct (IH ND' WK') as [N [Inc Mem]].
    destruct pick as [selected|]; simpl.
    + assert (K : group_key selected = fst kv).
      { rewrite Forall_forall in Hkv. now apply Hkv. }
      repeat split.
      * constructor; [|exact N]. rewrite K. intros Hin. apply Hk. now apply Inc.
      * intros x [<-|Hx]; [left; now rewrite K | right; now apply Inc].
      * intros s [<-|Hs]; [exists kv; split; [now left | assumption]|].
        destruct (Mem s Hs) as [kv' [H1 H2]]. exists kv'. split; [now right | assumption].
    + repeat split; [exact N | intros x Hx; right; now apply Inc |].
      intros s Hs. destruct (Mem s Hs) as [kv' [H1 H2]]. exists kv'.
      split; [now right | assumption].
Qed.

Lemma NoDup_map_fst_filter {A B} (f : A * B -> bool) (l : list (A * B)) :
  NoDup (map fst l) -> NoDup (map fst (filter f l)).
Proof.
  induction l as [|x l IH]; simpl; intros ND; [constructor|].
  inversion ND as [|? ? Hx ND']; subst. destruct (f x); simpl; [|now apply IH].
  constructor; [|now apply IH].
  intros Hin. apply Hx. apply in_map_iff in Hin as [y [E Hy]].
  apply filter_In in Hy as [Hy _]. apply in_map_iff. now exists y.
Qed.

Lemma duplicates_well_keyed (items : list scanned) :
  well_keyed (duplicates_of (group_items items))
  /\ forall kv, In kv (duplicates_of (group_items items)) ->
       1 < List.length (snd kv) /\ forall it, In it (snd kv) -> In it items.
Proof.
  split; [split|].
  - unfold duplicates_of, keys. apply NoDup_map_fst_filter.
    rewrite group_items_is_group_by. apply (group_by_NoDup group_key). constructor.
  - apply Forall_forall. intros [k v] Hkv. unfold duplicates_of in Hkv.
    apply filter_In in Hkv as [Hkv _]. apply group_items_In in Hkv as [_ ->].
    apply Forall_forall. intros it Hit. unfold sharing in Hit.
    apply filter_In in Hit as [_ E]. now apply String.eqb_eq in E.
  - intros [k v] Hkv. unfold duplicates_of in Hkv.
    apply filter_In in Hkv as [Hkv L]. simpl in L. apply Nat.ltb_lt in L.
    split; [exact L|]. apply group_items_In in Hkv as [_ ->].
    intros it Hit. unfold sharing in Hit. now apply filter_In in Hit as [Hit _].
Qed.

Lemma scan_positions_NoDup (pages : source) : NoDup (map position (scan_duplicates pages)).
Proof.
  unfold scan_duplicates. rewrite scan_concat, scan_duplicates_fold. simpl.
  rewrite number_from_positions. apply seq_NoDup.
Qed.

Lemma NoDup_map_on {A B} (f : A -> B) (l : list A) :
  NoDup l -> (forall a b, In a l -> In b l -> f a = f b -> a = b) -> NoDup (map f l).
Proof.
  induction 1 as [|x l Hx _ IH]; intros Inj; simpl; constructor.
  - intros Hin. apply in_map_iff in Hin as [y [E Hy]]. apply Hx.
    rewrite (Inj x y); [assumption | now left | now right | now symmetry].
  - apply IH. intros a b Ha Hb. apply Inj; now right.
Qed.

Lemma NoDup_map_injective_on {A B} (f : A -> B) (l : list A) (a b : A) :
  NoDup (map f l) -> In a l -> In b l -> f a = f b -> a = b.
Proof.
  induction l as [|x l IH]; simpl; intros ND Ha Hb E; [contradiction|].
  inversion ND as [|? ? Hx ND']; subst.
  destruct Ha as [<-|Ha], Hb as [<-|Hb]; try reflexivity.
  - exfalso. apply Hx. rewrite E. now apply in_map.
  - exfalso. apply Hx. rewrite <- E. now apply in_map.
  - now apply IH.
Qed.

(** X17. Whatever is typed, the candidates of the duplicate flow are
    picked group by group, at most one in each reported group and in the
    order of the groups; each names, by its URI and its position, an entry
    of the scan that belongs to a group of more than one entry, and no
    position is submitted twice. *)
Theorem duplicate_candidates_are_picked_entries (pages : source) answers typed :
  (exists chosen,
     picks_from (duplicates_of (group_items (scan_duplicates pages))) chosen
     /\ selected_occurrences pages answers typed = map occurrence_of (picked chosen)
     /\ (forall selected,
           In selected (picked chosen) ->
           In selected (scan_duplicates pages)
           /\ 1 < List.length (sharing group_key (group_key selected) (scan_duplicates pages))))
  /\ List.length (selected_occurrences pages answers typed)
     <= List.length (duplicates_of (group_items (scan_duplicates pages)))
  /\ NoDup (map occ_positions (selected_occurrences pages answers typed)).
Proof.
  set (dups := duplicates_of (group_items (scan_duplicates pages))).
  destruct (duplicates_well_keyed (scan_duplicates pages)) as [WK Mem]. fold dups in WK, Mem.
  assert (G : exists chosen,
             picks_from dups chosen
             /\ selected_occurrences pages answers typed = map occurrence_of (picked chosen)).
  { unfold selected_occurrences, selection. fold dups.
    pose proof (select_occurrences_picks 1 dups [] answers typed (dup_found pages)) as P.
    destruct (select_occurrences 1 dups [] answers typed (dup_found pages))
      as [cands a t tr| |].
    - destruct P as [_ [chosen [P E]]]. exists chosen. now split.
    - exists (map (fun _ => None) dups). split.
      + clear. unfold picks_from. induction dups; simpl; constructor; [exact I | assumption].
      + clear. induction dups; simpl; [reflexivity | assumption].
    - contradiction. }
  destruct G as [chosen [P E]].
  destruct (picked_keys dups chosen WK P) as [NK [_ In_group]].
  assert (Entry : forall selected,
             In selected (picked chosen) ->
             In selected (scan_duplicates pages)
             /\ 1 < List.length (sharing group_key (group_key selected)
                                   (scan_duplicates pages))).
  { intros selected Hs. destruct (In_group selected Hs) as [[k v] [Hkv Hv]].
    destruct (Mem (k, v) Hkv) as [L Sub]. simpl in *. split; [now apply Sub|].
    destruct WK as [_ WK]. rewrite Forall_forall in WK.
    pose proof (WK (k, v) Hkv) as Kv. simpl in Kv. rewrite Forall_forall in Kv.
    rewrite (Kv selected Hv).
    unfold dups, duplicates_of in Hkv. apply filter_In in Hkv as [Hkv _].
    apply group_items_In in Hkv as [_ <-]. exact L. }
  split; [exists chosen; repeat split; try assumption; now apply Entry|].
  split.
  - rewrite E, length_map. now apply picked_length.
  - rewrite E, map_map.
    apply NoDup_map_on; [now apply NoDup_map_inv in NK|].
    intros a b Ha Hb Eq. simpl in Eq. injection Eq as Eq.
    apply (NoDup_map_injective_on position (scan_duplicates pages));
      [apply scan_positions_NoDup | now apply Entry | now apply Entry | exact Eq].
Qed.

(** X18. The duplicate flow touches the playlist only when an occurrence
    was picked: with nothing picked it makes no removal call, with
    something picked it submits the first 50 picks in one call; and when no
    group holds more than one entry it asks nothing and ends at once. *)
Theorem duplicate_flow_calls_on_selection (pages : source) answers typed :
  (selected_occurrences pages answers typed = [] ->
   no_removal_call (trace_of (remove_duplicates_from_playlist pages answers typed)))
  /\ (selected_occurrences pages answers typed <> [] ->
      In (RemoveSpecific (firstn 50 (selected_occurrences pages answers typed)))
         (trace_of (remove_duplicates_from_playlist pages answers typed)))
  /\ (duplicates_of (group_items (scan_duplicates pages)) = [] ->
      remove_duplicates_from_playlist pages answers typed
      = Done tt answers typed [Print MsgDupScanning; Print MsgDupNone]).
Proof.
  rewrite dup_flow_cases. unfold selected_occurrences.
  pose proof (selection_quiet pages answers typed) as Q.
  apply quiet_no_removal_call in Q.
  destruct (duplicates_of (group_items (scan_duplicates pages))) as [|g gs] eqn:ED.
  { split; [|split].
    - intros _. repeat constructor.
    - intros N. exfalso. apply N. unfold selection. rewrite ED. reflexivity.
    - reflexivity. }
  split; [|split; [|discriminate]].
  - destruct (selection pages answers typed) as [cands a t tr| |]; cbn [trace_of] in *.
    + intros ->. apply Forall_app. split; [exact Q | repeat constructor].
    + intros _. exact Q.
    + intros _. exact Q.
  - destruct (selection pages answers typed) as [cands a t tr| |]; cbn [trace_of] in *;
      try (intros N; exfalso; apply N; reflexivity).
    intros N. destruct cands as [|c cs]; [congruence|].
    destruct (chunked_list_head (c :: cs) 50 N) as [chunks EC].
    destruct (remove_chunks_starts RemoveSpecific MsgBatchError MsgBatchUnexpected
                (fun it e2 => MsgOccurrenceFailed (occ_positions it) (occ_uri it) e2)
                (firstn 50 (c :: cs)) chunks a t 0 tr) as [rest E].
    unfold remove_occurrences_in_chunks. rewrite EC.
    destruct (remove_chunks RemoveSpecific MsgBatchError MsgBatchUnexpected _
                (firstn 50 (c :: cs) :: chunks) a t 0 tr) as [n1 a1 t1 tr1|e tr1|tr1];
      cbn [trace_of] in E |- *; subst tr1.
    + apply in_or_app. left. apply in_or_app. right. now left.
    + apply in_or_app. right. now left.
    + apply in_or_app. right. now left.
Qed.

Lemma duplicate_flow_calls_on_selection_witness :
  no_removal_call (trace_of (remove_duplicates_from_playlist grouping_example [ROk] ["0"])).
Proof.
  apply (proj1 (duplicate_flow_calls_on_selection grouping_example [ROk] ["0"])).
  reflexivity.
Defined.

(* ================================================================= *)
(** ** The groups as a whole *)

Lemma group_by_keys {V} (key_of : V -> string) (items : list V) (groups : dict (list V)) :
  keys (group_by key_of items groups) = first_seen (map key_of items) (keys groups).
Proof.
  unfold group_by, first_seen. revert groups.
  induction items as [|it items IH]; intros groups; simpl; [reflexivity|].
  rewrite IH, keys_setdefault_append, dict_mem_keys. reflexivity.
Qed.

Lemma dict_by_keys {V} (d : dict V) (g : string -> V) :
  (forall k v, In (k, v) d -> v = g k) -> d = map (fun k => (k, g k)) (keys d).
Proof.
  induction d as [|[k v] d IH]; intros H; simpl; [reflexivity|].
  rewrite (H k v (or_introl eq_refl)). f_equal. apply IH.
  intros k' v' Hin. apply H. now right.
Qed.

Lemma grouped_entries_append {V} (k : string) (x : V) (d : dict (list V)) :
  grouped_entries (setdefault_append k x d) = S (grouped_entries d).
Proof.
  unfold grouped_entries. induction d as [|[k' xs] d IH]; simpl; [reflexivity|].
  destruct (String.eqb k k'); simpl.
  - rewrite length_app. simpl. lia.
  - rewrite IH. lia.
Qed.

(** X19. The groups are kept in the order in which their keys first occur
    in the scan, each group holding all the entries of its key: the
    dictionary of groups is the list, over the keys in order of first
    occurrence, of the key with the entries sharing it.  The duplicates
    reported are those groups, in the same order, that hold more than one
    entry. *)
Theorem groups_in_order_of_first_occurrence (items : list scanned) :
  group_items items
  = map (fun k => (k, sharing group_key k items)) (first_seen (map group_key items) [])
  /\ duplicates_of (group_items items)
     = map (fun k => (k, sharing group_key k items))
         (filter (fun k => 1 <? List.length (sharing group_key k items))
            (first_seen (map group_key items) [])).
Proof.
  assert (E : group_items items
              = map (fun k => (k, sharing group_key k items))
                  (first_seen (map group_key items) [])).
  { pose proof (group_by_keys group_key items []) as K. simpl in K. rewrite <- K.
    rewrite <- group_items_is_group_by. apply dict_by_keys.
    intros k v H. now apply group_items_In in H as [_ ->]. }
  split; [exact E|].
  rewrite E. unfold duplicates_of.
  generalize (first_seen (map group_key items) []). intros ks.
  induction ks as [|k ks IH]; simpl; [reflexivity|].
  destruct (1 <? List.length (sharing group_key k items)); simpl; now rewrite IH.
Qed.

(** X20. Grouping loses and repeats nothing: every scanned entry lies in
    the group kept under its own key, and the sizes of the groups add up to
    the number of entries scanned. *)
Theorem groups_partition_entries (items : list scanned) :
  grouped_entries (group_items items) = List.length items
  /\ (forall it,
        In it items ->
        exists v, In (group_key it, v) (group_items items) /\ In it v).
Proof.
  split.
  - rewrite group_items_is_group_by. unfold group_by.
    enough (G : forall groups,
               grouped_entries
                 (fold_left (fun groups it => setdefault_append (group_key it) it groups)
                    items groups)
               = grouped_entries groups + List.length items) by apply (G []).
    induction items as [|it items IH]; intros groups; simpl; [lia|].
    rewrite IH, grouped_entries_append. lia.
  - intros it Hit. exists (sharing group_key (group_key it) items).
    assert (M : In it (sharing group_key (group_key it) items)).
    { unfold sharing. apply filter_In. split; [assumption | apply String.eqb_refl]. }
    split; [|exact M]. apply group_items_In. split; [|reflexivity].
    intros E. rewrite E in M. exact M.
Qed.

Lemma groups_partition_entries_witness :
  exists v,
    In (group_key (scan_entry 2 (mkItem None (Some (mkTrack "Song" ["B"] "u2" None)))
                     (mkTrack "Song" ["B"] "u2" None)), v)
       (group_items (scan_duplicates grouping_example))
    /\ In (scan_entry 2 (mkItem None (Some (mkTrack "Song" ["B"] "u2" None)))
             (mkTrack "Song" ["B"] "u2" None)) v.
Proof.
  apply (proj2 (groups_partition_entries (scan_duplicates grouping_example))).
  vm_compute. auto 10.
Defined.

(* ================================================================= *)
(** ** The listing before the confirmation *)

Lemma dict_get_snoc {V} (u k : string) (v : V) (d : dict V) :
  dict_get u (d ++ [(k, v)])
  = match dict_get u d with
    | Some x => Some x
    | None => if String.eqb u k then Some v else None
    end.
Proof.
  induction d as [|[k' v'] d IH]; simpl; [reflexivity|].
  destruct (String.eqb u k'); [reflexivity | exact IH].
Qed.

Lemma dict_mem_get {V} (k : string) (d : dict V) :
  dict_mem k d = match dict_get k d with Some _ => true | None => false end.
Proof.
  unfold dict_mem. induction d as [|[k' v] d IH]; simpl; [reflexivity|].
  destruct (String.eqb k k'); [reflexivity | exact IH].
Qed.

Lemma dict_get_fold_setdefault {M V} (f : M -> string) (g : M -> V) (ms : list M)
    (d : dict V) (u : string) :
  dict_get u (fold_left (fun d m => setdefault (f m) (g m) d) ms d)
  = match dict_get u d with
    | Some x => Some x
    | None => option_map g (find (fun m => String.eqb (f m) u) ms)
    end.
Proof.
  revert d. induction ms as [|m ms IH]; intros d; simpl.
  - now destruct (dict_get u d).
  - rewrite IH. unfold setdefault. rewrite dict_mem_get.
    destruct (dict_get (f m) d) as [y|] eqn:Ef.
    + destruct (dict_get u d) as [x|] eqn:Eu; [reflexivity|].
      destruct (String.eqb_spec (f m) u) as [E|N]; [congruence | reflexivity].
    + rewrite dict_get_snoc. destruct (dict_get u d) as [x|] eqn:Eu; [reflexivity|].
      rewrite (String.eqb_sym u (f m)).
      destruct (String.eqb (f m) u); reflexivity.
Qed.

Lemma show_year_tracks_length (idx : nat) (d : dict year_info) :
  List.length (show_year_tracks idx d) = List.length d.
Proof.
  revert idx. induction d as [|[k info] d IH]; intros idx; simpl; [reflexivity|].
  now rewrite IH.
Qed.

(** X21. Before asking for confirmation the year flow lists each distinct
    URI once, in the order of first occurrence, with the name, the artists
    and the date of the first matching slot that carries it; later slots of
    the same URI change nothing. *)
Theorem year_listing_keeps_first_match (matches : list year_match) :
  (forall u,
     dict_get u (unique_by_uri_of matches)
     = option_map year_info_of (find (fun m => String.eqb (ym_uri m) u) matches))
  /\ keys (unique_by_uri_of matches) = first_seen (map ym_uri matches) []
  /\ NoDup (keys (unique_by_uri_of matches))
  /\ List.length (show_year_tracks 1 (unique_by_uri_of matches))
     = List.length (keys (unique_by_uri_of matches)).
Proof.
  split; [|split; [|split]].
  - intros u. unfold unique_by_uri_of.
    exact (dict_get_fold_setdefault ym_uri year_info_of matches [] u).
  - apply keys_unique_by_uri.
  - rewrite keys_unique_by_uri. apply first_seen_NoDup. constructor.
  - rewrite show_year_tracks_length. unfold keys. now rewrite length_map.
Qed.

(* ================================================================= *)
(** ** Positions and slots *)

Lemma present_tracks_app (xs ys : list item) :
  present_tracks (xs ++ ys) = present_tracks xs ++ present_tracks ys.
Proof. unfold present_tracks. apply flat_map_app. Qed.

Lemma present_and_missing (items : list item) :
  List.length (present_tracks items) + List.length (filter track_missing items)
  = List.length items.
Proof.
  induction items as [|it items IH]; simpl; [reflexivity|].
  unfold track_missing at 1. destruct (item_track it); simpl; lia.
Qed.

Lemma number_from_nth (p : nat) (xs : list (item * track)) (it : item) (t : track)
    (ys : list (item * track)) :
  nth_error (number_from p (xs ++ (it, t) :: ys)) (List.length xs)
  = Some (scan_entry (p + List.length xs) it t).
Proof.
  rewrite number_from_app. rewrite nth_error_app2 by (rewrite number_from_length; lia).
  rewrite number_from_length, Nat.sub_diag. reflexivity.
Qed.

(** X22. The position the duplicate scan gives to a track is the index of
    its slot among all slots of the playlist, less the number of slots
    before it whose track is gone: the two agree as long as no such slot
    comes first, and the position falls behind by one for each of them. *)
Theorem position_skips_missing_tracks (pages : source) (j : nat) (it : item) (t : track) :
  nth_error (List.concat pages) j = Some it ->
  item_track it = Some t ->
  exists p,
    nth_error (scan_duplicates pages) p = Some (scan_entry p it t)
    /\ p + List.length (filter track_missing (firstn j (List.concat pages))) = j.
Proof.
  intros Hj Ht.
  destruct (nth_error_split (List.concat pages) j Hj) as [l1 [l2 [E L]]].
  exists (List.length (present_tracks l1)). split.
  - unfold scan_duplicates. rewrite scan_concat, scan_duplicates_fold. simpl.
    rewrite E, present_tracks_app. simpl. rewrite Ht. simpl.
    apply (number_from_nth 0).
  - rewrite E, <- L, firstn_app, Nat.sub_diag, firstn_all. simpl. rewrite app_nil_r.
    apply present_and_missing.
Qed.

Lemma position_skips_missing_tracks_witness :
  exists p,
    nth_error
      (scan_duplicates
         [[mkItem None None; mkItem None (Some (mkTrack "One" ["A"] "u1" None))]]) p
    = Some (scan_entry p (mkItem None (Some (mkTrack "One" ["A"] "u1" None)))
              (mkTrack "One" ["A"] "u1" None))
    /\ p + List.length
             (filter track_missing
                (firstn 1
                   (List.concat
                      [[mkItem None None;
                        mkItem None (Some (mkTrack "One" ["A"] "u1" None))]])))
       = 1.
Proof.
  apply (position_skips_missing_tracks
           [[mkItem None None; mkItem None (Some (mkTrack "One" ["A"] "u1" None))]] 1
           (mkItem None (Some (mkTrack "One" ["A"] "u1" None)))
           (mkTrack "One" ["A"] "u1" None)); reflexivity.
Defined.

(* ================================================================= *)
(** ** Flows inside a session *)

(** The duplicate flow and the year flow print their first line before
    they read the playlist; this is the line a session places before the
    read. *)
Lemma dup_flow_prologue (pages : source) answers typed :
  exists rest,
    trace_of (remove_duplicates_from_playlist pages answers typed)
    = [Print MsgDupScanning] ++ rest.
Proof.
  rewrite dup_flow_cases.
  destruct (duplicates_of (group_items (scan_duplicates pages))) as [|g gs] eqn:ED.
  { eexists. reflexivity. }
  destruct (select_occurrences_quiet 1 (g :: gs) [] answers typed (dup_found pages))
    as [added [E _]].
  unfold selection. rewrite ED.
  destruct (select_occurrences 1 (g :: gs) [] answers typed (dup_found pages))
    as [cands a t tr|e tr|tr]; cbn [trace_of] in E; subst tr;
    try (eexists; unfold dup_found; reflexivity).
  destruct cands as [|c cs]; [eexists; unfold dup_found; reflexivity|].
  destruct (remove_chunks_follows RemoveSpecific MsgBatchError MsgBatchUnexpected
              (fun it e2 => MsgOccurrenceFailed (occ_positions it) (occ_uri it) e2)
              (_chunked_list (c :: cs) 50) a t 0 (dup_found pages ++ added)) as [more E].
  unfold remove_occurrences_in_chunks.
  destruct (remove_chunks RemoveSpecific MsgBatchError MsgBatchUnexpected _
              (_chunked_list (c :: cs) 50) a t 0 (dup_found pages ++ added));
    cbn [trace_of] in E |- *; rewrite E; eexists; unfold dup_found; reflexivity.
Qed.

Lemma year_flow_prologue (pages : source) (year_cutoff : Z) answers typed :
  exists rest,
    trace_of (remove_tracks_before_year_from_playlist pages year_cutoff answers typed)
    = [Print (MsgYearSearching year_cutoff)] ++ rest.
Proof.
  rewrite year_flow_cases.
  destruct (scan (scan_year_item year_cutoff) pages []); [eexists; reflexivity|].
  destruct typed as [|line typed]; [eexists; unfold year_prompt; reflexivity|].
  destruct (year_confirmed line); [|eexists; unfold year_prompt; reflexivity].
  destruct (year_candidates pages year_cutoff) as [|u us];
    [eexists; unfold year_prompt; reflexivity|].
  destruct (remove_chunks_follows RemoveAll MsgBatchError MsgBatchUnexpected MsgUriFailed
              (_chunked_list (u :: us) 100) answers typed 0 (year_prompt pages year_cutoff))
    as [more E].
  unfold remove_uris_in_chunks.
  destruct (remove_chunks RemoveAll MsgBatchError MsgBatchUnexpected MsgUriFailed
              (_chunked_list (u :: us) 100) answers typed 0 (year_prompt pages year_cutoff));
    cbn [trace_of] in E |- *; rewrite E; eexists; unfold year_prompt; reflexivity.
Qed.

Lemma session_rounds_consume_input_witness :
  program (Some "id") (Some "secret") (Some "uri") "me" [[mkPlaylist "p1" "Rock" "me"]]
    [] [] ["9"; "7"]
  <> Unfinished [].
Proof.
  apply (proj2 session_rounds_consume_input).
Defined.
